(** * useFormPersistence: a model of the form persistence hook

    The hook keeps a form in three stores: the session tier
    (sessionStorage), the durable tier (localStorage) and a blob store for
    files (IndexedDB).  This development embeds the hook as state-passing
    functions over an explicit browser state and proves properties of its
    startup classification, write order, file replacement, failure
    handling, round trips, expiry and transform hooks.

    How the program is modelled:

    - JavaScript values are the type [value]; an object is the list of its
      own properties in insertion order.  Strings are byte strings.
      Numbers are integers, printed in decimal: the integers a double
      holds exactly (magnitude up to 2^53) behave as in JavaScript, and
      fractions, exponents, NaN and the infinities are outside the
      model.  A statement that depends on how a number is printed or
      read says so in its hypotheses ([safe_numbers], [no_digit]).
    - [JSON_stringify] and [JSON_parse] are a printer and a parser for the
      JSON text the hook stores; [toISOString] and [date_parse] are the
      codec of the time stamps it writes, for every time value a Date
      can hold.  A text in another date format reads as no time here
      (the NaN of the source), also where an engine would read it; the
      statements about stamps are about the stamps the hook writes, or
      about values that are no time for every engine.
    - A computation of the hook is a function from the state to a result
      ([Ok] or [Throw]) and a state.  The state holds the reactive values
      of the hook, the two text tiers, the blob store, the clock, the
      visibility of the page, the queue of timers and a trace of the
      storage writes and error reports.
    - Each function of the hook runs to its end before another starts; a
      timer runs when [run_task] is applied to it.  Writes to the text
      tiers succeed.  The blob store fails when it is not initialized,
      when a file cannot be read or when its quota is exceeded.
    - The [onError] callback of the options is an observer: its calls are
      recorded in the trace as [OnError] events.
    - The deep watcher on the form is [onFormMutation]: a change of a
      field followed by a text save.  A property of another function is a
      property of that function's own code; the save the watcher starts
      when a function changes the form is a separate operation.
    - The form component that uses the hook is present with its two
      handlers, [handleFileChange] and [handleClearStorage]; the answer
      to its confirmation dialog is an argument and the alert it shows is
      the result. *)

From Stdlib Require Import ZArith String Ascii List Lia DecimalString DecimalZ DecimalPos DecimalN DecimalFacts.
From stdpp Require Import gmap strings list.
Import ListNotations.

Open Scope Z_scope.

(** * JavaScript values *)

#[warnings="-register-all"]
Inductive value : Type :=
| JUndefined
| JNull
| JBool (b : bool)
| JNum (n : Z)
| JStr (s : string)
| JArr (elems : list value)
| JObj (props : list (string * value)).

Abbreviation obj := (list (string * value)).

Definition dquote : ascii := "034"%char.
Definition bslash : ascii := "092"%char.

(** ** Plain objects: ordered own properties *)

Fixpoint obj_get {A : Type} (k : string) (o : list (string * A)) : option A :=
  match o with
  | [] => None
  | (k', v) :: o' => if String.eqb k k' then Some v else obj_get k o'
  end.

Fixpoint obj_set {A : Type} (k : string) (v : A) (o : list (string * A)) :
  list (string * A) :=
  match o with
  | [] => [(k, v)]
  | (k', v') :: o' =>
      if String.eqb k k' then (k', v) :: o' else (k', v') :: obj_set k v o'
  end.

Fixpoint obj_delete {A : Type} (k : string) (o : list (string * A)) :
  list (string * A) :=
  match o with
  | [] => []
  | (k', v) :: o' =>
      if String.eqb k k' then obj_delete k o' else (k', v) :: obj_delete k o'
  end.

Definition obj_keys (o : obj) : list string := map fst o.
Definition obj_values (o : obj) : list value := map snd o.

Definition obj_assign (target source : obj) : obj :=
  fold_left (fun t kv => obj_set (fst kv) (snd kv) t) source target.

(** ** JSON.stringify *)

Definition hex_digit (n : nat) : ascii :=
  nth n ["0"; "1"; "2"; "3"; "4"; "5"; "6"; "7"; "8"; "9";
         "a"; "b"; "c"; "d"; "e"; "f"]%char "0"%char.

Definition escape_char (c : ascii) : string :=
  if Ascii.eqb c dquote then String bslash (String dquote "")
  else if Ascii.eqb c bslash then String bslash (String bslash "")
  else match c with
       | "008"%char => String bslash "b"
       | "009"%char => String bslash "t"
       | "010"%char => String bslash "n"
       | "012"%char => String bslash "f"
       | "013"%char => String bslash "r"
       | _ =>
           if (nat_of_ascii c <? 32)%nat
           then String bslash
                  (String "u" (String "0" (String "0"
                     (String (hex_digit (nat_of_ascii c / 16))
                        (String (hex_digit (nat_of_ascii c mod 16)) "")))))
           else String c ""
       end.

Fixpoint escape (s : string) : string :=
  match s with
  | EmptyString => ""
  | String c s' => escape_char c +:+ escape s'
  end.

Definition quote (s : string) : string :=
  String dquote (escape s +:+ String dquote "").

(** Numbers are the integers, printed digit by digit.  That is what
    [Number::toString] does for the integers a double holds exactly,
    those of magnitude up to 2^53; beyond them JavaScript rounds, and
    from 10^21 on it prints an exponent.  The statements about printed
    numbers therefore carry the bound [safe_numbers]; fractions, NaN
    and the infinities are not values of the model. *)
Definition number_to_string (n : Z) : string :=
  NilZero.string_of_int (Z.to_int n).

Fixpoint join_comma (l : list string) : string :=
  match l with
  | [] => ""
  | [s] => s
  | s :: l' => s +:+ "," +:+ join_comma l'
  end.

Fixpoint ser (v : value) : option string :=
  match v with
  | JUndefined => None
  | JNull => Some "null"
  | JBool true => Some "true"
  | JBool false => Some "false"
  | JNum n => Some (number_to_string n)
  | JStr s => Some (quote s)
  | JArr l =>
      Some ("[" +:+ join_comma (map (fun x => default "null" (ser x)) l) +:+ "]")
  | JObj o =>
      Some ("{" +:+ join_comma
              (omap (fun kv => match ser (snd kv) with
                               | Some s => Some (quote (fst kv) +:+ ":" +:+ s)
                               | None => None
                               end) o) +:+ "}")
  end.

Definition JSON_stringify (v : value) : option string := ser v.


(** ** JSON.parse *)

Definition is_ws (c : ascii) : bool :=
  match c with
  | " "%char | "009"%char | "010"%char | "013"%char => true
  | _ => false
  end.

Fixpoint skip_ws (s : string) : string :=
  match s with
  | String c s' => if is_ws c then skip_ws s' else s
  | EmptyString => s
  end.

Definition hex_val (c : ascii) : option nat :=
  let n := nat_of_ascii c in
  if ((48 <=? n) && (n <=? 57))%nat then Some (n - 48)%nat
  else if ((97 <=? n) && (n <=? 102))%nat then Some (n - 87)%nat
  else if ((65 <=? n) && (n <=? 70))%nat then Some (n - 55)%nat
  else None.

Definition hex4 (a b c d : ascii) : option nat :=
  match hex_val a, hex_val b, hex_val c, hex_val d with
  | Some x, Some y, Some z, Some w => Some (((x * 16 + y) * 16 + z) * 16 + w)%nat
  | _, _, _, _ => None
  end.

(** A UTF-16 code unit written as [\uXXXX], stored as the bytes of its
    UTF-8 form (strings of the model are byte strings). *)
Definition utf8_of_unit (n : nat) : string :=
  if (n <? 128)%nat then String (ascii_of_nat n) ""
  else if (n <? 2048)%nat then
    String (ascii_of_nat (192 + n / 64))
      (String (ascii_of_nat (128 + n mod 64)) "")
  else
    String (ascii_of_nat (224 + n / 4096))
      (String (ascii_of_nat (128 + (n / 64) mod 64))
         (String (ascii_of_nat (128 + n mod 64)) "")).

Definition unescape (e : ascii) : option ascii :=
  if Ascii.eqb e dquote then Some dquote
  else if Ascii.eqb e bslash then Some bslash
  else match e with
       | "/"%char => Some "/"%char
       | "b"%char => Some "008"%char
       | "t"%char => Some "009"%char
       | "n"%char => Some "010"%char
       | "f"%char => Some "012"%char
       | "r"%char => Some "013"%char
       | _ => None
       end.

Definition prepend (p : string) (r : option (string * string)) :
  option (string * string) :=
  match r with
  | Some (s, rest) => Some (p +:+ s, rest)
  | None => None
  end.

(** The characters of a string literal, after its opening quote. *)
Fixpoint parse_chars (s : string) : option (string * string) :=
  match s with
  | EmptyString => None
  | String c s' =>
      if Ascii.eqb c dquote then Some ("", s')
      else if Ascii.eqb c bslash then
        match s' with
        | String "u" (String h1 (String h2 (String h3 (String h4 s3)))) =>
            match hex4 h1 h2 h3 h4 with
            | Some n => prepend (utf8_of_unit n) (parse_chars s3)
            | None => None
            end
        | String e s'' =>
            match unescape e with
            | Some ch => prepend (String ch "") (parse_chars s'')
            | None => None
            end
        | EmptyString => None
        end
      else if (nat_of_ascii c <? 32)%nat then None
      else prepend (String c "") (parse_chars s')
  end.

Definition digit_of (c : ascii) : option (Decimal.uint -> Decimal.uint) :=
  match c with
  | "0"%char => Some Decimal.D0 | "1"%char => Some Decimal.D1
  | "2"%char => Some Decimal.D2 | "3"%char => Some Decimal.D3
  | "4"%char => Some Decimal.D4 | "5"%char => Some Decimal.D5
  | "6"%char => Some Decimal.D6 | "7"%char => Some Decimal.D7
  | "8"%char => Some Decimal.D8 | "9"%char => Some Decimal.D9
  | _ => None
  end.

Fixpoint scan_uint (s : string) : Decimal.uint * string :=
  match s with
  | String c s' =>
      match digit_of c with
      | Some dk => let (d, r) := scan_uint s' in (dk d, r)
      | None => (Decimal.Nil, s)
      end
  | EmptyString => (Decimal.Nil, s)
  end.

(** Integer literals only: a fraction or an exponent denotes a double,
    which this model of numbers does not cover. *)
Definition number_continues (rest : string) : bool :=
  match rest with
  | String "."%char _ | String "e"%char _ | String "E"%char _ => true
  | _ => false
  end.

(** No digit at all, or a leading zero before further digits. *)
Definition bad_digits (d : Decimal.uint) : bool :=
  match d with
  | Decimal.Nil => true
  | Decimal.D0 Decimal.Nil => false
  | Decimal.D0 _ => true
  | _ => false
  end.

(** The number syntax read here is the integer one, [-]digits without a
    leading zero.  A fraction or an exponent part, which [JSON.parse]
    accepts, makes the parse fail, and an integer is kept exact where
    JavaScript rounds it to a double; a statement that assumes a
    failed parse therefore restricts itself to texts without digits,
    and one that assumes a printed number to [safe_numbers]. *)
Definition parse_number (s : string) : option (value * string) :=
  let (neg, s1) :=
    match s with
    | String "-"%char s' => (true, s')
    | _ => (false, s)
    end in
  let (d, rest) := scan_uint s1 in
  if bad_digits d || number_continues rest then None
  else Some (JNum (if neg then - Z.of_uint d else Z.of_uint d), rest).

Fixpoint strip_prefix (p s : string) : option string :=
  match p, s with
  | EmptyString, _ => Some s
  | String a p', String b s' => if Ascii.eqb a b then strip_prefix p' s' else None
  | String _ _, EmptyString => None
  end.

Definition parse_literal (lit : string) (v : value) (s : string) :
  option (value * string) :=
  match strip_prefix lit s with
  | Some rest => Some (v, rest)
  | None => None
  end.

Fixpoint parse_value (fuel : nat) (s : string) : option (value * string) :=
  match fuel with
  | O => None
  | S fuel' =>
      match s with
      | EmptyString => None
      | String c s' =>
          if Ascii.eqb c dquote then
            match parse_chars s' with
            | Some (str, rest) => Some (JStr str, rest)
            | None => None
            end
          else
            match c with
            | "{"%char =>
                match skip_ws s' with
                | String "}"%char rest => Some (JObj [], rest)
                | s1 =>
                    match parse_members fuel' [] s1 with
                    | Some (o, rest) => Some (JObj o, rest)
                    | None => None
                    end
                end
            | "["%char =>
                match skip_ws s' with
                | String "]"%char rest => Some (JArr [], rest)
                | s1 =>
                    match parse_elems fuel' s1 with
                    | Some (l, rest) => Some (JArr l, rest)
                    | None => None
                    end
                end
            | "t"%char => parse_literal "true" (JBool true) s
            | "f"%char => parse_literal "false" (JBool false) s
            | "n"%char => parse_literal "null" JNull s
            | _ => parse_number s
            end
      end
  end
with parse_elems (fuel : nat) (s : string) : option (list value * string) :=
  match fuel with
  | O => None
  | S fuel' =>
      match parse_value fuel' s with
      | Some (v, r) =>
          match skip_ws r with
          | String ","%char r' =>
              match parse_elems fuel' (skip_ws r') with
              | Some (vs, r'') => Some (v :: vs, r'')
              | None => None
              end
          | String "]"%char r' => Some ([v], r')
          | _ => None
          end
      | None => None
      end
  end
with parse_members (fuel : nat) (acc : obj) (s : string) : option (obj * string) :=
  match fuel with
  | O => None
  | S fuel' =>
      match s with
      | String q s' =>
          if Ascii.eqb q dquote then
            match parse_chars s' with
            | Some (k, r) =>
                match skip_ws r with
                | String ":"%char r1 =>
                    match parse_value fuel' (skip_ws r1) with
                    | Some (v, r2) =>
                        match skip_ws r2 with
                        | String ","%char r3 =>
                            parse_members fuel' (obj_set k v acc) (skip_ws r3)
                        | String "}"%char r3 => Some (obj_set k v acc, r3)
                        | _ => None
                        end
                    | None => None
                    end
                | _ => None
                end
            | None => None
            end
          else None
      | EmptyString => None
      end
  end.

Definition JSON_parse (text : string) : option value :=
  match parse_value (2 * String.length text + 2) (skip_ws text) with
  | Some (v, rest) =>
      match skip_ws rest with
      | EmptyString => Some v
      | String _ _ => None
      end
  | None => None
  end.



(** * Date: ISO-8601 time stamps *)

Definition ms_per_day : Z := 86400000.

(** Proleptic Gregorian date of a day number (days since 1970-01-01). *)
Definition civil_from_days (z : Z) : Z * Z * Z :=
  let z := z + 719468 in
  let era := z / 146097 in
  let doe := z - era * 146097 in
  let yoe := (doe - doe / 1460 + doe / 36524 - doe / 146096) / 365 in
  let doy := doe - (365 * yoe + yoe / 4 - yoe / 100) in
  let mp := (5 * doy + 2) / 153 in
  let d := doy - (153 * mp + 2) / 5 + 1 in
  let m := if mp <? 10 then mp + 3 else mp - 9 in
  (yoe + era * 400 + (if m <=? 2 then 1 else 0), m, d).

Definition days_from_civil (y m d : Z) : Z :=
  let y := y - (if m <=? 2 then 1 else 0) in
  let era := y / 400 in
  let yoe := y - era * 400 in
  let doy := (153 * (if 2 <? m then m - 3 else m + 9) + 2) / 5 + d - 1 in
  let doe := yoe * 365 + yoe / 4 - yoe / 100 + doy in
  era * 146097 + doe - 719468.


Definition digit_char (n : Z) : ascii := ascii_of_nat (48 + Z.to_nat n).

Definition digit_val (c : ascii) : option Z :=
  let n := nat_of_ascii c in
  if ((48 <=? n) && (n <=? 57))%nat then Some (Z.of_nat n - 48) else None.

Definition pad2 (n : Z) : string :=
  String (digit_char (n / 10)) (String (digit_char (n mod 10)) "").

Definition pad3 (n : Z) : string :=
  String (digit_char (n / 100)) (pad2 (n mod 100)).

Definition pad4 (n : Z) : string :=
  String (digit_char (n / 1000)) (pad3 (n mod 1000)).

Definition pad6 (n : Z) : string :=
  String (digit_char (n / 100000))
    (String (digit_char (n / 10000 mod 10)) (pad4 (n mod 10000))).

(** Years 0000 to 9999 print with four digits, the others in the
    expanded form with a sign and six digits. *)
Definition year_string (y : Z) : string :=
  if (0 <=? y) && (y <=? 9999) then pad4 y
  else (if y <? 0 then "-" else "+") +:+ pad6 (Z.abs y).

(** [new Date(t).toISOString()] for a time value [t] in milliseconds. *)
Definition toISOString (t : Z) : string :=
  let '(y, m, d) := civil_from_days (t / ms_per_day) in
  let ms := t mod ms_per_day in
  year_string y +:+ "-" +:+ pad2 m +:+ "-" +:+ pad2 d +:+ "T"
    +:+ pad2 (ms / 3600000) +:+ ":" +:+ pad2 (ms / 60000 mod 60) +:+ ":"
    +:+ pad2 (ms / 1000 mod 60) +:+ "." +:+ pad3 (ms mod 1000) +:+ "Z".

Fixpoint read_digits (n : nat) (acc : Z) (s : string) : option (Z * string) :=
  match n with
  | O => Some (acc, s)
  | S n' =>
      match s with
      | String c s' =>
          match digit_val c with
          | Some d => read_digits n' (acc * 10 + d) s'
          | None => None
          end
      | EmptyString => None
      end
  end.

Definition expect (c : ascii) (s : string) : option string :=
  match s with
  | String c' s' => if Ascii.eqb c c' then Some s' else None
  | EmptyString => None
  end.

(** The largest time value, 8.64e15 ms on either side of the epoch. *)
Definition max_time : Z := 8640000000000000.

(** The year of a time stamp: four digits, or the expanded form with a
    sign and six digits, where -000000 is not a year. *)
Definition read_year (s : string) : option (Z * string) :=
  match s with
  | String c s' =>
      if Ascii.eqb c "+" then read_digits 6 0 s'
      else if Ascii.eqb c "-" then
        '(y, s'') ← read_digits 6 0 s';
        if y =? 0 then None else Some (- y, s'')
      else read_digits 4 0 s
  | EmptyString => None
  end.

(** [Date.parse] on the format [toISOString] writes,
    YYYY-MM-DDTHH:mm:ss.sssZ with a four-digit or an expanded year;
    [None] stands for NaN.  The shorter forms of the date-time string
    format (a date alone, no milliseconds, an offset instead of Z) and
    the formats an engine accepts beyond it are read as NaN here; a
    statement that needs a NaN takes it from a value that is no time
    in any engine (a falsy stamp, a number out of range, an object). *)
Definition date_parse (s : string) : option Z :=
  '(y, s) ← read_year s;
  s ← expect "-" s;
  '(m, s) ← read_digits 2 0 s;
  s ← expect "-" s;
  '(d, s) ← read_digits 2 0 s;
  s ← expect "T" s;
  '(h, s) ← read_digits 2 0 s;
  s ← expect ":" s;
  '(mi, s) ← read_digits 2 0 s;
  s ← expect ":" s;
  '(sec, s) ← read_digits 2 0 s;
  s ← expect "." s;
  '(ms, s) ← read_digits 3 0 s;
  s ← expect "Z" s;
  match s with
  | EmptyString =>
      let days := days_from_civil y m d in
      let t := days * ms_per_day + h * 3600000 + mi * 60000 + sec * 1000 + ms in
      if bool_decide (civil_from_days days = (y, m, d))
         && (h <=? 23) && (mi <=? 59) && (sec <=? 59)
         && (Z.abs t <=? max_time)
      then Some t
      else None
  | String _ _ => None
  end.


(** The time values whose year prints with four digits. *)
Definition iso_min : Z := -62167219200000.
Definition iso_max : Z := 253402300799999.



(** * Values as the hook uses them *)

Definition truthy (v : value) : bool :=
  match v with
  | JUndefined | JNull => false
  | JBool b => b
  | JNum n => negb (n =? 0)
  | JStr s => negb (String.eqb s "")
  | JArr _ | JObj _ => true
  end.

(** [String(v)], as the Date constructor applies it to an array. *)
Fixpoint toString (v : value) : string :=
  match v with
  | JUndefined => "undefined"
  | JNull => "null"
  | JBool true => "true"
  | JBool false => "false"
  | JNum n => number_to_string n
  | JStr s => s
  | JArr l =>
      join_comma (map (fun x => match x with
                                | JUndefined | JNull => ""
                                | _ => toString x
                                end) l)
  | JObj _ => "[object Object]"
  end.

(** [new Date(v).getTime()]; [None] stands for NaN. *)
Definition Date_getTime (v : value) : option Z :=
  match v with
  | JStr s => date_parse s
  | JNum n => if Z.abs n <=? max_time then Some n else None
  | JBool b => Some (if b then 1 else 0)
  | JNull => Some 0
  | JUndefined => None
  | JArr _ | JObj _ => date_parse (toString v)
  end.

Definition index_key (i : nat) : string := number_to_string (Z.of_nat i).

Definition index_of_key (k : string) (n : nat) : option nat :=
  find (fun i => String.eqb (index_key i) k) (seq 0 n).

Fixpoint chars (s : string) : list value :=
  match s with
  | EmptyString => []
  | String c s' => JStr (String c "") :: chars s'
  end.

Definition indexed (l : list value) : obj :=
  imap (fun i x => (index_key i, x)) l.

(** Own enumerable properties, as the spread [{...v}] and [Object.assign]
    copy them. *)
Definition spread (v : value) : obj :=
  match v with
  | JObj o => o
  | JArr l => indexed l
  | JStr s => indexed (chars s)
  | _ => []
  end.

(** Exceptions are kept as their message. *)
Inductive Result (A : Type) : Type :=
| Ok (a : A)
| Throw (msg : string).
Arguments Ok {A} a.
Arguments Throw {A} msg.

(** [Object.keys(v)] *)
Definition js_keys (v : value) : Result (list string) :=
  match v with
  | JUndefined | JNull =>
      Throw "TypeError: Cannot convert undefined or null to object"
  | _ => Ok (obj_keys (spread v))
  end.

(** [v[k]] for a property name [k] *)
Definition js_get (v : value) (k : string) : Result value :=
  match v with
  | JUndefined | JNull =>
      Throw "TypeError: Cannot read properties of undefined or null"
  | _ => Ok (default JUndefined (obj_get k (spread v)))
  end.

(** [v[k] = x] in strict mode, for [k] among [Object.keys(v)] *)
Definition js_set (v : value) (k : string) (x : value) : Result value :=
  match v with
  | JObj o => Ok (JObj (obj_set k x o))
  | JArr l =>
      match index_of_key k (length l) with
      | Some i => Ok (JArr (<[i:=x]> l))
      | None => Ok (JArr l)
      end
  | JUndefined | JNull =>
      Throw "TypeError: Cannot set properties of undefined or null"
  | _ => Throw "TypeError: Cannot assign to property of a primitive"
  end.

(** * Types of the hook *)

Inductive ErrorLevel : Type := none | basic | detailed.

Record DataTransformMiddleware : Type := {
  beforeSave : option (value -> Result value);
  afterRestore : option (value -> Result value)
}.

Abbreviation FieldTransformConfig := (gmap string DataTransformMiddleware).

Module StoredFile.
Record t : Type := mk {
  fileId : Z;
  formId : string;
  fieldName : string;
  fileName : string;
  fileType : string;
  fileSize : Z;
  lastModified : Z;
  data : string;
  savedTime : string
}.
End StoredFile.

(** A browser [File]; [content] is [None] when reading it fails. *)
Module File.
Record t : Type := mk {
  name : string;
  type : string;
  size : Z;
  lastModified : Z;
  content : option string
}.
End File.

Module UploadProgress.
Record t : Type := mk {
  fieldName : string;
  total : Z;
  loaded : Z;
  percent : option Z
}.
End UploadProgress.

Record UseFormPersistenceOptions : Type := {
  fileFields : list string;
  clearOnClose : bool;
  dataExpiryMs : Z;
  errorLevel : ErrorLevel;
  onError : bool;
  transformMiddleware : DataTransformMiddleware;
  fieldTransforms : FieldTransformConfig
}.

Definition DEFAULT_DATA_EXPIRY_MS : Z := 24 * 60 * 60 * 1000.
Definition DEFAULT_ERROR_LEVEL : ErrorLevel := basic.
Definition STORAGE_PREFIX : string := "form_persistence_".

Definition default_options (fields : list string) : UseFormPersistenceOptions :=
  {| fileFields := fields;
     clearOnClose := false;
     dataExpiryMs := DEFAULT_DATA_EXPIRY_MS;
     errorLevel := DEFAULT_ERROR_LEVEL;
     onError := false;
     transformMiddleware := {| beforeSave := None; afterRestore := None |};
     fieldTransforms := ∅ |}.

(** * The browser *)

Inductive Tier : Type := Session | Durable.

Inductive Event : Type :=
| SetItem (tier : Tier) (key val : string)
| RemoveItem (tier : Tier) (key : string)
| ConsoleWarn (message : string)
| ConsoleError (message : string)
| OnError (message context : string).

Inductive Visibility : Type := visible | hidden.

Inductive Task : Type :=
| MirrorCloseMarker.

(** The object store of IndexedDB: records in key order, the key
    generator, a byte quota, and whether this page opened the database. *)
Module FileStorage.
Record t : Type := mk {
  records : list StoredFile.t;
  nextKey : Z;
  quota : option Z;
  available : bool;
  isInitialized : bool
}.
End FileStorage.

Record State : Type := mkState {
  formData : obj;
  fileData : list (string * list StoredFile.t);
  hasUnsavedChanges : bool;
  uploadProgress : option UploadProgress.t;
  error : option string;
  currentMiddleware : DataTransformMiddleware;
  currentFieldTransforms : FieldTransformConfig;
  listening : bool;
  sessionStorage : gmap string string;
  localStorage : gmap string string;
  fileStorage : FileStorage.t;
  clock : Z;
  visibilityState : Visibility;
  timers : list Task;
  trace : list Event
}.

(** Field updates of the state record. *)

Definition set_formData (x : obj) (st : State) : State :=
  mkState x (fileData st) (hasUnsavedChanges st) (uploadProgress st) (error
    st) (currentMiddleware st) (currentFieldTransforms st) (listening st)
    (sessionStorage st) (localStorage st) (fileStorage st) (clock st)
    (visibilityState st) (timers st) (trace st).

Definition set_fileData (x : list (string * list StoredFile.t)) (st : State) : State :=
  mkState (formData st) x (hasUnsavedChanges st) (uploadProgress st) (error
    st) (currentMiddleware st) (currentFieldTransforms st) (listening st)
    (sessionStorage st) (localStorage st) (fileStorage st) (clock st)
    (visibilityState st) (timers st) (trace st).

Definition set_hasUnsavedChanges (x : bool) (st : State) : State :=
  mkState (formData st) (fileData st) x (uploadProgress st) (error st)
    (currentMiddleware st) (currentFieldTransforms st) (listening st)
    (sessionStorage st) (localStorage st) (fileStorage st) (clock st)
    (visibilityState st) (timers st) (trace st).

Definition set_uploadProgress (x : option UploadProgress.t) (st : State) : State :=
  mkState (formData st) (fileData st) (hasUnsavedChanges st) x (error st)
    (currentMiddleware st) (currentFieldTransforms st) (listening st)
    (sessionStorage st) (localStorage st) (fileStorage st) (clock st)
    (visibilityState st) (timers st) (trace st).

Definition set_error (x : option string) (st : State) : State :=
  mkState (formData st) (fileData st) (hasUnsavedChanges st) (uploadProgress
    st) x (currentMiddleware st) (currentFieldTransforms st) (listening st)
    (sessionStorage st) (localStorage st) (fileStorage st) (clock st)
    (visibilityState st) (timers st) (trace st).

Definition set_currentMiddleware (x : DataTransformMiddleware) (st : State) : State :=
  mkState (formData st) (fileData st) (hasUnsavedChanges st) (uploadProgress
    st) (error st) x (currentFieldTransforms st) (listening st)
    (sessionStorage st) (localStorage st) (fileStorage st) (clock st)
    (visibilityState st) (timers st) (trace st).

Definition set_currentFieldTransforms (x : FieldTransformConfig) (st : State) : State :=
  mkState (formData st) (fileData st) (hasUnsavedChanges st) (uploadProgress
    st) (error st) (currentMiddleware st) x (listening st) (sessionStorage
    st) (localStorage st) (fileStorage st) (clock st) (visibilityState st)
    (timers st) (trace st).

Definition set_listening (x : bool) (st : State) : State :=
  mkState (formData st) (fileData st) (hasUnsavedChanges st) (uploadProgress
    st) (error st) (currentMiddleware st) (currentFieldTransforms st) x
    (sessionStorage st) (localStorage st) (fileStorage st) (clock st)
    (visibilityState st) (timers st) (trace st).

Definition set_sessionStorage (x : gmap string string) (st : State) : State :=
  mkState (formData st) (fileData st) (hasUnsavedChanges st) (uploadProgress
    st) (error st) (currentMiddleware st) (currentFieldTransforms st)
    (listening st) x (localStorage st) (fileStorage st) (clock st)
    (visibilityState st) (timers st) (trace st).

Definition set_localStorage (x : gmap string string) (st : State) : State :=
  mkState (formData st) (fileData st) (hasUnsavedChanges st) (uploadProgress
    st) (error st) (currentMiddleware st) (currentFieldTransforms st)
    (listening st) (sessionStorage st) x (fileStorage st) (clock st)
    (visibilityState st) (timers st) (trace st).

Definition set_fileStorage (x : FileStorage.t) (st : State) : State :=
  mkState (formData st) (fileData st) (hasUnsavedChanges st) (uploadProgress
    st) (error st) (currentMiddleware st) (currentFieldTransforms st)
    (listening st) (sessionStorage st) (localStorage st) x (clock st)
    (visibilityState st) (timers st) (trace st).

Definition set_clock (x : Z) (st : State) : State :=
  mkState (formData st) (fileData st) (hasUnsavedChanges st) (uploadProgress
    st) (error st) (currentMiddleware st) (currentFieldTransforms st)
    (listening st) (sessionStorage st) (localStorage st) (fileStorage st) x
    (visibilityState st) (timers st) (trace st).

Definition set_visibilityState (x : Visibility) (st : State) : State :=
  mkState (formData st) (fileData st) (hasUnsavedChanges st) (uploadProgress
    st) (error st) (currentMiddleware st) (currentFieldTransforms st)
    (listening st) (sessionStorage st) (localStorage st) (fileStorage st)
    (clock st) x (timers st) (trace st).

Definition set_timers (x : list Task) (st : State) : State :=
  mkState (formData st) (fileData st) (hasUnsavedChanges st) (uploadProgress
    st) (error st) (currentMiddleware st) (currentFieldTransforms st)
    (listening st) (sessionStorage st) (localStorage st) (fileStorage st)
    (clock st) (visibilityState st) x (trace st).

Definition set_trace (x : list Event) (st : State) : State :=
  mkState (formData st) (fileData st) (hasUnsavedChanges st) (uploadProgress
    st) (error st) (currentMiddleware st) (currentFieldTransforms st)
    (listening st) (sessionStorage st) (localStorage st) (fileStorage st)
    (clock st) (visibilityState st) (timers st) x.

(** * Computations of the hook: state passing with exceptions *)

Definition M (A : Type) : Type := State -> Result A * State.

Definition ret {A : Type} (a : A) : M A := fun st => (Ok a, st).

Definition bind {A B : Type} (m : M A) (k : A -> M B) : M B :=
  fun st =>
    match m st with
    | (Ok a, st') => k a st'
    | (Throw e, st') => (Throw e, st')
    end.

Definition throw {A : Type} (msg : string) : M A := fun st => (Throw msg, st).

Definition try_catch {A : Type} (m : M A) (handler : string -> M A) : M A :=
  fun st =>
    match m st with
    | (Ok a, st') => (Ok a, st')
    | (Throw e, st') => handler e st'
    end.

Definition gets {A : Type} (f : State -> A) : M A := fun st => (Ok (f st), st).

Definition modify (f : State -> State) : M unit := fun st => (Ok tt, f st).

Definition lift {A : Type} (r : Result A) : M A := fun st => (r, st).

Declare Scope hook_scope.
Delimit Scope hook_scope with hook.
Notation "x <- m ;; k" := (bind m (fun x => k))
  (at level 100, m at next level, right associativity) : hook_scope.
Notation "m ;; k" := (bind m (fun _ => k))
  (at level 100, right associativity) : hook_scope.
Open Scope hook_scope.

Definition when (b : bool) (m : M unit) : M unit := if b then m else ret tt.

Fixpoint for_each {A : Type} (l : list A) (body : A -> M unit) : M unit :=
  match l with
  | [] => ret tt
  | x :: l' => body x ;; for_each l' body
  end.

Definition emit (e : Event) : M unit :=
  modify (fun st => set_trace (trace st ++ [e]) st).

(** ** Storage *)

Definition sessionStorage_getItem (key : string) : M (option string) :=
  gets (fun st => sessionStorage st !! key).

Definition sessionStorage_setItem (key val : string) : M unit :=
  modify (fun st => set_sessionStorage (<[key := val]> (sessionStorage st)) st) ;;
  emit (SetItem Session key val).

Definition sessionStorage_removeItem (key : string) : M unit :=
  modify (fun st => set_sessionStorage (delete key (sessionStorage st)) st) ;;
  emit (RemoveItem Session key).

Definition localStorage_getItem (key : string) : M (option string) :=
  gets (fun st => localStorage st !! key).

Definition localStorage_setItem (key val : string) : M unit :=
  modify (fun st => set_localStorage (<[key := val]> (localStorage st)) st) ;;
  emit (SetItem Durable key val).

Definition localStorage_removeItem (key : string) : M unit :=
  modify (fun st => set_localStorage (delete key (localStorage st)) st) ;;
  emit (RemoveItem Durable key).

(** [!text] for the result of [getItem]: null or the empty string. *)
Definition no_text (t : option string) : bool :=
  match t with
  | None => true
  | Some s => String.eqb s ""
  end.

Definition Date_now : M Z := gets clock.

(** [JSON.parse], throwing on malformed text. *)
Definition parse_json (text : string) : M value :=
  match JSON_parse text with
  | Some v => ret v
  | None => throw "SyntaxError: Unexpected token in JSON"
  end.

(** ** The blob store *)

Definition with_store {A : Type}
  (f : FileStorage.t -> Result A * FileStorage.t) : M A :=
  fun st => let (r, fs) := f (fileStorage st) in (r, set_fileStorage fs st).

Definition FileStorage_init : M unit :=
  with_store (fun fs =>
    if FileStorage.isInitialized fs then (Ok tt, fs)
    else if FileStorage.available fs then
      (Ok tt, FileStorage.mk (FileStorage.records fs) (FileStorage.nextKey fs)
                (FileStorage.quota fs) (FileStorage.available fs) true)
    else (Throw "数据库初始化失败: 未知错误", fs)).

Definition matches (formId fieldName : string) (f : StoredFile.t) : bool :=
  String.eqb (StoredFile.formId f) formId
  && String.eqb (StoredFile.fieldName f) fieldName.

Definition FileStorage_getFiles (formId fieldName : string) :
  M (list StoredFile.t) :=
  with_store (fun fs =>
    if FileStorage.isInitialized fs
    then (Ok (filter (fun f => matches formId fieldName f = true)
                (FileStorage.records fs)), fs)
    else (Throw "数据库未初始化", fs)).

Definition set_records (l : list StoredFile.t) (fs : FileStorage.t) :
  FileStorage.t :=
  FileStorage.mk l (FileStorage.nextKey fs) (FileStorage.quota fs)
    (FileStorage.available fs) (FileStorage.isInitialized fs).

Definition FileStorage_clearFiles (formId : string) : M unit :=
  with_store (fun fs =>
    if FileStorage.isInitialized fs
    then (Ok tt,
          set_records
            (filter (fun f => String.eqb (StoredFile.formId f) formId = false)
               (FileStorage.records fs)) fs)
    else (Throw "数据库未初始化", fs)).

Definition used_bytes (fs : FileStorage.t) : Z :=
  foldr (fun f acc => Z.of_nat (String.length (StoredFile.data f)) + acc) 0
    (FileStorage.records fs).

Definition over_quota (fs : FileStorage.t) (payload : string) : bool :=
  match FileStorage.quota fs with
  | Some q => q <? used_bytes fs + Z.of_nat (String.length payload)
  | None => false
  end.

(** [store.delete(key)] inside a read-write transaction *)
Definition store_delete (key : Z) : M unit :=
  with_store (fun fs =>
    (Ok tt,
     set_records (filter (fun f => negb (StoredFile.fileId f =? key) = true)
                    (FileStorage.records fs)) fs)).

(** [Math.round(loaded / total * 100)], NaN when [total] is zero.  The
    quotient is rounded here as an exact rational, half up; the code
    rounds the double, which can differ by one where the product falls
    just short of a half (29 of 200 shows 14 there).  The percentage
    only reaches the progress display. *)
Definition percent_of (loaded total : Z) : option Z :=
  if total =? 0 then None else Some ((200 * loaded + total) / (2 * total)).

Definition FileStorage_saveFile (file : File.t) (formId fieldName : string)
  (onProgress : Z -> Z -> M unit) : M Z :=
  initialized <- gets (fun st => FileStorage.isInitialized (fileStorage st)) ;;
  if negb initialized then throw "数据库未初始化"
  else
    match File.content file with
    | None => throw "NotReadableError"
    | Some buffer =>
        onProgress (File.size file) (File.size file) ;;
        now <- Date_now ;;
        with_store (fun fs =>
          if over_quota fs buffer
          then (Throw "事务错误: QuotaExceededError", fs)
          else
            let key := FileStorage.nextKey fs in
            let rec := StoredFile.mk key formId fieldName (File.name file)
                         (File.type file) (File.size file)
                         (File.lastModified file) buffer (toISOString now) in
            (Ok key,
             FileStorage.mk (FileStorage.records fs ++ [rec]) (key + 1)
               (FileStorage.quota fs) (FileStorage.available fs)
               (FileStorage.isInitialized fs)))
    end.

(** * useFormPersistence *)

Section useFormPersistence.

Variable formId : string.
Variable options : UseFormPersistenceOptions.

Definition storageKey : string := STORAGE_PREFIX +:+ formId.
Definition sessionKey : string := STORAGE_PREFIX +:+ formId +:+ "_session".
Definition normalCloseKey : string :=
  STORAGE_PREFIX +:+ formId +:+ "_normal_close".

(** The state right after the hook is set up, before it is mounted. *)
Definition initial_state (initialFormData : obj)
  (session durable : gmap string string) (store : FileStorage.t)
  (now : Z) : State :=
  {| formData := initialFormData;
     fileData := map (fun field => (field, [])) (fileFields options);
     hasUnsavedChanges := false;
     uploadProgress := None;
     error := None;
     currentMiddleware := transformMiddleware options;
     currentFieldTransforms := fieldTransforms options;
     listening := false;
     sessionStorage := session;
     localStorage := durable;
     fileStorage := store;
     clock := now;
     visibilityState := visible;
     timers := [];
     trace := [] |}.

Definition handleError (message context : string) : M string :=
  let errorMessage := context +:+ ": " +:+ message in
  match errorLevel options with
  | detailed => emit (ConsoleError errorMessage)
  | basic => emit (ConsoleWarn errorMessage)
  | none => ret tt
  end ;;
  when (onError options) (emit (OnError message context)) ;;
  ret errorMessage.

(** ** The transform pipeline *)

Definition field_hook (select : DataTransformMiddleware ->
                                option (value -> Result value))
  (failure : string) (field : string) (transformedData : value) : M value :=
  fieldMiddleware <- gets (fun st => currentFieldTransforms st !! field) ;;
  match fieldMiddleware with
  | Some mw =>
      match select mw with
      | Some hook =>
          try_catch
            (old <- lift (js_get transformedData field) ;;
             new <- lift (hook old) ;;
             lift (js_set transformedData field new))
            (fun e =>
               handleError e ("字段[" +:+ field +:+ "]" +:+ failure) ;;
               ret transformedData)
      | None => ret transformedData
      end
  | None => ret transformedData
  end.

Fixpoint field_hooks (select : DataTransformMiddleware ->
                                 option (value -> Result value))
  (failure : string) (fields : list string) (transformedData : value) :
  M value :=
  match fields with
  | [] => ret transformedData
  | field :: rest =>
      d <- field_hook select failure field transformedData ;;
      field_hooks select failure rest d
  end.

Definition global_hook (select : DataTransformMiddleware ->
                                 option (value -> Result value))
  (failure : string) (transformedData : value) : M value :=
  mw <- gets currentMiddleware ;;
  match select mw with
  | Some hook =>
      try_catch (lift (hook transformedData))
        (fun e => handleError e failure ;; ret transformedData)
  | None => ret transformedData
  end.

Definition applyBeforeSaveTransform (data : value) : M value :=
  let transformedData := JObj (spread data) in
  fields <- lift (js_keys transformedData) ;;
  d <- field_hooks beforeSave "保存前转换失败" fields transformedData ;;
  global_hook beforeSave "全局保存前转换失败" d.

Definition applyAfterRestoreTransform (data : value) : M value :=
  let transformedData := JObj (spread data) in
  d <- global_hook afterRestore "全局恢复后转换失败" transformedData ;;
  fields <- lift (js_keys d) ;;
  field_hooks afterRestore "恢复后转换失败" fields d.

Definition registerTransformMiddleware (middleware : DataTransformMiddleware) :
  M unit :=
  modify (fun st =>
    let current := currentMiddleware st in
    set_currentMiddleware
      {| beforeSave := match beforeSave middleware with
                       | Some h => Some h
                       | None => beforeSave current
                       end;
         afterRestore := match afterRestore middleware with
                         | Some h => Some h
                         | None => afterRestore current
                         end |} st).

Definition registerFieldTransforms (transforms : FieldTransformConfig) :
  M unit :=
  modify (fun st =>
    set_currentFieldTransforms (transforms ∪ currentFieldTransforms st) st).

Definition getFormDataJson : M string :=
  gets (fun st => default "undefined" (JSON_stringify (JObj (formData st)))).

(** What [getFileDataJson] keeps of a stored file. *)
Definition file_summary (file : StoredFile.t) : value :=
  JObj [("fileName", JStr (StoredFile.fileName file));
        ("fileSize", JNum (StoredFile.fileSize file));
        ("fileType", JStr (StoredFile.fileType file));
        ("lastModified", JNum (StoredFile.lastModified file))].

Definition getFileDataJson : M string :=
  gets (fun st =>
    let fileDataCopy := fileData st in
    let simplifiedFileData :=
      foldl (fun acc fieldName =>
               obj_set fieldName
                 (JArr (map file_summary
                          (default [] (obj_get fieldName fileDataCopy))))
                 acc)
        [] (map fst fileDataCopy) in
    default "undefined" (JSON_stringify (JObj simplifiedFileData))).

(** ** Restoring *)

Definition isDataExpired (savedAt : value) : M bool :=
  if negb (truthy savedAt) then ret false
  else
    now <- Date_now ;;
    match Date_getTime savedAt with
    | Some savedTime => ret (dataExpiryMs options <? now - savedTime)
    | None => ret false
    end.

Definition restoreFromSessionStorage : M (value * bool) :=
  try_catch
    (savedText <- sessionStorage_getItem sessionKey ;;
     if no_text savedText then ret (JObj [], false)
     else
       parsed <- parse_json (default "" savedText) ;;
       savedAt <- lift (js_get parsed "savedAt") ;;
       expired <- isDataExpired savedAt ;;
       if expired then
         sessionStorage_removeItem sessionKey ;;
         ret (JObj [], false)
       else
         let formDataWithoutTimestamp :=
           JObj (obj_delete "savedAt" (spread parsed)) in
         transformedData <- applyAfterRestoreTransform formDataWithoutTimestamp ;;
         ret (transformedData, true))
    (fun e =>
       handleError e "从sessionStorage恢复数据" ;;
       ret (JObj [], false)).

Definition restoreFromLocalStorage : M (value * bool) :=
  try_catch
    (localStorageText <- localStorage_getItem storageKey ;;
     if no_text localStorageText then ret (JObj [], false)
     else
       parsed <- parse_json (default "" localStorageText) ;;
       savedAt <- lift (js_get parsed "savedAt") ;;
       expired <- isDataExpired savedAt ;;
       if expired then
         localStorage_removeItem storageKey ;;
         ret (JObj [], false)
       else
         let formDataWithoutTimestamp :=
           JObj (obj_delete "savedAt" (spread parsed)) in
         transformedData <- applyAfterRestoreTransform formDataWithoutTimestamp ;;
         sessionStorage_setItem sessionKey (default "" localStorageText) ;;
         ret (transformedData, true))
    (fun e =>
       handleError e "从localStorage恢复数据" ;;
       ret (JObj [], false)).

Definition set_fileData_field (field : string) (files : list StoredFile.t) :
  M unit :=
  modify (fun st => set_fileData (obj_set field files (fileData st)) st).

Definition restoreFileData (shouldRestore : bool) : M unit :=
  if negb shouldRestore then ret tt
  else
    try_catch
      (for_each (fileFields options) (fun field =>
         files <- FileStorage_getFiles formId field ;;
         set_fileData_field field files))
      (fun e => handleError e "恢复文件数据" ;; ret tt).

Definition is_data (val : value) : bool :=
  match val with
  | JNull | JUndefined => false
  | JStr s => negb (String.eqb s "")
  | _ => true
  end.

(** The body of [restoreData].  Where it assigns to the form, the
    deep watcher of the hook schedules a text save, which runs while
    [restoreFileData] is awaited; that save is a separate operation,
    [onFormMutation] and [saveTextData], and is not folded in here.
    It writes the tiers, the flag of unsaved changes and the error,
    not the form. *)
Definition restoreData : M unit :=
  try_catch
    (session <- sessionStorage_getItem sessionKey ;;
     let sessionExists := bool_decide (is_Some session) in
     marker <- localStorage_getItem normalCloseKey ;;
     let isNormalClose := bool_decide (marker = Some "true") in
     durable <- localStorage_getItem storageKey ;;
     let hasLocalStorageData := bool_decide (is_Some durable) in
     let isCrashRecovery :=
       negb sessionExists && hasLocalStorageData && negb isNormalClose in
     sessionResult <- restoreFromSessionStorage ;;
     restored <-
       (if snd sessionResult then ret (fst sessionResult, false)
        else if isCrashRecovery then
          localStorageResult <- restoreFromLocalStorage ;;
          if snd localStorageResult
          then ret (fst localStorageResult, true)
          else ret (JObj [], false)
        else ret (JObj [], false)) ;;
     let formOnly := fst restored in
     let isFromLocalStorage := snd restored in
     keys <- lift (js_keys formOnly) ;;
     when (0 <? length keys)%nat
       (modify (fun st =>
          set_formData (obj_assign (formData st) (spread formOnly)) st)) ;;
     shouldRestoreFiles <-
       (if sessionExists || isFromLocalStorage then ret true
        else if negb isNormalClose then
          again <- localStorage_getItem storageKey ;;
          ret (bool_decide (is_Some again))
        else ret false) ;;
     restoreFileData shouldRestoreFiles ;;
     modify (fun st =>
       let hasData := existsb is_data (obj_values (formData st)) in
       let hasFiles :=
         existsb (fun files => (0 <? length files)%nat)
           (map snd (fileData st)) in
       set_error None (set_hasUnsavedChanges (hasData || hasFiles) st)))
    (fun e =>
       errorMessage <- handleError e "恢复数据" ;;
       modify (fun st =>
         set_hasUnsavedChanges false (set_error (Some errorMessage) st))).

Definition clearError : M unit := modify (set_error None).

(** ** Saving *)

Definition saveTextData : M unit :=
  try_catch
    (data <- gets formData ;;
     transformedFormData <- applyBeforeSaveTransform (JObj data) ;;
     now <- Date_now ;;
     let dataWithTimestamp :=
       JObj (obj_set "savedAt" (JStr (toISOString now))
               (spread transformedFormData)) in
     let dataString := default "undefined" (JSON_stringify dataWithTimestamp) in
     sessionStorage_setItem sessionKey dataString ;;
     localStorage_setItem storageKey dataString ;;
     modify (fun st => set_error None (set_hasUnsavedChanges true st)))
    (fun e =>
       errorMessage <- handleError e "保存文本数据" ;;
       modify (set_error (Some errorMessage))).

(** The deep watcher on the form: a mutation, then the save it triggers. *)
Definition onFormMutation (field : string) (val : value) : M unit :=
  modify (fun st => set_formData (obj_set field val (formData st)) st) ;;
  saveTextData.

Definition deleteOldFiles (fieldName : string) : M unit :=
  try_catch
    (oldFiles <- FileStorage_getFiles formId fieldName ;;
     if (length oldFiles =? 0)%nat then ret tt
     else
       initialized <- gets (fun st => FileStorage.isInitialized (fileStorage st)) ;;
       if negb initialized then throw "数据库未初始化"
       else for_each oldFiles (fun oldFile =>
              store_delete (StoredFile.fileId oldFile)))
    (fun e => throw ("删除旧文件失败: " +:+ e)).

Definition saveSingleFile (file : File.t) (fieldName : string)
  (totalSize loadedSize : Z) : M StoredFile.t :=
  fileId <- FileStorage_saveFile file formId fieldName
              (fun loaded _ =>
                 let currentLoaded := loadedSize + loaded in
                 modify (set_uploadProgress
                   (Some (UploadProgress.mk fieldName totalSize currentLoaded
                            (percent_of currentLoaded totalSize))))) ;;
  savedFiles <- FileStorage_getFiles formId fieldName ;;
  match find (fun f => StoredFile.fileId f =? fileId) savedFiles with
  | Some savedFile => ret savedFile
  | None => throw ("无法找到刚保存的文件: " +:+ number_to_string fileId)
  end.

Fixpoint save_each (files : list File.t) (fieldName : string)
  (totalSize loadedSize : Z) (newFiles : list StoredFile.t) :
  M (list StoredFile.t) :=
  match files with
  | [] => ret newFiles
  | file :: rest =>
      savedFile <- saveSingleFile file fieldName totalSize loadedSize ;;
      save_each rest fieldName totalSize (loadedSize + File.size file)
        (newFiles ++ [savedFile])
  end.

Definition saveFiles (fieldName : string) (files : list File.t) : M unit :=
  try_catch
    (modify (set_error None) ;;
     modify (set_uploadProgress None) ;;
     (if String.eqb fieldName "" || (length files =? 0)%nat
      then throw "无效的文件保存参数" else ret tt) ;;
     deleteOldFiles fieldName ;;
     let totalSize := foldl (fun sum file => sum + File.size file) 0 files in
     newFiles <- save_each files fieldName totalSize 0 [] ;;
     set_fileData_field fieldName newFiles ;;
     modify (set_hasUnsavedChanges true) ;;
     modify (set_uploadProgress None))
    (fun e =>
       errorMessage <- handleError e "保存文件" ;;
       modify (set_error (Some errorMessage)) ;;
       modify (set_uploadProgress None) ;;
       throw e).

(** ** Leaving, closing, clearing *)

Definition handlePageLeave : M unit :=
  unsaved <- gets hasUnsavedChanges ;;
  when unsaved saveTextData.

(** Whether the [beforeunload] event gets [preventDefault]. *)
Definition handleBeforeUnload : M bool :=
  unsaved <- gets hasUnsavedChanges ;;
  ret (unsaved && negb (clearOnClose options)).

Definition handlePageClose : M unit :=
  unsaved <- gets hasUnsavedChanges ;;
  when unsaved handlePageLeave ;;
  visibility <- gets visibilityState ;;
  match visibility with
  | hidden =>
      sessionStorage_setItem normalCloseKey "true" ;;
      modify (fun st => set_timers (timers st ++ [MirrorCloseMarker]) st)
  | visible => ret tt
  end.

(** The callback handed to [setTimeout] by [handlePageClose]. *)
Definition run_task (task : Task) : M unit :=
  match task with
  | MirrorCloseMarker =>
      marker <- sessionStorage_getItem normalCloseKey ;;
      when (negb (no_text marker)) (localStorage_setItem normalCloseKey "true")
  end.

Definition run_timers : M unit :=
  tasks <- gets timers ;;
  modify (set_timers []) ;;
  for_each tasks run_task.

Definition reset_fileData : M unit :=
  for_each (fileFields options) (fun field => set_fileData_field field []).

Definition clearStorage : M unit :=
  try_catch
    (sessionStorage_removeItem sessionKey ;;
     localStorage_removeItem storageKey ;;
     localStorage_removeItem normalCloseKey ;;
     FileStorage_clearFiles formId ;;
     modify (fun st => set_error None (set_hasUnsavedChanges false st)) ;;
     reset_fileData)
    (fun e =>
       errorMessage <- handleError e "清理存储" ;;
       modify (set_error (Some errorMessage))).

Definition cleanNormalCloseData : M unit :=
  if clearOnClose options then
    try_catch
      (sessionStorage_removeItem sessionKey ;;
       localStorage_removeItem storageKey ;;
       localStorage_removeItem normalCloseKey ;;
       FileStorage_clearFiles formId ;;
       reset_fileData)
      (fun e => handleError e "清理正常关闭数据" ;; ret tt)
  else ret tt.

Definition onMounted : M unit :=
  try_catch
    (FileStorage_init ;;
     session <- sessionStorage_getItem sessionKey ;;
     let sessionExists := bool_decide (is_Some session) in
     marker <- localStorage_getItem normalCloseKey ;;
     let isNormalClose := bool_decide (marker = Some "true") in
     (if negb sessionExists && isNormalClose && clearOnClose options then
        localStorage_removeItem normalCloseKey ;;
        cleanNormalCloseData
      else if negb sessionExists && isNormalClose then
        localStorage_removeItem normalCloseKey
      else ret tt) ;;
     restoreData ;;
     when (negb sessionExists) (localStorage_removeItem normalCloseKey) ;;
     modify (set_listening true))
    (fun e =>
       errorMessage <- handleError e "初始化表单持久化" ;;
       modify (set_error (Some errorMessage))).

Definition onUnmounted : M unit := modify (set_listening false).

End useFormPersistence.

(** * Facts *)

Lemma value_ind' (P : value -> Prop)
  (Hu : P JUndefined) (Hn : P JNull) (Hb : forall b, P (JBool b))
  (Hz : forall n, P (JNum n)) (Hs : forall s, P (JStr s))
  (Ha : forall l, Forall P l -> P (JArr l))
  (Ho : forall o, Forall (fun kv => P (snd kv)) o -> P (JObj o)) :
  forall v, P v.
Proof.
  fix IH 1. intros [ | | b | n | s | l | o].
  - exact Hu.
  - exact Hn.
  - apply Hb.
  - apply Hz.
  - apply Hs.
  - apply Ha. induction l as [|x l IHl]; constructor; [apply IH | exact IHl].
  - apply Ho. induction o as [|[k x] o IHo]; constructor; [apply IH | exact IHo].
Qed.

Lemma parse_chars_escape_char (c : ascii) (tail : string) :
  parse_chars (escape_char c +:+ tail) = prepend (String c "") (parse_chars tail).
Proof.
  destruct c as [[] [] [] [] [] [] [] []]; reflexivity.
Qed.

Lemma app_cons (c : ascii) (s t : string) : String c s +:+ t = String c (s +:+ t).
Proof. reflexivity. Qed.

Lemma app_nil_s (t : string) : "" +:+ t = t.
Proof. reflexivity. Qed.

Lemma app_assoc_s (a b c : string) : (a +:+ b) +:+ c = a +:+ (b +:+ c).
Proof. induction a as [|x a IH]; [reflexivity|]. rewrite !app_cons, IH. reflexivity. Qed.

Lemma parse_chars_escape (s rest : string) :
  parse_chars (escape s +:+ String dquote rest) = Some (s, rest).
Proof.
  induction s as [|c s IH].
  - cbn. reflexivity.
  - cbn [escape]. rewrite app_assoc_s, parse_chars_escape_char, IH. reflexivity.
Qed.

Lemma parse_chars_quote (s rest : string) :
  parse_chars (escape s +:+ String dquote "" +:+ rest) = Some (s, rest).
Proof. apply parse_chars_escape. Qed.

(** *** Numbers *)

Definition digit_free (rest : string) : Prop :=
  match rest with
  | String c _ => digit_of c = None
  | EmptyString => True
  end.

Lemma scan_uint_stop (rest : string) :
  digit_free rest -> scan_uint rest = (Decimal.Nil, rest).
Proof.
  destruct rest as [|c r]; [reflexivity|]. cbn. intros ->. reflexivity.
Qed.

Lemma scan_uint_print (d : Decimal.uint) (rest : string) :
  digit_free rest ->
  scan_uint (NilEmpty.string_of_uint d +:+ rest) = (d, rest).
Proof.
  intros Hr. induction d; cbn [NilEmpty.string_of_uint];
    rewrite ?app_cons, ?app_nil_s;
    [apply scan_uint_stop; exact Hr | cbn [scan_uint digit_of]; rewrite IHd; reflexivity ..].
Qed.

Lemma to_uint_unorm (p : positive) :
  Decimal.unorm (Pos.to_uint p) = Pos.to_uint p.
Proof.
  rewrite <- (DecimalN.Unsigned.to_of (Pos.to_uint p)).
  unfold N.of_uint. rewrite DecimalPos.Unsigned.of_to. reflexivity.
Qed.

Lemma to_uint_digits_ok (p : positive) : bad_digits (Pos.to_uint p) = false.
Proof.
  pose proof (to_uint_unorm p) as Hn.
  pose proof (DecimalPos.Unsigned.to_uint_nonnil p) as Hnil.
  destruct (Pos.to_uint p) as [|d| | | | | | | | | ] eqn:E; try reflexivity; try congruence.
  destruct d; try reflexivity; exfalso; cbn in Hn; try discriminate.
  unfold Decimal.unorm in Hn. cbn [Decimal.nzhead] in Hn.
  destruct (Decimal.nzhead d) as [|u| | | | | | | | | ] eqn:E2; try discriminate.
  exact (DecimalFacts.nzhead_nonzero d u E2).
Qed.

Lemma of_uint_to_uint (p : positive) : Z.of_uint (Pos.to_uint p) = Z.pos p.
Proof. exact (DecimalZ.of_to (Z.pos p)). Qed.

Definition number_stop (rest : string) : Prop :=
  digit_free rest /\ number_continues rest = false.

Lemma parse_number_print (n : Z) (rest : string) :
  number_stop rest ->
  parse_number (number_to_string n +:+ rest) = Some (JNum n, rest).
Proof.
  intros [Hd Hc]. unfold number_to_string.
  destruct n as [|p|p]; cbn [Z.to_int NilZero.string_of_int].
  - change (NilZero.string_of_uint (Decimal.D0 Decimal.Nil) +:+ rest)
      with (String "0" rest).
    unfold parse_number. cbn [scan_uint digit_of].
    rewrite (scan_uint_stop rest Hd). cbn [bad_digits orb]. rewrite Hc. reflexivity.
  - unfold NilZero.string_of_uint.
    pose proof (to_uint_digits_ok p) as Hok.
    pose proof (of_uint_to_uint p) as Hv.
    assert (Hs : exists c t, NilEmpty.string_of_uint (Pos.to_uint p) = String c t /\ c <> "-"%char).
    { destruct (Pos.to_uint p); try discriminate; cbn; eexists _, _; split; try reflexivity; discriminate. }
    destruct Hs as (c & t & Es & Hc').
    assert (Ep : match Pos.to_uint p with Decimal.Nil => "0" | _ => NilEmpty.string_of_uint (Pos.to_uint p) end
                 = NilEmpty.string_of_uint (Pos.to_uint p)).
    { destruct (Pos.to_uint p); try reflexivity; discriminate. }
    rewrite Ep. unfold parse_number.
    assert (En : match NilEmpty.string_of_uint (Pos.to_uint p) +:+ rest with
                 | String "-"%char s' => (true, s')
                 | _ => (false, NilEmpty.string_of_uint (Pos.to_uint p) +:+ rest)
                 end = (false, NilEmpty.string_of_uint (Pos.to_uint p) +:+ rest)).
    { rewrite Es, app_cons.
      destruct c as [[] [] [] [] [] [] [] []]; try reflexivity. congruence. }
    rewrite En, scan_uint_print by exact Hd.
    rewrite Hok, Hc, Hv. reflexivity.
  - unfold NilZero.string_of_uint.
    pose proof (to_uint_digits_ok p) as Hok.
    pose proof (of_uint_to_uint p) as Hv.
    assert (Ep : match Pos.to_uint p with Decimal.Nil => "0" | _ => NilEmpty.string_of_uint (Pos.to_uint p) end
                 = NilEmpty.string_of_uint (Pos.to_uint p)).
    { destruct (Pos.to_uint p); try reflexivity; discriminate. }
    rewrite Ep, app_cons. unfold parse_number.
    rewrite scan_uint_print by exact Hd.
    rewrite Hok, Hc, Hv. reflexivity.
Qed.

(** *** Values *)

Definition ser_or_null (v : value) : string := default "null" (ser v).

Definition member (kv : string * value) : string :=
  quote (fst kv) +:+ ":" +:+ ser_or_null (snd kv).

Fixpoint pure (v : value) : bool :=
  match v with
  | JUndefined => false
  | JArr l => forallb pure l
  | JObj o => forallb (fun kv => pure (snd kv)) o
  | _ => true
  end.

Fixpoint wf_value (v : value) : bool :=
  match v with
  | JArr l => forallb wf_value l
  | JObj o =>
      bool_decide (NoDup (map fst o)) && forallb (fun kv => wf_value (snd kv)) o
  | _ => true
  end.

(** Every number inside is an integer a double holds exactly
    (magnitude up to 2^53). *)
Fixpoint safe_numbers (v : value) : bool :=
  match v with
  | JNum n => Z.abs n <=? 2 ^ 53
  | JArr l => forallb safe_numbers l
  | JObj o => forallb (fun kv => safe_numbers (snd kv)) o
  | _ => true
  end.

Fixpoint size (v : value) : nat :=
  match v with
  | JArr l => S (list_sum (map (fun x => S (size x)) l))
  | JObj o => S (list_sum (map (fun kv => S (size (snd kv))) o))
  | _ => 1
  end.

Definition follow_ok (rest : string) : Prop :=
  match rest with
  | EmptyString => True
  | String c _ => c = ","%char \/ c = "]"%char \/ c = "}"%char
  end.

Definition head_ok (s : string) : Prop :=
  match s with
  | String c _ =>
      is_ws c = false /\ c <> "]"%char /\ c <> "}"%char /\ c <> ","%char
  | EmptyString => False
  end.

Lemma follow_ok_punct (t : string) :
  follow_ok ("," +:+ t) /\ follow_ok ("]" +:+ t) /\ follow_ok ("}" +:+ t).
Proof. rewrite !app_cons. cbn. auto. Qed.

Lemma follow_ok_stop (rest : string) : follow_ok rest -> number_stop rest.
Proof.
  destruct rest as [|c r]; [split; reflexivity|].
  intros [-> | [-> | ->]]; split; reflexivity.
Qed.

Lemma head_ok_app (s t : string) : head_ok s -> head_ok (s +:+ t).
Proof. destruct s; [intros []|]. rewrite app_cons. exact id. Qed.

Lemma skip_ws_head (s : string) : head_ok s -> skip_ws s = s.
Proof. destruct s as [|c r]; [intros []|]. intros [H _]. cbn. rewrite H. reflexivity. Qed.

Lemma head_ok_number (n : Z) : head_ok (number_to_string n).
Proof.
  unfold number_to_string. destruct n as [|p|p]; cbn [Z.to_int NilZero.string_of_int].
  - cbn. repeat split; discriminate.
  - unfold NilZero.string_of_uint.
    pose proof (DecimalPos.Unsigned.to_uint_nonnil p).
    destruct (Pos.to_uint p); try congruence; cbn; repeat split; discriminate.
  - cbn. repeat split; discriminate.
Qed.

Lemma head_ok_ser (v : value) : head_ok (ser_or_null v).
Proof.
  unfold ser_or_null. destruct v as [ | | [] | n | s | l | o]; cbn [ser default];
    try (cbn; repeat split; discriminate).
  apply head_ok_number.
Qed.

Lemma ser_pure (v : value) : pure v = true -> ser v = Some (ser_or_null v).
Proof. unfold ser_or_null. destruct v as [ | | [] | | | | ]; try reflexivity. discriminate. Qed.

Lemma ser_arr (l : list value) :
  ser_or_null (JArr l) = "[" +:+ join_comma (map ser_or_null l) +:+ "]".
Proof. reflexivity. Qed.

Lemma members_pure (o : obj) :
  forallb (fun kv => pure (snd kv)) o = true ->
  omap (fun kv => match ser (snd kv) with
                  | Some s => Some (quote (fst kv) +:+ ":" +:+ s)
                  | None => None
                  end) o = map member o.
Proof.
  induction o as [|[k x] o IH]; [reflexivity|].
  cbn [forallb snd]. intros [Hx Ho]%andb_true_iff.
  cbn [omap list_omap map]. cbn [snd fst]. rewrite (ser_pure x Hx). cbn [fst snd].
  rewrite IH by exact Ho. reflexivity.
Qed.

Lemma ser_obj (o : obj) :
  forallb (fun kv => pure (snd kv)) o = true ->
  ser_or_null (JObj o) = "{" +:+ join_comma (map member o) +:+ "}".
Proof.
  intros H. unfold ser_or_null. cbn [ser default]. rewrite members_pure by exact H.
  reflexivity.
Qed.

Lemma join_comma_cons2 (a b : string) (l : list string) :
  join_comma (a :: b :: l) = a +:+ "," +:+ join_comma (b :: l).
Proof. reflexivity. Qed.

Lemma parse_value_arr (fuel : nat) (s : string) :
  head_ok s ->
  parse_value (S fuel) (String "[" s) =
    match parse_elems fuel s with
    | Some (l, rest) => Some (JArr l, rest)
    | None => None
    end.
Proof.
  intros H. pose proof (skip_ws_head s H) as Hs.
  cbn [parse_value]. change (Ascii.eqb "[" dquote) with false. cbv iota.
  rewrite Hs. destruct s as [|c r]; [destruct H|].
  destruct H as (_ & H1 & _).
  destruct c as [[] [] [] [] [] [] [] []]; try reflexivity. congruence.
Qed.

Lemma parse_value_obj (fuel : nat) (s : string) :
  head_ok s ->
  parse_value (S fuel) (String "{" s) =
    match parse_members fuel [] s with
    | Some (o, rest) => Some (JObj o, rest)
    | None => None
    end.
Proof.
  intros H. pose proof (skip_ws_head s H) as Hs.
  cbn [parse_value]. change (Ascii.eqb "{" dquote) with false. cbv iota.
  rewrite Hs. destruct s as [|c r]; [destruct H|].
  destruct H as (_ & _ & H1 & _).
  destruct c as [[] [] [] [] [] [] [] []]; try reflexivity. congruence.
Qed.

Lemma parse_elems_more (fuel : nat) (s r' : string) (v : value) :
  parse_value fuel s = Some (v, String "," r') ->
  parse_elems (S fuel) s =
    match parse_elems fuel (skip_ws r') with
    | Some (vs, r'') => Some (v :: vs, r'')
    | None => None
    end.
Proof. intros H. cbn [parse_elems]. rewrite H. reflexivity. Qed.

Lemma parse_elems_last (fuel : nat) (s r' : string) (v : value) :
  parse_value fuel s = Some (v, String "]" r') ->
  parse_elems (S fuel) s = Some ([v], r').
Proof. intros H. cbn [parse_elems]. rewrite H. reflexivity. Qed.

Lemma parse_members_step (fuel : nat) (acc : obj) (k : string) (s : string) :
  parse_members (S fuel) acc (quote k +:+ ":" +:+ s) =
    match parse_value fuel (skip_ws s) with
    | Some (v, r2) =>
        match skip_ws r2 with
        | String ","%char r3 => parse_members fuel (obj_set k v acc) (skip_ws r3)
        | String "}"%char r3 => Some (obj_set k v acc, r3)
        | _ => None
        end
    | None => None
    end.
Proof.
  unfold quote. rewrite app_cons. cbn [parse_members].
  change (Ascii.eqb dquote dquote) with true. cbv iota.
  rewrite app_assoc_s, app_cons, app_nil_s, parse_chars_escape.
  rewrite app_cons, app_nil_s. reflexivity.
Qed.

Lemma obj_set_fresh (k : string) (v : value) (acc : obj) :
  k ∉ map fst acc -> obj_set k v acc = acc ++ [(k, v)].
Proof.
  induction acc as [|[k' v'] acc IH]; [reflexivity|].
  cbn [map fst]. intros H. apply not_elem_of_cons in H as [Hne Hin].
  cbn [obj_set]. destruct (String.eqb_spec k k'); [congruence|].
  rewrite IH by exact Hin. reflexivity.
Qed.

Lemma list_sum_cons (a : nat) (l : list nat) :
  list_sum (a :: l) = (a + list_sum l)%nat.
Proof. reflexivity. Qed.

Section Roundtrip.

Let good (w : value) : Prop :=
  pure w = true -> wf_value w = true ->
  forall fuel rest, (size w <= fuel)%nat -> follow_ok rest ->
    parse_value fuel (ser_or_null w +:+ rest) = Some (w, rest).

Lemma parse_elems_print (l : list value) :
  Forall good l -> l <> [] ->
  forallb pure l = true -> forallb wf_value l = true ->
  forall fuel rest,
    (list_sum (map (fun x => S (size x)) l) <= fuel)%nat ->
    parse_elems fuel (join_comma (map ser_or_null l) +:+ "]" +:+ rest)
    = Some (l, rest).
Proof.
  induction 1 as [|x l Hx Hl IH]; [congruence|]. intros _.
  cbn [forallb].
  intros [Px Pl]%andb_true_iff [Wx Wl]%andb_true_iff fuel rest Hf.
  cbn [map] in Hf. rewrite list_sum_cons in Hf.
  destruct fuel as [|fuel]; [cbn in Hf; lia|].
  destruct l as [|y l].
  - cbn [map join_comma]. apply parse_elems_last.
    rewrite app_cons, app_nil_s. apply Hx; auto.
    + cbn in Hf. lia.
    + cbn. auto.
  - change (map ser_or_null (x :: y :: l))
      with (ser_or_null x :: ser_or_null y :: map ser_or_null l).
    rewrite join_comma_cons2, !app_assoc_s, app_cons, app_nil_s.
    erewrite parse_elems_more; cycle 1.
    { apply Hx; auto.
      - lia.
      - cbn. auto. }
    rewrite skip_ws_head.
    + change (ser_or_null y :: map ser_or_null l) with (map ser_or_null (y :: l)).
      rewrite (IH ltac:(congruence) Pl Wl fuel rest ltac:(lia)). reflexivity.
    + cbn [join_comma]. destruct (map ser_or_null l);
        rewrite ?app_assoc_s; apply head_ok_app, head_ok_ser.
Qed.

Lemma head_ok_member (kv : string * value) (t : string) : head_ok (member kv +:+ t).
Proof.
  unfold member, quote. rewrite !app_cons. cbn. repeat split; discriminate.
Qed.

Lemma parse_members_print (o : obj) :
  Forall (fun kv => good (snd kv)) o -> o <> [] ->
  forallb (fun kv => pure (snd kv)) o = true ->
  forallb (fun kv => wf_value (snd kv)) o = true ->
  forall acc fuel rest,
    NoDup (map fst acc ++ map fst o) ->
    (list_sum (map (fun kv => S (size (snd kv))) o) <= fuel)%nat ->
    parse_members fuel acc (join_comma (map member o) +:+ "}" +:+ rest)
    = Some (acc ++ o, rest).
Proof.
  induction 1 as [|[k x] o Hx Ho IH]; [congruence|]. intros _.
  cbn [forallb fst snd].
  intros [Px Po]%andb_true_iff [Wx Wo]%andb_true_iff acc fuel rest Hnd Hf.
  cbn [map fst snd] in Hf, Hnd. rewrite list_sum_cons in Hf.
  cbn [snd] in Hx.
  assert (Hk : k ∉ map fst acc).
  { apply NoDup_app in Hnd as (_ & Hd & _). intros Hin. apply (Hd k Hin). left. }
  assert (Hnd' : NoDup (map fst (acc ++ [(k, x)]) ++ map fst o)).
  { rewrite map_app. cbn [map fst]. rewrite <- app_assoc. exact Hnd. }
  destruct fuel as [|fuel]; [cbn in Hf; lia|].
  destruct o as [|[k' y] o].
  - cbn [map join_comma]. unfold member at 1. cbn [fst snd].
    rewrite !app_assoc_s, parse_members_step.
    rewrite skip_ws_head by apply head_ok_app, head_ok_ser.
    rewrite Hx; auto.
    + rewrite app_cons, app_nil_s. cbn [skip_ws is_ws].
      rewrite obj_set_fresh by exact Hk. reflexivity.
    + cbn in Hf. lia.
    + apply follow_ok_punct.
  - change (map member ((k, x) :: (k', y) :: o))
      with (member (k, x) :: member (k', y) :: map member o).
    rewrite join_comma_cons2. unfold member at 1. cbn [fst snd].
    rewrite !app_assoc_s, parse_members_step.
    rewrite skip_ws_head by apply head_ok_app, head_ok_ser.
    rewrite Hx; auto; cycle 1.
    { lia. }
    { apply follow_ok_punct. }
    rewrite app_cons, app_nil_s. cbn [skip_ws is_ws].
    rewrite obj_set_fresh by exact Hk.
    rewrite skip_ws_head; cycle 1.
    { cbn [join_comma]. destruct (map member o);
        rewrite ?app_assoc_s; apply head_ok_member. }
    change (member (k', y) :: map member o) with (map member ((k', y) :: o)).
    rewrite (IH ltac:(congruence) Po Wo (acc ++ [(k, x)]) fuel rest Hnd' ltac:(lia)).
    rewrite <- app_assoc. reflexivity.
Qed.

Lemma parse_value_print_good (w : value) : good w.
Proof.
  induction w as [ | | b | n | s | l IH | o IH] using value_ind';
    intros Hp Hw fuel rest Hf Hr.
  - discriminate.
  - destruct fuel; [cbn in Hf; lia|]. destruct rest; reflexivity.
  - destruct fuel; [cbn in Hf; lia|]. destruct b; destruct rest; reflexivity.
  - destruct fuel; [cbn in Hf; lia|].
    change (ser_or_null (JNum n)) with (number_to_string n).
    pose proof (parse_number_print n rest (follow_ok_stop rest Hr)) as Hn.
    pose proof (head_ok_number n) as Hh.
    destruct (number_to_string n) as [|c t] eqn:E; [destruct Hh|].
    rewrite app_cons in *. cbn [parse_value].
    revert Hn. unfold parse_number.
    destruct c as [[] [] [] [] [] [] [] []];
      try exact (fun H => H); cbn; try discriminate.
    all: try (destruct (scan_uint (t +:+ rest)) as [d r]; cbn; discriminate).
  - destruct fuel; [cbn in Hf; lia|].
    change (ser_or_null (JStr s)) with (quote s). unfold quote.
    rewrite app_cons. cbn [parse_value].
    change (Ascii.eqb dquote dquote) with true. cbv iota.
    rewrite app_assoc_s, app_cons, app_nil_s, parse_chars_escape. reflexivity.
  - cbn [pure wf_value size] in Hp, Hw, Hf.
    destruct fuel; [lia|].
    rewrite ser_arr, !app_assoc_s, (app_cons "[" ""), app_nil_s.
    destruct l as [|x l].
    + reflexivity.
    + rewrite parse_value_arr.
      * apply andb_true_iff in Hp as Hp'. apply andb_true_iff in Hw as Hw'.
        rewrite (parse_elems_print (x :: l) IH ltac:(congruence) Hp Hw fuel rest ltac:(lia)).
        reflexivity.
      * cbn [map join_comma]. destruct (map ser_or_null l);
          rewrite ?app_assoc_s; apply head_ok_app, head_ok_ser.
  - cbn [pure wf_value size] in Hp, Hw, Hf.
    apply andb_true_iff in Hw as [Hnd Hw]. apply bool_decide_eq_true in Hnd.
    destruct fuel; [lia|].
    rewrite ser_obj by exact Hp. rewrite !app_assoc_s, (app_cons "{" ""), app_nil_s.
    destruct o as [|kv o].
    + reflexivity.
    + rewrite parse_value_obj.
      * rewrite (parse_members_print (kv :: o) IH ltac:(congruence) Hp Hw [] fuel rest Hnd ltac:(lia)).
        reflexivity.
      * cbn [map join_comma]. destruct (map member o);
          rewrite ?app_assoc_s; apply head_ok_member.
Qed.

End Roundtrip.

Lemma length_app_s (a b : string) :
  String.length (a +:+ b) = (String.length a + String.length b)%nat.
Proof. induction a as [|c a IH]; [reflexivity|]. rewrite app_cons. cbn. rewrite IH. reflexivity. Qed.

Lemma length_head_ok (s : string) : head_ok s -> (1 <= String.length s)%nat.
Proof. destruct s; [intros []|]. cbn. lia. Qed.

Lemma size_join (A : Type) (f : A -> nat) (g : A -> string) (l : list A) :
  Forall (fun x => (f x <= 2 * String.length (g x))%nat) l ->
  (list_sum (map (fun x => S (f x)) l)
   <= 2 * String.length (join_comma (map g l)) + 2)%nat.
Proof.
  induction 1 as [|x l Hx Hl IH]; [cbn; lia|].
  cbn [map]. rewrite list_sum_cons.
  destruct l as [|y l].
  - cbn [map join_comma list_sum]. cbn. lia.
  - cbn [map] in *. rewrite join_comma_cons2, !length_app_s.
    change (String.length ",") with 1%nat. lia.
Qed.

Lemma size_le_length (w : value) :
  pure w = true -> (size w <= 2 * String.length (ser_or_null w))%nat.
Proof.
  induction w as [ | | b | n | s | l IH | o IH] using value_ind'; intros Hp.
  - discriminate.
  - cbn. lia.
  - destruct b; cbn; lia.
  - pose proof (length_head_ok _ (head_ok_number n)).
    change (ser_or_null (JNum n)) with (number_to_string n). cbn [size]. lia.
  - change (ser_or_null (JStr s)) with (quote s). unfold quote. cbn [size String.length]. lia.
  - cbn [pure size] in *. rewrite ser_arr, !length_app_s.
    change (String.length "[") with 1%nat. change (String.length "]") with 1%nat.
    assert (H : Forall (fun x => (size x <= 2 * String.length (ser_or_null x))%nat) l).
    { rewrite forallb_forall in Hp. rewrite Forall_forall in *.
      intros x Hx. apply IH; [exact Hx|]. apply Hp. apply list_elem_of_In. exact Hx. }
    pose proof (size_join _ size ser_or_null l H). lia.
  - cbn [pure size] in *. rewrite ser_obj by exact Hp. rewrite !length_app_s.
    change (String.length "{") with 1%nat. change (String.length "}") with 1%nat.
    assert (H : Forall (fun kv => (size (snd kv) <= 2 * String.length (member kv))%nat) o).
    { rewrite forallb_forall in Hp. rewrite Forall_forall in *.
      intros x Hx. unfold member. rewrite !length_app_s.
      specialize (IH x Hx (Hp x (proj1 (list_elem_of_In _ _) Hx))). lia. }
    pose proof (size_join _ (fun kv => size (snd kv)) member o H). lia.
Qed.

Lemma app_nil_r_s (s : string) : s +:+ "" = s.
Proof. induction s as [|c s IH]; [reflexivity|]. rewrite app_cons, IH. reflexivity. Qed.

(** Parsing the text of a JSON value gives the value back. *)
Lemma JSON_parse_print (w : value) :
  pure w = true -> wf_value w = true ->
  JSON_parse (ser_or_null w) = Some w.
Proof.
  intros Hp Hw. unfold JSON_parse.
  rewrite skip_ws_head by apply head_ok_ser.
  pose proof (parse_value_print_good w Hp Hw
                (2 * String.length (ser_or_null w) + 2)%nat "") as H.
  rewrite app_nil_r_s in H. rewrite H.
  - reflexivity.
  - pose proof (size_le_length w Hp). lia.
  - exact I.
Qed.

(** What [JSON.stringify] keeps of a value: [undefined] becomes [null]
    inside an array, and a property holding [undefined] is left out. *)
Fixpoint json_image (v : value) : value :=
  match v with
  | JArr l =>
      JArr (map (fun x => match x with
                          | JUndefined => JNull
                          | _ => json_image x
                          end) l)
  | JObj o =>
      JObj (omap (fun kv => match snd kv with
                            | JUndefined => None
                            | _ => Some (fst kv, json_image (snd kv))
                            end) o)
  | _ => v
  end.

Definition elem_image (x : value) : value :=
  match x with JUndefined => JNull | _ => json_image x end.

Definition prop_image (kv : string * value) : option (string * value) :=
  match snd kv with JUndefined => None | _ => Some (fst kv, json_image (snd kv)) end.

Lemma undefined_dec (x : value) : {x = JUndefined} + {x <> JUndefined}.
Proof. destruct x; (left; reflexivity) || (right; discriminate). Qed.

Lemma omap_cons {A B : Type} (f : A -> option B) (x : A) (l : list A) :
  omap f (x :: l) = match f x with Some y => y :: omap f l | None => omap f l end.
Proof. reflexivity. Qed.

Lemma json_image_spec (v : value) :
  v <> JUndefined ->
  ser (json_image v) = ser v /\ pure (json_image v) = true.
Proof.
  induction v as [ | | b | n | s | l IH | o IH] using value_ind'; intros Hv;
    try (split; reflexivity); [congruence | |]; clear Hv.
  - cbn [json_image ser pure]. fold elem_image.
    assert (H : map (fun x => default "null" (ser x)) (map elem_image l)
                = map (fun x => default "null" (ser x)) l
                /\ forallb pure (map elem_image l) = true).
    { induction IH as [|x l Hx Hl IHl]; [split; reflexivity|].
      destruct IHl as [E1 E2]. cbn [map forallb]. rewrite E1, E2.
      destruct (undefined_dec x) as [->|Hne]; [split; reflexivity|].
      destruct (Hx Hne) as [Ex Px].
      assert (Ei : elem_image x = json_image x) by (destruct x; try reflexivity; congruence).
      rewrite Ei, Ex, Px. split; reflexivity. }
    destruct H as [-> ->]. split; reflexivity.
  - cbn [json_image ser pure]. fold prop_image.
    set (mem := fun kv : string * value =>
                  match ser (snd kv) with
                  | Some s => Some (quote (fst kv) +:+ ":" +:+ s)
                  | None => None
                  end).
    assert (H : omap mem (omap prop_image o) = omap mem o
                /\ forallb (fun kv => pure (snd kv)) (omap prop_image o) = true).
    { induction IH as [|[k x] o Hx Ho IHo]; [split; reflexivity|].
      destruct IHo as [E1 E2]. cbn [snd] in Hx.
      rewrite (omap_cons prop_image), (omap_cons mem (k, x)).
      destruct (undefined_dec x) as [->|Hne].
      - cbn. split; [exact E1 | exact E2].
      - destruct (Hx Hne) as [Ex Px].
        assert (Ei : prop_image (k, x) = Some (k, json_image x))
          by (destruct x; try reflexivity; congruence).
        assert (Em : mem (k, json_image x) = mem (k, x))
          by (unfold mem; cbn [fst snd]; rewrite Ex; reflexivity).
        rewrite Ei, omap_cons, Em, E1. cbn [forallb snd]. rewrite Px, E2.
        split; reflexivity. }
    destruct H as [-> ->]. split; reflexivity.
Qed.

Lemma doe_range (doe : Z) :
  0 <= doe <= 146096 ->
  let yoe := (doe - doe / 1460 + doe / 36524 - doe / 146096) / 365 in
  let doy := doe - (365 * yoe + yoe / 4 - yoe / 100) in
  0 <= yoe <= 399 /\ 0 <= doy <= 365.
Proof.
  intros H yoe doy. subst yoe doy.
  Z.to_euclidean_division_equations; lia.
Qed.

Lemma days_from_civil_from_days (z : Z) :
  let '(y, m, d) := civil_from_days z in days_from_civil y m d = z.
Proof.
  unfold civil_from_days, days_from_civil.
  set (z' := z + 719468).
  set (era := z' / 146097).
  set (doe := z' - era * 146097).
  assert (Hdoe : 0 <= doe <= 146096) by (subst doe era; Z.to_euclidean_division_equations; lia).
  pose proof (doe_range doe Hdoe) as [Hy Hd]. cbv zeta in Hy, Hd.
  set (yoe := (doe - doe / 1460 + doe / 36524 - doe / 146096) / 365) in *.
  set (doy := doe - (365 * yoe + yoe / 4 - yoe / 100)) in *.
  set (mp := (5 * doy + 2) / 153).
  assert (Hmp : 0 <= mp <= 11) by (subst mp; Z.to_euclidean_division_equations; lia).
  destruct (Z.ltb_spec mp 10).
  - destruct (Z.leb_spec (mp + 3) 2); [lia|].
    destruct (Z.ltb_spec 2 (mp + 3)); [|lia].
    replace (yoe + era * 400 + 0 - 0) with (yoe + era * 400) by lia.
    replace ((yoe + era * 400) / 400) with era by (Z.to_euclidean_division_equations; lia).
    replace (mp + 3 - 3) with mp by lia.
    replace (yoe + era * 400 - era * 400) with yoe by lia.
    subst doy z' doe. lia.
  - destruct (Z.leb_spec (mp - 9) 2); [|lia].
    destruct (Z.ltb_spec 2 (mp - 9)); [lia|].
    replace (yoe + era * 400 + 1 - 1) with (yoe + era * 400) by lia.
    replace ((yoe + era * 400) / 400) with era by (Z.to_euclidean_division_equations; lia).
    replace (mp - 9 + 9) with mp by lia.
    replace (yoe + era * 400 - era * 400) with yoe by lia.
    subst doy z' doe. lia.
Qed.

Lemma civil_from_days_fields (z : Z) :
  let '(y, m, d) := civil_from_days z in 1 <= m <= 12 /\ 1 <= d <= 31.
Proof.
  unfold civil_from_days.
  set (z' := z + 719468).
  set (era := z' / 146097).
  set (doe := z' - era * 146097).
  assert (Hdoe : 0 <= doe <= 146096) by (subst doe era; Z.to_euclidean_division_equations; lia).
  pose proof (doe_range doe Hdoe) as [Hy Hd]. cbv zeta in Hy, Hd.
  set (yoe := (doe - doe / 1460 + doe / 36524 - doe / 146096) / 365) in *.
  set (doy := doe - (365 * yoe + yoe / 4 - yoe / 100)) in *.
  set (mp := (5 * doy + 2) / 153).
  assert (Hmp : 0 <= mp <= 11) by (subst mp; Z.to_euclidean_division_equations; lia).
  split.
  - destruct (Z.ltb_spec mp 10); lia.
  - subst mp. Z.to_euclidean_division_equations; lia.
Qed.


Lemma civil_from_days_year (z : Z) :
  -719528 <= z <= 2932896 ->
  0 <= fst (fst (civil_from_days z)) <= 9999.
Proof.
  intros Hz. unfold civil_from_days.
  set (z' := z + 719468).
  set (era := z' / 146097).
  set (doe := z' - era * 146097).
  assert (Hdoe : 0 <= doe <= 146096) by (subst doe era; Z.to_euclidean_division_equations; lia).
  assert (Hera : -1 <= era <= 24) by (subst era z'; Z.to_euclidean_division_equations; lia).
  pose proof (doe_range doe Hdoe) as [Hy Hd]. cbv zeta in Hy, Hd.
  set (yoe := (doe - doe / 1460 + doe / 36524 - doe / 146096) / 365) in *.
  set (doy := doe - (365 * yoe + yoe / 4 - yoe / 100)) in *.
  set (mp := (5 * doy + 2) / 153).
  cbn [fst].
  assert (Hmp : 0 <= mp <= 11) by (subst mp; Z.to_euclidean_division_equations; lia).
  assert (Hlo : era = -1 -> 146037 <= doe) by (subst doe era z'; Z.to_euclidean_division_equations; lia).
  assert (Hhi : era = 24 -> doe <= 146036) by (subst doe era z'; Z.to_euclidean_division_equations; lia).
  destruct (Z.ltb_spec mp 10).
  - destruct (Z.leb_spec (mp + 3) 2); [lia|].
    split; [|lia].
    assert (era = -1 -> False).
    { intros E. specialize (Hlo E). subst mp doy yoe. Z.to_euclidean_division_equations; lia. }
    lia.
  - destruct (Z.leb_spec (mp - 9) 2); [|lia].
    split.
    + assert (era = -1 -> yoe = 399).
      { intros E. specialize (Hlo E). subst yoe. Z.to_euclidean_division_equations; lia. }
      lia.
    + assert (era = 24 -> yoe = 399 -> False).
      { intros E Ey. specialize (Hhi E). subst mp doy. rewrite Ey in *.
        Z.to_euclidean_division_equations; lia. }
      lia.
Qed.


Lemma digit_val_char (n : Z) : 0 <= n <= 9 -> digit_val (digit_char n) = Some n.
Proof.
  intros H. rewrite <- (Z2Nat.id n) by lia.
  assert (Hn : (Z.to_nat n < 10)%nat) by lia.
  destruct (Z.to_nat n) as [|[|[|[|[|[|[|[|[|[|k]]]]]]]]]]; try reflexivity. lia.
Qed.

Lemma read_pad2 (n : Z) (rest : string) :
  0 <= n <= 99 -> read_digits 2 0 (pad2 n +:+ rest) = Some (n, rest).
Proof.
  intros H. unfold pad2. rewrite !app_cons, app_nil_s. cbn [read_digits].
  rewrite !digit_val_char by (Z.to_euclidean_division_equations; lia).
  do 2 f_equal. Z.to_euclidean_division_equations; lia.
Qed.

Lemma read_pad3 (n : Z) (rest : string) :
  0 <= n <= 999 -> read_digits 3 0 (pad3 n +:+ rest) = Some (n, rest).
Proof.
  intros H. unfold pad3, pad2. rewrite !app_cons, app_nil_s. cbn [read_digits].
  rewrite !digit_val_char by (Z.to_euclidean_division_equations; lia).
  do 2 f_equal. Z.to_euclidean_division_equations; lia.
Qed.

Lemma read_pad4 (n : Z) (rest : string) :
  0 <= n <= 9999 -> read_digits 4 0 (pad4 n +:+ rest) = Some (n, rest).
Proof.
  intros H. unfold pad4, pad3, pad2. rewrite !app_cons, app_nil_s. cbn [read_digits].
  rewrite !digit_val_char by (Z.to_euclidean_division_equations; lia).
  do 2 f_equal. Z.to_euclidean_division_equations; lia.
Qed.

Lemma read_pad6 (n : Z) (rest : string) :
  0 <= n <= 999999 -> read_digits 6 0 (pad6 n +:+ rest) = Some (n, rest).
Proof.
  intros H. unfold pad6, pad4, pad3, pad2. rewrite !app_cons, app_nil_s.
  cbn [read_digits].
  rewrite !digit_val_char by (Z.to_euclidean_division_equations; lia).
  do 2 f_equal. Z.to_euclidean_division_equations; lia.
Qed.

Lemma read_year_digit (k : Z) (rest : string) :
  0 <= k <= 9 ->
  read_year (String (digit_char k) rest)
  = read_digits 4 0 (String (digit_char k) rest).
Proof.
  intros H. rewrite <- (Z2Nat.id k) by lia.
  assert (Hn : (Z.to_nat k < 10)%nat) by lia.
  destruct (Z.to_nat k) as [|[|[|[|[|[|[|[|[|[|j]]]]]]]]]]; try reflexivity. lia.
Qed.

Lemma read_year_string (y : Z) (rest : string) :
  -999999 <= y <= 999999 ->
  read_year (year_string y +:+ rest) = Some (y, rest).
Proof.
  intros H. unfold year_string.
  destruct ((0 <=? y) && (y <=? 9999)) eqn:E.
  - apply andb_true_iff in E as [E1%Z.leb_le E2%Z.leb_le].
    rewrite <- (read_pad4 y rest) by lia.
    unfold pad4. rewrite app_cons.
    apply read_year_digit. Z.to_euclidean_division_equations; lia.
  - apply andb_false_iff in E.
    destruct (Z.ltb_spec y 0) as [Hn|Hp].
    + cbv iota. rewrite app_assoc_s, app_cons, app_nil_s. unfold read_year.
      change (Ascii.eqb "-" "+") with false. change (Ascii.eqb "-" "-") with true.
      cbn iota. rewrite read_pad6 by lia. cbn [mbind option_bind].
      destruct (Z.eqb_spec (Z.abs y) 0); [lia|]. do 2 f_equal. lia.
    + cbv iota. rewrite app_assoc_s, app_cons, app_nil_s. unfold read_year.
      change (Ascii.eqb "+" "+") with true. cbn iota.
      rewrite read_pad6 by (destruct E as [E%Z.leb_gt|E%Z.leb_gt]; lia).
      do 2 f_equal. lia.
Qed.

Lemma civil_from_days_year_wide (z : Z) :
  -100000000 <= z <= 100000000 ->
  -999999 <= fst (fst (civil_from_days z)) <= 999999.
Proof.
  intros Hz. unfold civil_from_days.
  set (z' := z + 719468).
  set (era := z' / 146097).
  set (doe := z' - era * 146097).
  assert (Hdoe : 0 <= doe <= 146096) by (subst doe era; Z.to_euclidean_division_equations; lia).
  assert (Hera : -680 <= era <= 690) by (subst era z'; Z.to_euclidean_division_equations; lia).
  pose proof (doe_range doe Hdoe) as [Hy Hd]. cbv zeta in Hy, Hd.
  set (yoe := (doe - doe / 1460 + doe / 36524 - doe / 146096) / 365) in *.
  cbn [fst].
  match goal with |- context [if ?b then 1 else 0] => destruct b end; lia.
Qed.

Lemma expect_lit (c : ascii) (rest : string) :
  expect c (String c "" +:+ rest) = Some rest.
Proof. rewrite app_cons, app_nil_s. cbn. rewrite Ascii.eqb_refl. reflexivity. Qed.

(** A time stamp written by [toISOString] is read back by [Date.parse],
    for every time value a Date can hold. *)
Lemma date_parse_toISOString_any (t : Z) :
  - max_time <= t <= max_time -> date_parse (toISOString t) = Some t.
Proof.
  unfold max_time. intros Ht.
  assert (Hz : -100000000 <= t / ms_per_day <= 100000000)
    by (unfold ms_per_day; Z.to_euclidean_division_equations; lia).
  pose proof (civil_from_days_year_wide _ Hz) as Hy.
  pose proof (civil_from_days_fields (t / ms_per_day)) as Hf.
  pose proof (days_from_civil_from_days (t / ms_per_day)) as Hd.
  unfold toISOString.
  destruct (civil_from_days (t / ms_per_day)) as [[y m] d] eqn:E.
  cbn [fst] in Hy. destruct Hf as [Hm Hdd].
  assert (Hms : 0 <= t mod ms_per_day < 86400000)
    by (unfold ms_per_day; Z.to_euclidean_division_equations; lia).
  set (ms := t mod ms_per_day) in *.
  unfold date_parse.
  rewrite read_year_string by lia. cbn [mbind option_bind].
  rewrite expect_lit. cbn [mbind option_bind].
  rewrite read_pad2 by lia. cbn [mbind option_bind].
  rewrite expect_lit. cbn [mbind option_bind].
  rewrite read_pad2 by lia. cbn [mbind option_bind].
  rewrite expect_lit. cbn [mbind option_bind].
  rewrite read_pad2 by (Z.to_euclidean_division_equations; lia). cbn [mbind option_bind].
  rewrite expect_lit. cbn [mbind option_bind].
  rewrite read_pad2 by (Z.to_euclidean_division_equations; lia). cbn [mbind option_bind].
  rewrite expect_lit. cbn [mbind option_bind].
  rewrite read_pad2 by (Z.to_euclidean_division_equations; lia). cbn [mbind option_bind].
  rewrite expect_lit. cbn [mbind option_bind].
  rewrite read_pad3 by (Z.to_euclidean_division_equations; lia). cbn [mbind option_bind].
  change (expect "Z" "Z") with (Some ""). cbn [mbind option_bind]. cbv zeta.
  rewrite Hd, <- E, bool_decide_eq_true_2 by reflexivity.
  replace (ms / 3600000 <=? 23) with true
    by (symmetry; apply Z.leb_le; Z.to_euclidean_division_equations; lia).
  replace (ms / 60000 mod 60 <=? 59) with true
    by (symmetry; apply Z.leb_le; Z.to_euclidean_division_equations; lia).
  replace (ms / 1000 mod 60 <=? 59) with true
    by (symmetry; apply Z.leb_le; Z.to_euclidean_division_equations; lia).
  assert (Ht' : t / ms_per_day * ms_per_day + ms / 3600000 * 3600000
                + ms / 60000 mod 60 * 60000 + ms / 1000 mod 60 * 1000
                + ms mod 1000 = t).
  { subst ms. unfold ms_per_day in *. Z.to_euclidean_division_equations; lia. }
  rewrite Ht'.
  replace (Z.abs t <=? max_time) with true
    by (symmetry; apply Z.leb_le; unfold max_time; lia).
  reflexivity.
Qed.

(** In particular for the stamps whose year prints with four digits. *)
Lemma date_parse_toISOString (t : Z) :
  iso_min <= t <= iso_max -> date_parse (toISOString t) = Some t.
Proof.
  unfold iso_min, iso_max. intros Ht.
  apply date_parse_toISOString_any. unfold max_time. lia.
Qed.

Open Scope hook_scope.

(** * Reading a computation *)

Definition run {A : Type} (m : M A) (st : State) : State := snd (m st).
Definition result_of {A : Type} (m : M A) (st : State) : Result A := fst (m st).

Section TransformFacts.
Variable formId : string.
Variable options : UseFormPersistenceOptions.

Definition reports (message context : string) : list Event :=
  match errorLevel options with
  | detailed => [ConsoleError (context +:+ ": " +:+ message)]
  | basic => [ConsoleWarn (context +:+ ": " +:+ message)]
  | none => []
  end ++ (if onError options then [OnError message context] else []).

Lemma handleError_eq (message context : string) (st : State) :
  handleError options message context st
  = (Ok (context +:+ ": " +:+ message),
     set_trace (trace st ++ reports message context) st).
Proof.
  unfold handleError, reports, bind, when, emit, modify, ret.
  destruct (errorLevel options), (onError options); cbn;
    rewrite <- ?app_assoc, ?app_nil_r; try reflexivity.
  all: destruct st; reflexivity.
Qed.

Definition is_report (e : Event) : Prop :=
  match e with
  | ConsoleWarn _ | ConsoleError _ | OnError _ _ => True
  | SetItem _ _ _ | RemoveItem _ _ => False
  end.

Lemma reports_are_reports (message context : string) :
  Forall is_report (reports message context).
Proof.
  unfold reports. destruct (errorLevel options), (onError options);
    repeat constructor.
Qed.

Lemma set_trace_id (st : State) : set_trace (trace st ++ []) st = st.
Proof. rewrite app_nil_r. destruct st; reflexivity. Qed.

Lemma set_trace_twice (st : State) (a b : list Event) :
  set_trace (trace (set_trace (trace st ++ a) st) ++ b)
    (set_trace (trace st ++ a) st)
  = set_trace (trace st ++ (a ++ b)) st.
Proof. cbn. rewrite <- app_assoc. reflexivity. Qed.

(** What a hook makes of a value: its result, or the value itself when
    the hook is absent or throws. *)
Definition hook_value (h : option (value -> Result value)) (x : value) : value :=
  match h with
  | Some f => match f x with Ok y => y | Throw _ => x end
  | None => x
  end.

(** What a hook reports through the error channel on a value. *)
Definition hook_reports (h : option (value -> Result value))
  (context : string) (x : value) : list Event :=
  match h with
  | Some f => match f x with Ok _ => [] | Throw e => reports e context end
  | None => []
  end.

Definition Selector : Type :=
  DataTransformMiddleware -> option (value -> Result value).

Definition field_context (field failure : string) : string :=
  "字段[" +:+ field +:+ "]" +:+ failure.

Definition transform_fields (F : FieldTransformConfig) (select : Selector)
  (o : obj) : obj :=
  map (fun kv => (fst kv, hook_value (F !! fst kv ≫= select) (snd kv))) o.

Definition field_reports (F : FieldTransformConfig) (select : Selector)
  (failure : string) (o : obj) : list Event :=
  flat_map (fun kv => hook_reports (F !! fst kv ≫= select)
                        (field_context (fst kv) failure) (snd kv)) o.

Lemma hook_reports_are_reports h context x :
  Forall is_report (hook_reports h context x).
Proof.
  unfold hook_reports. destruct h as [f|]; [|constructor].
  destruct (f x); [constructor | apply reports_are_reports].
Qed.

Lemma field_reports_are_reports F select failure o :
  Forall is_report (field_reports F select failure o).
Proof.
  unfold field_reports. induction o as [|kv o IH]; cbn; [constructor|].
  apply Forall_app. split; [apply hook_reports_are_reports | exact IH].
Qed.

(** A hook step never throws and touches nothing but the trace. *)
Definition only_reports {A : Type} (m : M A) : Prop :=
  forall st, exists a evs,
    m st = (Ok a, set_trace (trace st ++ evs) st) /\ Forall is_report evs.

Lemma only_reports_ret {A : Type} (a : A) : only_reports (ret a).
Proof.
  intros st. exists a, []. rewrite set_trace_id. split; [reflexivity | constructor].
Qed.

Lemma only_reports_bind {A B : Type} (m : M A) (k : A -> M B) :
  only_reports m -> (forall a, only_reports (k a)) -> only_reports (bind m k).
Proof.
  intros Hm Hk st. destruct (Hm st) as (a & e1 & E1 & F1).
  destruct (Hk a (set_trace (trace st ++ e1) st)) as (b & e2 & E2 & F2).
  exists b, (e1 ++ e2). unfold bind. rewrite E1, E2, set_trace_twice.
  split; [reflexivity | apply Forall_app; auto].
Qed.

Lemma only_reports_gets {A : Type} (f : State -> A) : only_reports (gets f).
Proof.
  intros st. exists (f st), []. rewrite set_trace_id. split; [reflexivity | constructor].
Qed.

Lemma only_reports_handleError message context :
  only_reports (handleError options message context).
Proof.
  intros st. eexists _, _. rewrite handleError_eq.
  split; [reflexivity | apply reports_are_reports].
Qed.

Lemma only_reports_catch_lift {A : Type} (r : Result A) (h : string -> M A) :
  (forall e, only_reports (h e)) -> only_reports (try_catch (lift r) h).
Proof.
  intros Hh st. unfold try_catch, lift. destruct r as [a|e].
  - exists a, []. rewrite set_trace_id. split; [reflexivity | constructor].
  - apply Hh.
Qed.

Lemma field_hook_only_reports select failure field d :
  only_reports (field_hook options select failure field d).
Proof.
  unfold field_hook. apply only_reports_bind; [apply only_reports_gets|].
  intros [mw|]; [|apply only_reports_ret].
  destruct (select mw) as [hook|]; [|apply only_reports_ret].
  intros st.
  assert (E : exists r : Result value,
             (old <- lift (js_get d field) ;; new <- lift (hook old) ;;
              lift (js_set d field new)) = lift r).
  { unfold bind, lift. destruct (js_get d field) as [old|e].
    - destruct (hook old) as [new|e].
      + exists (js_set d field new). reflexivity.
      + exists (Throw e). reflexivity.
    - exists (Throw e). reflexivity. }
  destruct E as [r ->].
  apply only_reports_catch_lift. intros e.
  apply only_reports_bind; [apply only_reports_handleError|].
  intros _. apply only_reports_ret.
Qed.

Lemma field_hooks_only_reports select failure fields d :
  only_reports (field_hooks options select failure fields d).
Proof.
  revert d. induction fields as [|f fields IH]; intros d; cbn [field_hooks].
  - apply only_reports_ret.
  - apply only_reports_bind; [apply field_hook_only_reports | exact IH].
Qed.

Lemma global_hook_only_reports select failure d :
  only_reports (global_hook options select failure d).
Proof.
  unfold global_hook. apply only_reports_bind; [apply only_reports_gets|].
  intros mw. destruct (select mw) as [hook|]; [|apply only_reports_ret].
  apply only_reports_catch_lift. intros e.
  apply only_reports_bind; [apply only_reports_handleError|].
  intros _. apply only_reports_ret.
Qed.

Lemma applyBeforeSaveTransform_only_reports data :
  only_reports (applyBeforeSaveTransform options data).
Proof.
  unfold applyBeforeSaveTransform. cbn [js_keys].
  intros st. unfold bind at 1. unfold lift at 1.
  apply only_reports_bind; [apply field_hooks_only_reports|].
  intros d. apply global_hook_only_reports.
Qed.
End TransformFacts.

Section PipelineFacts.
Variable formId : string.
Variable options : UseFormPersistenceOptions.

Lemma obj_get_app_fresh {A : Type} (k : string) (x : A) (done todo : list (string * A)) :
  k ∉ map fst done -> obj_get k (done ++ (k, x) :: todo) = Some x.
Proof.
  induction done as [|[k' v'] done IH]; cbn [map fst app obj_get].
  - rewrite String.eqb_refl. reflexivity.
  - intros H. apply not_elem_of_cons in H as [Hne Hin].
    destruct (String.eqb_spec k k'); [congruence|]. apply IH, Hin.
Qed.

Lemma obj_set_app_fresh {A : Type} (k : string) (x y : A) (done todo : list (string * A)) :
  k ∉ map fst done ->
  obj_set k y (done ++ (k, x) :: todo) = done ++ (k, y) :: todo.
Proof.
  induction done as [|[k' v'] done IH]; cbn [map fst app obj_set].
  - rewrite String.eqb_refl. reflexivity.
  - intros H. apply not_elem_of_cons in H as [Hne Hin].
    destruct (String.eqb_spec k k'); [congruence|]. rewrite IH by exact Hin.
    reflexivity.
Qed.

Lemma field_hook_obj (select : Selector) (failure k : string) (x : value)
  (done todo : obj) (st : State) :
  k ∉ map fst done ->
  let h := currentFieldTransforms st !! k ≫= select in
  field_hook options select failure k (JObj (done ++ (k, x) :: todo)) st
  = (Ok (JObj (done ++ (k, hook_value h x) :: todo)),
     set_trace (trace st ++ hook_reports options h (field_context k failure) x) st).
Proof.
  intros Hk h. subst h. unfold field_hook, bind at 1, gets.
  destruct (currentFieldTransforms st !! k) as [mw|] eqn:E; cbn [mbind option_bind].
  2: { cbn. rewrite set_trace_id. reflexivity. }
  destruct (select mw) as [hook|] eqn:Es; cbn [hook_value hook_reports].
  2: { cbn. rewrite set_trace_id. reflexivity. }
  unfold try_catch, bind, lift. cbn [js_get spread].
  rewrite obj_get_app_fresh by exact Hk. cbn [from_option id]. unfold id.
  destruct (hook x) as [y|e].
  - cbn [js_set]. rewrite obj_set_app_fresh by exact Hk.
    rewrite set_trace_id. reflexivity.
  - rewrite handleError_eq. reflexivity.
Qed.

Lemma field_hooks_obj (select : Selector) (failure : string) (todo : obj) :
  forall (done : obj) (st : State),
    NoDup (map fst (done ++ todo)) ->
    field_hooks options select failure (map fst todo) (JObj (done ++ todo)) st
    = (Ok (JObj (done ++ transform_fields (currentFieldTransforms st) select todo)),
       set_trace (trace st ++ field_reports options (currentFieldTransforms st)
                                select failure todo) st).
Proof.
  induction todo as [|[k x] todo IH]; intros done st Hnd.
  - cbn. rewrite set_trace_id. reflexivity.
  - cbn [map fst field_hooks]. unfold bind.
    assert (Hk : k ∉ map fst done).
    { rewrite map_app in Hnd. apply NoDup_app in Hnd as (_ & Hd & _).
      intros Hin. apply (Hd k Hin). cbn. left. }
    rewrite field_hook_obj by exact Hk.
    change (done ++ (k, hook_value (currentFieldTransforms st !! k ≫= select) x) :: todo)
      with (done ++ [(k, hook_value (currentFieldTransforms st !! k ≫= select) x)] ++ todo).
    rewrite app_assoc, IH.
    + cbn [currentFieldTransforms set_trace]. rewrite set_trace_twice.
      rewrite <- app_assoc. reflexivity.
    + rewrite <- app_assoc. cbn. rewrite !map_app in *. cbn in *. exact Hnd.
Qed.

Lemma global_hook_eq (select : Selector) (failure : string) (d : value) (st : State) :
  global_hook options select failure d st
  = (Ok (hook_value (select (currentMiddleware st)) d),
     set_trace (trace st ++ hook_reports options (select (currentMiddleware st))
                              failure d) st).
Proof.
  unfold global_hook, bind, gets.
  destruct (select (currentMiddleware st)) as [hook|]; cbn [hook_value hook_reports].
  2: { cbn. rewrite set_trace_id. reflexivity. }
  unfold try_catch, lift. destruct (hook d) as [y|e].
  - rewrite set_trace_id. reflexivity.
  - unfold bind. rewrite handleError_eq. reflexivity.
Qed.

(** Saving: the field hooks run first, each on the raw value of its
    field; the global hook then sees the field-adjusted whole. *)
Lemma applyBeforeSaveTransform_eq (o : obj) (st : State) :
  NoDup (obj_keys o) ->
  let F := currentFieldTransforms st in
  let g := beforeSave (currentMiddleware st) in
  let adjusted := JObj (transform_fields F beforeSave o) in
  applyBeforeSaveTransform options (JObj o) st
  = (Ok (hook_value g adjusted),
     set_trace (trace st
                ++ field_reports options F beforeSave "保存前转换失败" o
                ++ hook_reports options g "全局保存前转换失败" adjusted) st).
Proof.
  intros Hnd F g adjusted. unfold applyBeforeSaveTransform.
  cbn [spread js_keys]. unfold bind at 1, lift at 1. unfold bind.
  pose proof (field_hooks_obj beforeSave "保存前转换失败" o [] st Hnd) as H.
  cbn [app] in H. unfold obj_keys. rewrite H, global_hook_eq.
  cbn [currentMiddleware set_trace]. rewrite set_trace_twice. reflexivity.
Qed.

(** Restoring: the global hook runs first; the field hooks then run on
    the fields of what it returned. *)
Lemma applyAfterRestoreTransform_eq (o o' : obj) (st : State) :
  let F := currentFieldTransforms st in
  let g := afterRestore (currentMiddleware st) in
  hook_value g (JObj o) = JObj o' ->
  NoDup (obj_keys o') ->
  applyAfterRestoreTransform options (JObj o) st
  = (Ok (JObj (transform_fields F afterRestore o')),
     set_trace (trace st
                ++ hook_reports options g "全局恢复后转换失败" (JObj o)
                ++ field_reports options F afterRestore "恢复后转换失败" o') st).
Proof.
  intros F g Hg Hnd. unfold applyAfterRestoreTransform.
  cbn [spread]. unfold bind. rewrite global_hook_eq. fold g. rewrite Hg.
  cbn [js_keys spread lift]. unfold lift.
  pose proof (field_hooks_obj afterRestore "恢复后转换失败" o' []
                (set_trace (trace st ++ hook_reports options g "全局恢复后转换失败" (JObj o)) st)
                Hnd) as H.
  cbn [app] in H. unfold obj_keys. rewrite H.
  cbn [currentFieldTransforms set_trace]. rewrite set_trace_twice. reflexivity.
Qed.
End PipelineFacts.

Section SaveFacts.
Variable formId : string.
Variable options : UseFormPersistenceOptions.

(** The text [saveTextData] writes for the transformed form [v] at time [now]. *)
Definition snapshot_text (v : value) (now : Z) : string :=
  default "undefined"
    (JSON_stringify (JObj (obj_set "savedAt" (JStr (toISOString now)) (spread v)))).

(** The state a completed save leaves: both tiers hold [text], the
    trace grew by the reports [pre] and then the two writes. *)
Definition after_save (st : State) (text : string) (pre : list Event) : State :=
  {| formData := formData st;
     fileData := fileData st;
     hasUnsavedChanges := true;
     uploadProgress := uploadProgress st;
     error := None;
     currentMiddleware := currentMiddleware st;
     currentFieldTransforms := currentFieldTransforms st;
     listening := listening st;
     sessionStorage := <[sessionKey formId := text]> (sessionStorage st);
     localStorage := <[storageKey formId := text]> (localStorage st);
     fileStorage := fileStorage st;
     clock := clock st;
     visibilityState := visibilityState st;
     timers := timers st;
     trace := trace st ++ pre
              ++ [SetItem Session (sessionKey formId) text;
                  SetItem Durable (storageKey formId) text] |}.

Lemma saveTextData_after (st : State) (v : value) (pre : list Event) :
  applyBeforeSaveTransform options (JObj (formData st)) st
  = (Ok v, set_trace (trace st ++ pre) st) ->
  saveTextData formId options st
  = (Ok tt, after_save st (snapshot_text v (clock st)) pre).
Proof.
  intros H. unfold saveTextData, try_catch, bind at 1, gets at 1.
  unfold bind at 1. rewrite H.
  unfold bind, Date_now, gets, sessionStorage_setItem, localStorage_setItem,
    emit, modify, bind, after_save, snapshot_text.
  cbn. rewrite <- !app_assoc. reflexivity.
Qed.

(** A save always completes, whatever the hooks do. *)
Lemma saveTextData_completes (st : State) :
  exists text pre,
    saveTextData formId options st = (Ok tt, after_save st text pre)
    /\ Forall is_report pre.
Proof.
  destruct (applyBeforeSaveTransform_only_reports options (JObj (formData st)) st)
    as (v & pre & E & Hp).
  exists (snapshot_text v (clock st)), pre. split; [|exact Hp].
  apply saveTextData_after, E.
Qed.

Lemma saveTextData_eq (st : State) :
  NoDup (obj_keys (formData st)) ->
  let F := currentFieldTransforms st in
  let g := beforeSave (currentMiddleware st) in
  let adjusted := JObj (transform_fields F beforeSave (formData st)) in
  saveTextData formId options st
  = (Ok tt,
     after_save st (snapshot_text (hook_value g adjusted) (clock st))
       (field_reports options F beforeSave "保存前转换失败" (formData st)
        ++ hook_reports options g "全局保存前转换失败" adjusted)).
Proof.
  intros Hnd F g adjusted. apply saveTextData_after.
  apply applyBeforeSaveTransform_eq, Hnd.
Qed.

(** Key names never collide. *)
Lemma storageKey_ne_normalCloseKey : storageKey formId <> normalCloseKey formId.
Proof.
  unfold storageKey, normalCloseKey. intros H.
  apply String.app_inj in H.
  assert (L : String.length formId
              = String.length (formId +:+ "_normal_close")) by (rewrite <- H; reflexivity).
  rewrite length_app_s in L. cbn in L. lia.
Qed.

Lemma sessionKey_ne_normalCloseKey : sessionKey formId <> normalCloseKey formId.
Proof.
  unfold sessionKey, normalCloseKey. intros H.
  do 2 apply String.app_inj in H. discriminate.
Qed.

Lemma storageKey_ne_sessionKey : storageKey formId <> sessionKey formId.
Proof.
  unfold storageKey, sessionKey. intros H.
  apply String.app_inj in H.
  assert (L : String.length formId
              = String.length (formId +:+ "_session")) by (rewrite <- H; reflexivity).
  rewrite length_app_s in L. cbn in L. lia.
Qed.
End SaveFacts.

Section CloseFacts.
Variable formId : string.
Variable options : UseFormPersistenceOptions.

(** The state a close marking leaves behind. *)
Definition close_marked (st : State) : State :=
  set_timers (timers st ++ [MirrorCloseMarker])
    (set_trace (trace st ++ [SetItem Session (normalCloseKey formId) "true"])
       (set_sessionStorage
          (<[normalCloseKey formId := "true"]> (sessionStorage st)) st)).

Lemma handlePageClose_eq (st : State) :
  visibilityState st = hidden ->
  exists st',
    handlePageClose formId options st = (Ok tt, close_marked st')
    /\ ((hasUnsavedChanges st = false /\ st' = st)
        \/ (hasUnsavedChanges st = true /\
            exists text pre, st' = after_save formId st text pre
                             /\ Forall is_report pre)).
Proof.
  intros Hv. unfold handlePageClose, handlePageLeave, bind, gets, when.
  destruct (hasUnsavedChanges st) eqn:Eu.
  - destruct (saveTextData_completes formId options st) as (text & pre & E & Hp).
    rewrite ?Eu, E. exists (after_save formId st text pre). split.
    + cbn [visibilityState after_save]. rewrite Hv. reflexivity.
    + right. split; [reflexivity|]. exists text, pre. auto.
  - rewrite ?Eu. exists st. split.
    + cbn. rewrite Hv. reflexivity.
    + left. auto.
Qed.

Lemma run_task_mirror (st : State) :
  sessionStorage st !! normalCloseKey formId = Some "true" ->
  run_task formId MirrorCloseMarker st
  = (Ok tt,
     set_trace (trace st ++ [SetItem Durable (normalCloseKey formId) "true"])
       (set_localStorage
          (<[normalCloseKey formId := "true"]> (localStorage st)) st)).
Proof.
  intros H. unfold run_task, bind, sessionStorage_getItem, gets. rewrite H.
  reflexivity.
Qed.
End CloseFacts.

(** ** A small program logic: results that never throw *)

Section Logic.
Context {A : Type}.

(** [post m P]: whenever [m] returns normally, result and state are in [P]. *)
Definition post (m : M A) (P : A -> State -> Prop) : Prop :=
  forall st a st', m st = (Ok a, st') -> P a st'.

(** [ensures m P]: [m] always returns normally, in [P]. *)
Definition ensures (m : M A) (P : A -> State -> Prop) : Prop :=
  forall st, exists a st', m st = (Ok a, st') /\ P a st'.

Lemma post_ret (a : A) (P : A -> State -> Prop) :
  (forall st, P a st) -> post (ret a) P.
Proof. intros H st a' st' E. injection E as <- <-. apply H. Qed.

Lemma ensures_ret (a : A) (P : A -> State -> Prop) :
  (forall st, P a st) -> ensures (ret a) P.
Proof. intros H st. exists a, st. auto. Qed.

Lemma post_throw (e : string) (P : A -> State -> Prop) : post (throw e) P.
Proof. intros st a st' E. discriminate. Qed.

Lemma post_lift (r : Result A) (P : A -> State -> Prop) :
  (forall a st, r = Ok a -> P a st) -> post (lift r) P.
Proof. intros H st a st' E. injection E as E <-. apply H, E. Qed.

Lemma ensures_try_catch (m : M A) (h : string -> M A) (P : A -> State -> Prop) :
  post m P -> (forall e, ensures (h e) P) -> ensures (try_catch m h) P.
Proof.
  intros Hm Hh st. unfold try_catch. destruct (m st) as [[a|e] st'] eqn:E.
  - exists a, st'. split; [reflexivity|]. exact (Hm _ _ _ E).
  - apply Hh.
Qed.

Lemma post_try_catch (m : M A) (h : string -> M A) (P : A -> State -> Prop) :
  post m P -> (forall e, post (h e) P) -> post (try_catch m h) P.
Proof.
  intros Hm Hh st a st' E. unfold try_catch in E.
  destruct (m st) as [[a0|e] st0] eqn:E0.
  - injection E as <- <-. exact (Hm _ _ _ E0).
  - exact (Hh _ _ _ _ E).
Qed.

Lemma ensures_try_catch_ok (m : M A) (h : string -> M A) (P : A -> State -> Prop) :
  ensures m P -> ensures (try_catch m h) P.
Proof.
  intros Hm st. unfold try_catch. destruct (Hm st) as (a & st' & E & Ha).
  rewrite E. exists a, st'. auto.
Qed.

Lemma ensures_weaken (m : M A) (P Q : A -> State -> Prop) :
  (forall a st, P a st -> Q a st) -> ensures m P -> ensures m Q.
Proof.
  intros H Hm st. destruct (Hm st) as (a & st' & E & Ha). exists a, st'. auto.
Qed.

Lemma post_weaken (m : M A) (P Q : A -> State -> Prop) :
  (forall a st, P a st -> Q a st) -> post m P -> post m Q.
Proof. intros H Hm st a st' E. apply H, (Hm _ _ _ E). Qed.

Lemma post_any (m : M A) : post m (fun _ _ => True).
Proof. intros st a st' _. exact I. Qed.
End Logic.

Lemma post_bind {A B : Type} (m : M A) (k : A -> M B)
  (P : A -> State -> Prop) (Q : B -> State -> Prop) :
  post m P -> (forall a, (exists st, P a st) -> post (k a) Q) -> post (bind m k) Q.
Proof.
  intros Hm Hk st b st' E. unfold bind in E.
  destruct (m st) as [[a|e] st0] eqn:E0; [|discriminate].
  exact (Hk a (ex_intro _ st0 (Hm _ _ _ E0)) _ _ _ E).
Qed.

Lemma ensures_bind {A B : Type} (m : M A) (k : A -> M B)
  (P : A -> State -> Prop) (Q : B -> State -> Prop) :
  ensures m P -> (forall a, (exists st, P a st) -> ensures (k a) Q) ->
  ensures (bind m k) Q.
Proof.
  intros Hm Hk st. destruct (Hm st) as (a & st0 & E0 & Ha).
  destruct (Hk a (ex_intro _ st0 Ha) st0) as (b & st' & E & Hb).
  exists b, st'. unfold bind. rewrite E0. auto.
Qed.

Lemma ensures_gets {A : Type} (f : State -> A) : ensures (gets f) (fun _ _ => True).
Proof. intros st. exists (f st), st. auto. Qed.

Lemma ensures_modify (f : State -> State) :
  ensures (modify f) (fun _ st' => exists st, st' = f st).
Proof. intros st. exists tt, (f st). eauto. Qed.

Lemma only_reports_ensures {A : Type} (m : M A) :
  only_reports m -> ensures m (fun _ _ => True).
Proof.
  intros H st. destruct (H st) as (a & evs & E & _). eexists _, _. eauto.
Qed.

Lemma ensures_true {A : Type} (m : M A) (P : A -> State -> Prop) :
  ensures m P -> ensures m (fun _ _ => True).
Proof. apply ensures_weaken. auto. Qed.

Lemma ensures_for_each {A : Type} (l : list A) (body : A -> M unit) :
  (forall x, ensures (body x) (fun _ _ => True)) ->
  ensures (for_each l body) (fun _ _ => True).
Proof.
  intros H. induction l as [|x l IH]; cbn [for_each].
  - apply ensures_ret. auto.
  - eapply ensures_bind; [apply H|]. intros _ _. exact IH.
Qed.

Definition nullish (v : value) : bool :=
  match v with
  | JUndefined | JNull => true
  | _ => false
  end.

Lemma js_keys_ok (v : value) (ks : list string) :
  js_keys v = Ok ks -> nullish v = false.
Proof. destruct v; try reflexivity; discriminate. Qed.

Lemma js_keys_nonnull (v : value) :
  nullish v = false -> js_keys v = Ok (obj_keys (spread v)).
Proof. destruct v; try reflexivity; discriminate. Qed.

Lemma js_set_nonnull (d : value) (k : string) (x v : value) :
  js_set d k x = Ok v -> nullish v = false.
Proof.
  destruct d; cbn; try discriminate.
  - destruct (index_of_key k (length elems)); intros [= <-]; reflexivity.
  - intros [= <-]. reflexivity.
Qed.

Section RestoreFacts.
Variable formId : string.
Variable options : UseFormPersistenceOptions.

Definition nonnull_result (r : value * bool) (_ : State) : Prop :=
  nullish (fst r) = false.

Lemma field_hook_nonnull select failure field d :
  nullish d = false ->
  post (field_hook options select failure field d) (fun v _ => nullish v = false).
Proof.
  intros Hd. unfold field_hook.
  eapply post_bind; [apply post_any|]. intros [mw|] _; [|apply post_ret; auto].
  destruct (select mw) as [hook|]; [|apply post_ret; auto].
  apply post_try_catch.
  - eapply post_bind; [apply post_any|]. intros old _.
    eapply post_bind; [apply post_any|]. intros new _.
    apply post_lift. intros a st. apply js_set_nonnull.
  - intros e. eapply post_bind; [apply post_any|]. intros _ _.
    apply post_ret. auto.
Qed.

Lemma field_hooks_nonnull select failure fields d :
  nullish d = false ->
  post (field_hooks options select failure fields d) (fun v _ => nullish v = false).
Proof.
  revert d. induction fields as [|f fields IH]; intros d Hd; cbn [field_hooks].
  - apply post_ret. auto.
  - eapply post_bind; [apply field_hook_nonnull, Hd|].
    intros a [? Ha]. apply IH, Ha.
Qed.

Lemma applyAfterRestoreTransform_nonnull data :
  post (applyAfterRestoreTransform options data) (fun v _ => nullish v = false).
Proof.
  unfold applyAfterRestoreTransform.
  eapply post_bind; [apply post_any|]. intros d _.
  eapply post_bind.
  - apply post_lift with (P := fun _ _ => nullish d = false).
    intros ks _. apply js_keys_ok.
  - intros ks [? Hd]. apply field_hooks_nonnull, Hd.
Qed.

Lemma restoreFromSessionStorage_ensures :
  ensures (restoreFromSessionStorage formId options) nonnull_result.
Proof.
  unfold restoreFromSessionStorage. apply ensures_try_catch.
  - eapply post_bind; [apply post_any|]. intros savedText _.
    destruct (no_text savedText); [apply post_ret; reflexivity|].
    eapply post_bind; [apply post_any|]. intros parsed _.
    eapply post_bind; [apply post_any|]. intros savedAt _.
    eapply post_bind; [apply post_any|]. intros expired _. destruct expired.
    + eapply post_bind; [apply post_any|]. intros _ _. apply post_ret. reflexivity.
    + eapply post_bind; [apply applyAfterRestoreTransform_nonnull|].
      intros d [? Hd]. apply post_ret. intros ?. exact Hd.
  - intros e. eapply ensures_bind; [apply only_reports_ensures, only_reports_handleError|].
    intros _ _. apply ensures_ret. reflexivity.
Qed.

Lemma restoreFromLocalStorage_ensures :
  ensures (restoreFromLocalStorage formId options) nonnull_result.
Proof.
  unfold restoreFromLocalStorage. apply ensures_try_catch.
  - eapply post_bind; [apply post_any|]. intros savedText _.
    destruct (no_text savedText); [apply post_ret; reflexivity|].
    eapply post_bind; [apply post_any|]. intros parsed _.
    eapply post_bind; [apply post_any|]. intros savedAt _.
    eapply post_bind; [apply post_any|]. intros expired _. destruct expired.
    + eapply post_bind; [apply post_any|]. intros _ _. apply post_ret. reflexivity.
    + eapply post_bind; [apply applyAfterRestoreTransform_nonnull|].
      intros d [? Hd].
      eapply post_bind; [apply post_any|]. intros _ _.
      apply post_ret. intros ?. exact Hd.
  - intros e. eapply ensures_bind; [apply only_reports_ensures, only_reports_handleError|].
    intros _ _. apply ensures_ret. reflexivity.
Qed.

Lemma restoreFileData_ensures (shouldRestore : bool) :
  ensures (restoreFileData formId options shouldRestore) (fun _ _ => True).
Proof.
  unfold restoreFileData. destruct shouldRestore; cbn [negb].
  - apply ensures_try_catch; [apply post_any|].
    intros e. eapply ensures_bind; [apply only_reports_ensures, only_reports_handleError|].
    intros _ _. apply ensures_ret. auto.
  - apply ensures_ret. auto.
Qed.

(** What [restoreData] does last: the unsaved-changes flag is recomputed
    from the form and file state, and the error is cleared. *)
Definition has_data (st : State) : bool :=
  existsb is_data (obj_values (formData st)).

Definition has_files (st : State) : bool :=
  existsb (fun files => (0 <? length files)%nat) (map snd (fileData st)).

Definition recomputed (st : State) : State :=
  set_error None (set_hasUnsavedChanges (has_data st || has_files st) st).

(** [restoreData] always completes, and always through its last step. *)
Lemma ensures_lift_keys (v : value) :
  nullish v = false -> ensures (lift (js_keys v)) (fun _ _ => True).
Proof.
  intros H st. unfold lift. rewrite js_keys_nonnull by exact H. eauto.
Qed.

Lemma restoreData_completes :
  ensures (restoreData formId options) (fun _ st' => exists st1, st' = recomputed st1).
Proof.
  unfold restoreData. apply ensures_try_catch_ok.
  eapply ensures_bind; [apply ensures_gets|]. intros session _.
  eapply ensures_bind; [apply ensures_gets|]. intros marker _.
  eapply ensures_bind; [apply ensures_gets|]. intros durable _.
  eapply ensures_bind; [apply restoreFromSessionStorage_ensures|].
  intros sessionResult [? Hs].
  eapply ensures_bind with (P := nonnull_result).
  { destruct (snd sessionResult); [apply ensures_ret; intros ?; exact Hs|].
    match goal with |- context [if ?c then _ else _] => destruct c end;
      [|apply ensures_ret; reflexivity].
    eapply ensures_bind; [apply restoreFromLocalStorage_ensures|].
    intros localResult [? Hl].
    destruct (snd localResult); apply ensures_ret; intros ?; [exact Hl | reflexivity]. }
  intros restored [? Hr]. cbv zeta.
  eapply ensures_bind; [apply ensures_lift_keys, Hr|]. intros keys _.
  eapply ensures_bind with (P := fun _ _ => True).
  { unfold when. destruct (0 <? length keys)%nat;
      [eapply ensures_true, ensures_modify | apply ensures_ret; auto]. }
  intros _ _.
  eapply ensures_bind with (P := fun _ _ => True).
  { match goal with |- context [if ?c then _ else _] => destruct c end;
      [apply ensures_ret; auto|].
    match goal with |- context [if ?c then _ else _] => destruct c end;
      [|apply ensures_ret; auto].
    eapply ensures_bind; [apply ensures_gets|]. intros again _.
    apply ensures_ret. auto. }
  intros shouldRestoreFiles _.
  eapply ensures_bind; [apply restoreFileData_ensures|]. intros _ _.
  apply ensures_modify.
Qed.
End RestoreFacts.

(** ** Framing: what a computation leaves alone *)

Section Framing.
Variable R : State -> State -> Prop.
Hypothesis R_refl : forall st, R st st.
Hypothesis R_trans : forall a b c, R a b -> R b c -> R a c.

Definition preserves {A : Type} (m : M A) : Prop :=
  forall st r st', m st = (r, st') -> R st st'.

Lemma preserves_ret {A : Type} (a : A) : preserves (ret a).
Proof. intros st r st' [= _ <-]. apply R_refl. Qed.

Lemma preserves_throw {A : Type} (e : string) : preserves (@throw A e).
Proof. intros st r st' [= _ <-]. apply R_refl. Qed.

Lemma preserves_lift {A : Type} (x : Result A) : preserves (lift x).
Proof. intros st r st' [= _ <-]. apply R_refl. Qed.

Lemma preserves_gets {A : Type} (f : State -> A) : preserves (gets f).
Proof. intros st r st' [= _ <-]. apply R_refl. Qed.

Lemma preserves_modify (f : State -> State) :
  (forall st, R st (f st)) -> preserves (modify f).
Proof. intros H st r st' [= _ <-]. apply H. Qed.

Lemma preserves_bind {A B : Type} (m : M A) (k : A -> M B) :
  preserves m -> (forall a, preserves (k a)) -> preserves (bind m k).
Proof.
  intros Hm Hk st r st' E. unfold bind in E.
  destruct (m st) as [[a|e] st0] eqn:E0.
  - eapply R_trans; [exact (Hm _ _ _ E0) | exact (Hk _ _ _ _ E)].
  - injection E as _ <-. exact (Hm _ _ _ E0).
Qed.

Lemma preserves_try_catch {A : Type} (m : M A) (h : string -> M A) :
  preserves m -> (forall e, preserves (h e)) -> preserves (try_catch m h).
Proof.
  intros Hm Hh st r st' E. unfold try_catch in E.
  destruct (m st) as [[a|e] st0] eqn:E0.
  - injection E as _ <-. exact (Hm _ _ _ E0).
  - eapply R_trans; [exact (Hm _ _ _ E0) | exact (Hh _ _ _ _ E)].
Qed.

Lemma preserves_when (b : bool) (m : M unit) : preserves m -> preserves (when b m).
Proof. intros H. destruct b; [exact H | apply preserves_ret]. Qed.

Lemma preserves_for_each {A : Type} (l : list A) (body : A -> M unit) :
  (forall x, preserves (body x)) -> preserves (for_each l body).
Proof.
  intros H. induction l as [|x l IH]; cbn [for_each].
  - apply preserves_ret.
  - apply preserves_bind; [apply H | intros _; exact IH].
Qed.
End Framing.

(** The text side of the state: what the blob store never touches. *)
Definition same_text (st st' : State) : Prop :=
  formData st' = formData st
  /\ sessionStorage st' = sessionStorage st
  /\ localStorage st' = localStorage st
  /\ currentMiddleware st' = currentMiddleware st
  /\ currentFieldTransforms st' = currentFieldTransforms st
  /\ clock st' = clock st.

Lemma same_text_refl (st : State) : same_text st st.
Proof. repeat split. Qed.

Lemma same_text_trans (a b c : State) : same_text a b -> same_text b c -> same_text a c.
Proof.
  unfold same_text. intros (?&?&?&?&?&?) (?&?&?&?&?&?).
  repeat split; congruence.
Qed.

Section FileFrame.
Variable formId : string.
Variable options : UseFormPersistenceOptions.

Local Abbreviation keeps := (preserves same_text).

Lemma keeps_with_store {A : Type} (f : FileStorage.t -> Result A * FileStorage.t) :
  keeps (with_store f).
Proof.
  intros st r st' E. unfold with_store in E.
  destruct (f (fileStorage st)) as [r0 fs]. injection E as _ <-.
  repeat split.
Qed.

Lemma keeps_handleError message context : keeps (handleError options message context).
Proof. intros st r st' E. rewrite handleError_eq in E. injection E as _ <-. repeat split. Qed.

Lemma keeps_set_fileData_field field files : keeps (set_fileData_field field files).
Proof. apply preserves_modify. intros st. repeat split. Qed.

Lemma keeps_restoreFileData (b : bool) : keeps (restoreFileData formId options b).
Proof.
  unfold restoreFileData. destruct b; cbn [negb];
    [|apply preserves_ret, same_text_refl].
  apply preserves_try_catch; try apply same_text_trans.
  - apply preserves_for_each; try apply same_text_refl; try apply same_text_trans.
    intros field. apply preserves_bind; try apply same_text_trans.
    + apply keeps_with_store.
    + intros files. apply keeps_set_fileData_field.
  - intros e. apply preserves_bind; try apply same_text_trans.
    + apply keeps_handleError.
    + intros _. apply preserves_ret, same_text_refl.
Qed.
End FileFrame.

(** ** Restoring a snapshot *)

Lemma JSON_parse_nonempty (text : string) (v : value) :
  JSON_parse text = Some v -> no_text (Some text) = false.
Proof. destruct text; [discriminate | reflexivity]. Qed.

Section SnapshotFacts.
Variable formId : string.
Variable options : UseFormPersistenceOptions.

(** The expiry test of [isDataExpired], as a function of the stored
    [savedAt] and the current time. *)
Definition expired (savedAt : value) (now : Z) : bool :=
  truthy savedAt
  && match Date_getTime savedAt with
     | Some savedTime => dataExpiryMs options <? now - savedTime
     | None => false
     end.

Lemma isDataExpired_eq (savedAt : value) (st : State) :
  isDataExpired options savedAt st = (Ok (expired savedAt (clock st)), st).
Proof.
  unfold isDataExpired, expired. destruct (truthy savedAt); cbn [negb andb].
  - unfold bind, Date_now, gets. destruct (Date_getTime savedAt); reflexivity.
  - reflexivity.
Qed.

Definition savedAt_of (o : obj) : value := default JUndefined (obj_get "savedAt" o).

Definition session_dropped (st : State) : State :=
  set_trace (trace st ++ [RemoveItem Session (sessionKey formId)])
    (set_sessionStorage (delete (sessionKey formId) (sessionStorage st)) st).

Definition durable_dropped (st : State) : State :=
  set_trace (trace st ++ [RemoveItem Durable (storageKey formId)])
    (set_localStorage (delete (storageKey formId) (localStorage st)) st).

Definition session_mirrored (text : string) (st : State) : State :=
  set_trace (trace st ++ [SetItem Session (sessionKey formId) text])
    (set_sessionStorage (<[sessionKey formId := text]> (sessionStorage st)) st).

(** What the restore functions do with a snapshot [o] that passed the
    expiry test: strip the time stamp, run the restore hooks, and hand
    the result back (the durable tier also mirrors its raw text into
    the session tier); a failure in between is reported and nothing is
    handed back. *)
Definition accepted_from_session (o : obj) : M (value * bool) :=
  try_catch
    (transformedData <-
       applyAfterRestoreTransform options (JObj (obj_delete "savedAt" o)) ;;
     ret (transformedData, true))
    (fun e => handleError options e "从sessionStorage恢复数据" ;;
              ret (JObj [], false)).

Definition accepted_from_durable (text : string) (o : obj) : M (value * bool) :=
  try_catch
    (transformedData <-
       applyAfterRestoreTransform options (JObj (obj_delete "savedAt" o)) ;;
     sessionStorage_setItem (sessionKey formId) text ;;
     ret (transformedData, true))
    (fun e => handleError options e "从localStorage恢复数据" ;;
              ret (JObj [], false)).

Lemma restoreFromSessionStorage_absent (st : State) :
  no_text (sessionStorage st !! sessionKey formId) = true ->
  restoreFromSessionStorage formId options st = (Ok (JObj [], false), st).
Proof.
  intros H. unfold restoreFromSessionStorage, try_catch, bind, sessionStorage_getItem, gets.
  rewrite H. reflexivity.
Qed.

Lemma restoreFromLocalStorage_absent (st : State) :
  no_text (localStorage st !! storageKey formId) = true ->
  restoreFromLocalStorage formId options st = (Ok (JObj [], false), st).
Proof.
  intros H. unfold restoreFromLocalStorage, try_catch, bind, localStorage_getItem, gets.
  rewrite H. reflexivity.
Qed.

(** A snapshot in the session tier: dropped when expired, otherwise
    stripped of its time stamp and passed through the restore hooks. *)
Lemma restoreFromSessionStorage_snapshot (st : State) (text : string) (o : obj) :
  sessionStorage st !! sessionKey formId = Some text ->
  JSON_parse text = Some (JObj o) ->
  restoreFromSessionStorage formId options st
  = if expired (savedAt_of o) (clock st)
    then (Ok (JObj [], false), session_dropped st)
    else accepted_from_session o st.
Proof.
  intros Hs Hp. pose proof (JSON_parse_nonempty _ _ Hp) as Hn.
  unfold restoreFromSessionStorage, try_catch.
  unfold bind at 1, sessionStorage_getItem at 1, gets at 1. rewrite Hs, Hn.
  cbn [from_option id]. unfold id, parse_json. rewrite Hp.
  unfold bind at 1, ret at 1. unfold bind at 1, lift at 1. cbn [js_get spread].
  unfold bind at 1. fold (savedAt_of o). rewrite isDataExpired_eq.
  destruct (expired (savedAt_of o) (clock st)); reflexivity.
Qed.

Lemma restoreFromLocalStorage_snapshot (st : State) (text : string) (o : obj) :
  localStorage st !! storageKey formId = Some text ->
  JSON_parse text = Some (JObj o) ->
  restoreFromLocalStorage formId options st
  = if expired (savedAt_of o) (clock st)
    then (Ok (JObj [], false), durable_dropped st)
    else accepted_from_durable text o st.
Proof.
  intros Hs Hp. pose proof (JSON_parse_nonempty _ _ Hp) as Hn.
  unfold restoreFromLocalStorage, try_catch.
  unfold bind at 1, localStorage_getItem at 1, gets at 1. rewrite Hs, Hn.
  cbn [from_option id]. unfold id, parse_json. rewrite Hp.
  unfold bind at 1, ret at 1. unfold bind at 1, lift at 1. cbn [js_get spread].
  unfold bind at 1. fold (savedAt_of o). rewrite isDataExpired_eq.
  destruct (expired (savedAt_of o) (clock st)); reflexivity.
Qed.

(** No hook registered in the restore direction. *)
Definition no_restore_hooks (st : State) : Prop :=
  afterRestore (currentMiddleware st) = None
  /\ forall field mw, currentFieldTransforms st !! field = Some mw ->
                      afterRestore mw = None.

Lemma field_hook_none (select : Selector) failure field d st :
  (forall field mw, currentFieldTransforms st !! field = Some mw -> select mw = None) ->
  field_hook options select failure field d st = (Ok d, st).
Proof.
  intros H. unfold field_hook, bind at 1, gets.
  destruct (currentFieldTransforms st !! field) as [mw|] eqn:E; [|reflexivity].
  rewrite (H _ _ E). reflexivity.
Qed.

Lemma field_hooks_none (select : Selector) failure fields d st :
  (forall field mw, currentFieldTransforms st !! field = Some mw -> select mw = None) ->
  field_hooks options select failure fields d st = (Ok d, st).
Proof.
  intros H. induction fields as [|f fields IH]; [reflexivity|].
  cbn [field_hooks]. unfold bind. rewrite field_hook_none by exact H. exact IH.
Qed.

Lemma applyAfterRestoreTransform_none (o : obj) (st : State) :
  no_restore_hooks st ->
  applyAfterRestoreTransform options (JObj o) st = (Ok (JObj o), st).
Proof.
  intros [Hg Hf]. unfold applyAfterRestoreTransform, bind. cbn [spread].
  unfold global_hook, bind, gets. rewrite Hg. cbn [js_keys lift]. unfold ret, lift.
  apply field_hooks_none, Hf.
Qed.

Lemma accepted_from_session_plain (o : obj) (st : State) :
  no_restore_hooks st ->
  accepted_from_session o st = (Ok (JObj (obj_delete "savedAt" o), true), st).
Proof.
  intros H. unfold accepted_from_session, try_catch, bind.
  rewrite applyAfterRestoreTransform_none by exact H. reflexivity.
Qed.

Lemma accepted_from_durable_plain (text : string) (o : obj) (st : State) :
  no_restore_hooks st ->
  accepted_from_durable text o st
  = (Ok (JObj (obj_delete "savedAt" o), true), session_mirrored text st).
Proof.
  intros H. unfold accepted_from_durable, try_catch, bind.
  rewrite applyAfterRestoreTransform_none by exact H. reflexivity.
Qed.
End SnapshotFacts.

(** ** The shape of [restoreData] *)

Section StartupFacts.
Variable formId : string.
Variable options : UseFormPersistenceOptions.

(** The three flags [restoreData] and [onMounted] read at their start. *)
Definition sessionExists (st : State) : bool :=
  bool_decide (is_Some (sessionStorage st !! sessionKey formId)).

Definition isNormalClose (st : State) : bool :=
  bool_decide (localStorage st !! normalCloseKey formId = Some "true").

Definition hasLocalStorageData (st : State) : bool :=
  bool_decide (is_Some (localStorage st !! storageKey formId)).

Definition isCrashRecovery (st : State) : bool :=
  negb (sessionExists st) && hasLocalStorageData st && negb (isNormalClose st).

(** The startup cases by the names of the design notes, decided in
    the order in which the code tests the flags. *)
Inductive Startup : Type := Fresh | Refresh | CrashRecovery | NormalRestart.

Definition classify (st : State) : Startup :=
  if sessionExists st then Refresh
  else if hasLocalStorageData st && negb (isNormalClose st) then CrashRecovery
  else if isNormalClose st then NormalRestart
  else Fresh.

(** The part of [restoreData] after the text tiers were consulted. *)
Definition restore_tail (wasSession wasNormalClose : bool)
  (formOnly : value) (isFromLocalStorage : bool) : M unit :=
  keys <- lift (js_keys formOnly) ;;
  when (0 <? length keys)%nat
    (modify (fun st =>
       set_formData (obj_assign (formData st) (spread formOnly)) st)) ;;
  shouldRestoreFiles <-
    (if wasSession || isFromLocalStorage then ret true
     else if negb wasNormalClose then
       again <- localStorage_getItem (storageKey formId) ;;
       ret (bool_decide (is_Some again))
     else ret false) ;;
  restoreFileData formId options shouldRestoreFiles ;;
  modify (fun st =>
    let hasData := existsb is_data (obj_values (formData st)) in
    let hasFiles :=
      existsb (fun files => (0 <? length files)%nat) (map snd (fileData st)) in
    set_error None (set_hasUnsavedChanges (hasData || hasFiles) st)).

Definition restore_text (crash : bool) : M (value * bool) :=
  sessionResult <- restoreFromSessionStorage formId options ;;
  if snd sessionResult then ret (fst sessionResult, false)
  else if crash then
    localStorageResult <- restoreFromLocalStorage formId options ;;
    if snd localStorageResult
    then ret (fst localStorageResult, true)
    else ret (JObj [], false)
  else ret (JObj [], false).

Lemma restoreData_eq (st : State) :
  restoreData formId options st
  = try_catch
      (restored <- restore_text (isCrashRecovery st) ;;
       restore_tail (sessionExists st) (isNormalClose st)
         (fst restored) (snd restored))
      (fun e =>
         errorMessage <- handleError options e "恢复数据" ;;
         modify (fun st =>
           set_hasUnsavedChanges false (set_error (Some errorMessage) st))) st.
Proof.
  unfold restoreData, restore_text, restore_tail, try_catch, bind,
    sessionStorage_getItem, localStorage_getItem, gets,
    isCrashRecovery, sessionExists, isNormalClose, hasLocalStorageData.
  destruct (restoreFromSessionStorage formId options st) as [[r1|e] st1]; [|reflexivity].
  destruct (snd r1); [reflexivity|].
  match goal with |- context [if ?c then _ else _] => destruct c end; [|reflexivity].
  destruct (restoreFromLocalStorage formId options st1) as [[r2|e] st2]; [|reflexivity].
  destruct (snd r2); reflexivity.
Qed.

Lemma obj_assign_nil (target : obj) : obj_assign target [] = target.
Proof. reflexivity. Qed.

(** The tail merges the restored fields into the form, reads the file
    fields when asked to, and recomputes the flag. *)
Lemma restore_tail_spec (wasSession wasNormalClose : bool) (formOnly : value)
  (isFromLocalStorage : bool) (st : State) :
  nullish formOnly = false ->
  exists st',
    restore_tail wasSession wasNormalClose formOnly isFromLocalStorage st
    = (Ok tt, recomputed st')
    /\ formData st' = obj_assign (formData st) (spread formOnly)
    /\ sessionStorage st' = sessionStorage st
    /\ localStorage st' = localStorage st
    /\ (wasSession || isFromLocalStorage
        || (negb wasNormalClose && hasLocalStorageData st) = false ->
        st' = set_formData (obj_assign (formData st) (spread formOnly)) st).
Proof.
  intros Hn. unfold restore_tail. unfold bind at 1, lift at 1.
  rewrite (js_keys_nonnull _ Hn).
  set (st1 := set_formData (obj_assign (formData st) (spread formOnly)) st).
  assert (E1 : when (0 <? length (obj_keys (spread formOnly)))%nat
                 (modify (fun st => set_formData
                                      (obj_assign (formData st) (spread formOnly)) st)) st
               = (Ok tt, st1)).
  { unfold when, modify, ret, obj_keys. destruct (spread formOnly) as [|kv o] eqn:E.
    - cbn. subst st1. rewrite obj_assign_nil. destruct st; reflexivity.
    - reflexivity. }
  unfold bind at 1. rewrite E1.
  set (should := wasSession || isFromLocalStorage
                 || (negb wasNormalClose && hasLocalStorageData st)).
  assert (E2 : (if wasSession || isFromLocalStorage then ret true
                else if negb wasNormalClose then
                  again <- localStorage_getItem (storageKey formId) ;;
                  ret (bool_decide (is_Some again))
                else ret false) st1 = (Ok should, st1)).
  { subst should. unfold hasLocalStorageData.
    destruct (wasSession || isFromLocalStorage); [reflexivity|].
    destruct wasNormalClose; reflexivity. }
  unfold bind at 1. rewrite E2. unfold bind.
  destruct (restoreFileData_ensures formId options should st1) as ([] & st2 & E3 & _).
  rewrite E3. exists st2.
  pose proof (keeps_restoreFileData formId options should _ _ _ E3) as (Hf & Hs & Hl & _).
  repeat split; auto.
  intros Hfalse. fold should in Hfalse. rewrite Hfalse in E3.
  cbn in E3. injection E3 as <-. reflexivity.
Qed.
End StartupFacts.

(** ** Objects and their JSON image *)



Lemma obj_get_set_eq {A : Type} (k : string) (v : A) (o : list (string * A)) :
  obj_get k (obj_set k v o) = Some v.
Proof.
  induction o as [|[k' v'] o IH]; cbn [obj_set obj_get].
  - rewrite String.eqb_refl. reflexivity.
  - destruct (String.eqb_spec k k') as [->|Hne]; cbn [obj_get].
    + rewrite String.eqb_refl. reflexivity.
    + destruct (String.eqb_spec k k'); [congruence | exact IH].
Qed.

Lemma obj_get_set_ne {A : Type} (k k0 : string) (v : A) (o : list (string * A)) :
  k0 <> k -> obj_get k0 (obj_set k v o) = obj_get k0 o.
Proof.
  intros Hne. induction o as [|[k' v'] o IH]; cbn [obj_set obj_get].
  - destruct (String.eqb_spec k0 k); [congruence | reflexivity].
  - destruct (String.eqb_spec k k') as [->|Hne']; cbn [obj_get].
    + destruct (String.eqb_spec k0 k'); [congruence | reflexivity].
    + destruct (String.eqb_spec k0 k'); [reflexivity | exact IH].
Qed.


Lemma obj_get_elem {A : Type} (k : string) (v : A) (o : list (string * A)) :
  NoDup (map fst o) -> (k, v) ∈ o -> obj_get k o = Some v.
Proof.
  induction o as [|[k' v'] o IH]; cbn [map fst obj_get]; intros Hnd Hin.
  - inversion Hin.
  - apply NoDup_cons in Hnd as [Hk Hnd].
    apply elem_of_cons in Hin as [[= -> ->]|Hin].
    + rewrite String.eqb_refl. reflexivity.
    + destruct (String.eqb_spec k k') as [->|Hne]; [|apply IH; assumption].
      exfalso. apply Hk. apply list_elem_of_fmap. exists (k', v). auto.
Qed.

Lemma obj_get_Some_elem {A : Type} (k : string) (v : A) (o : list (string * A)) :
  obj_get k o = Some v -> (k, v) ∈ o.
Proof.
  induction o as [|[k' v'] o IH]; cbn [obj_get]; [discriminate|].
  destruct (String.eqb_spec k k') as [->|Hne].
  - intros [= ->]. left.
  - intros H. right. apply IH, H.
Qed.





Lemma prop_image_keys (o : obj) : map fst (omap prop_image o) `sublist_of` map fst o.
Proof.
  induction o as [|[k v] o IH]; [constructor|].
  rewrite omap_cons. destruct (undefined_dec v) as [->|Hne].
  - cbn. apply sublist_cons, IH.
  - assert (Ei : prop_image (k, v) = Some (k, json_image v))
      by (destruct v; try reflexivity; congruence).
    rewrite Ei. cbn. apply sublist_skip, IH.
Qed.


Lemma json_image_pure (v : value) : pure v = true -> json_image v = v.
Proof.
  induction v as [ | | b | n | s | l IH | o IH] using value_ind';
    intros Hp; try reflexivity.
  - cbn [json_image pure] in *. f_equal.
    induction IH as [|x l Hx Hl IHl]; [reflexivity|].
    cbn [forallb map] in *. apply andb_true_iff in Hp as [Px Pl].
    rewrite IHl by exact Pl. rewrite <- (Hx Px) at 2.
    destruct x; try reflexivity. discriminate.
  - cbn [json_image pure] in *. f_equal. fold prop_image.
    induction IH as [|[k x] o Hx Ho IHo]; [reflexivity|].
    cbn [forallb snd] in *. apply andb_true_iff in Hp as [Px Po].
    rewrite omap_cons, IHo by exact Po.
    assert (Ei : prop_image (k, x) = Some (k, x)).
    { unfold prop_image. cbn [fst snd]. rewrite (Hx Px).
      destruct x; try reflexivity. discriminate. }
    rewrite Ei. reflexivity.
Qed.

Lemma wf_json_image (v : value) : wf_value v = true -> wf_value (json_image v) = true.
Proof.
  induction v as [ | | b | n | s | l IH | o IH] using value_ind';
    intros Hw; try reflexivity.
  - cbn [json_image wf_value] in *.
    induction IH as [|x l Hx Hl IHl]; [reflexivity|].
    cbn [forallb map] in *. apply andb_true_iff in Hw as [Wx Wl].
    rewrite IHl by exact Wl. rewrite andb_true_r.
    destruct x; try reflexivity; apply (Hx Wx).
  - cbn [json_image wf_value] in *. fold prop_image.
    apply andb_true_iff in Hw as [Hnd Hw]. apply bool_decide_eq_true in Hnd.
    apply andb_true_iff. split.
    + apply bool_decide_eq_true. exact (sublist_NoDup _ _ Hnd (prop_image_keys o)).
    + clear Hnd. induction IH as [|[k x] o Hx Ho IHo]; [reflexivity|].
      cbn [forallb snd] in *. apply andb_true_iff in Hw as [Wx Wo].
      rewrite omap_cons. destruct (undefined_dec x) as [->|Hne]; [apply IHo, Wo|].
      assert (Ei : prop_image (k, x) = Some (k, json_image x))
        by (destruct x; try reflexivity; congruence).
      rewrite Ei. cbn [forallb snd]. rewrite (Hx Wx). apply IHo, Wo.
Qed.

(** [JSON.parse(JSON.stringify(v))] is the JSON image of [v]. *)
Lemma JSON_roundtrip (v : value) :
  v <> JUndefined -> wf_value v = true ->
  exists text, JSON_stringify v = Some text /\ JSON_parse text = Some (json_image v).
Proof.
  intros Hv Hw. destruct (json_image_spec v Hv) as [Es Ep].
  exists (ser_or_null (json_image v)). split.
  - unfold JSON_stringify. rewrite <- Es. apply ser_pure, Ep.
  - apply JSON_parse_print; [exact Ep | apply wf_json_image, Hw].
Qed.





(** ** Saving and restoring without hooks *)

Section PlainFacts.
Variable formId : string.
Variable options : UseFormPersistenceOptions.






Lemma obj_delete_absent {A : Type} (k : string) (o : list (string * A)) :
  obj_get k o = None -> obj_delete k o = o.
Proof.
  induction o as [|[k' v'] o IH]; cbn [obj_get obj_delete]; [reflexivity|].
  destruct (String.eqb_spec k k'); [discriminate|]. intros H. rewrite IH by exact H.
  reflexivity.
Qed.



(** A refresh that accepts the session snapshot. *)
Lemma restoreData_from_session (st : State) (handed : obj) :
  restoreFromSessionStorage formId options st = (Ok (JObj handed, true), st) ->
  exists st',
    restoreData formId options st = (Ok tt, recomputed st')
    /\ formData st' = obj_assign (formData st) handed
    /\ sessionStorage st' = sessionStorage st
    /\ localStorage st' = localStorage st.
Proof.
  intros E. rewrite restoreData_eq. unfold try_catch, bind at 1, restore_text, bind at 1.
  rewrite E. cbn [snd fst ret].
  destruct (restore_tail_spec formId options (sessionExists formId st)
              (isNormalClose formId st) (JObj handed) false st eq_refl)
    as (st' & Et & Hf & Hs & Hl & _).
  rewrite Et. exists st'. auto.
Qed.

(** A crash recovery: the session tier yields nothing, the durable tier
    decides. *)
Lemma restoreData_from_durable (st st1 : State) (formOnly : value) (ok : bool) :
  no_text (sessionStorage st !! sessionKey formId) = true ->
  isCrashRecovery formId st = true ->
  restoreFromLocalStorage formId options st = (Ok (formOnly, ok), st1) ->
  nullish formOnly = false ->
  exists st',
    restoreData formId options st = (Ok tt, recomputed st')
    /\ formData st'
       = obj_assign (formData st1) (spread (if ok then formOnly else JObj []))
    /\ sessionStorage st' = sessionStorage st1
    /\ localStorage st' = localStorage st1.
Proof.
  intros Hs Hc E Hn. rewrite restoreData_eq. unfold try_catch, bind at 1, restore_text, bind at 1.
  rewrite restoreFromSessionStorage_absent by exact Hs. cbn [snd fst]. rewrite Hc.
  unfold bind at 1. rewrite E. cbn [snd fst].
  destruct ok; cbn [ret fst snd].
  - destruct (restore_tail_spec formId options (sessionExists formId st)
                (isNormalClose formId st) formOnly true st1 Hn)
      as (st' & Et & Hf & Hs' & Hl & _).
    rewrite Et. exists st'. auto.
  - destruct (restore_tail_spec formId options (sessionExists formId st)
                (isNormalClose formId st) (JObj []) false st1 eq_refl)
      as (st' & Et & Hf & Hs' & Hl & _).
    rewrite Et. exists st'. auto.
Qed.

(** Neither tier is consulted for text; without session or crash there
    is nothing to restore. *)
Lemma restoreData_nothing (st : State) :
  no_text (sessionStorage st !! sessionKey formId) = true ->
  isCrashRecovery formId st = false ->
  exists st',
    restoreData formId options st = (Ok tt, recomputed st')
    /\ formData st' = formData st
    /\ sessionStorage st' = sessionStorage st
    /\ localStorage st' = localStorage st
    /\ (sessionExists formId st
        || (negb (isNormalClose formId st) && hasLocalStorageData formId st) = false ->
        st' = st).
Proof.
  intros Hs Hc. rewrite restoreData_eq. unfold try_catch, bind at 1, restore_text, bind at 1.
  rewrite restoreFromSessionStorage_absent by exact Hs. cbn [snd fst]. rewrite Hc.
  cbn [ret fst snd].
  destruct (restore_tail_spec formId options (sessionExists formId st)
              (isNormalClose formId st) (JObj []) false st eq_refl)
    as (st' & Et & Hf & Hs' & Hl & Hst).
  rewrite Et. exists st'. repeat split; auto.
  intros Hfalse. rewrite Hst.
  - cbn. destruct st; reflexivity.
  - rewrite orb_false_r. exact Hfalse.
Qed.
End PlainFacts.

(** ** What the text tiers leave alone *)

(** The form-side state: everything but the two text tiers and the trace. *)
Definition same_form (st st' : State) : Prop :=
  formData st' = formData st
  /\ fileData st' = fileData st
  /\ fileStorage st' = fileStorage st
  /\ currentMiddleware st' = currentMiddleware st
  /\ currentFieldTransforms st' = currentFieldTransforms st
  /\ clock st' = clock st.

Lemma same_form_refl (st : State) : same_form st st.
Proof. repeat split. Qed.

Lemma same_form_trans (a b c : State) : same_form a b -> same_form b c -> same_form a c.
Proof.
  unfold same_form. intros (?&?&?&?&?&?) (?&?&?&?&?&?).
  repeat split; congruence.
Qed.

Section TextFrame.
Variable formId : string.
Variable options : UseFormPersistenceOptions.

Local Abbreviation keeps := (preserves same_form).

Ltac frame :=
  repeat first
    [ apply preserves_bind; [apply same_form_trans | | intros ?]
    | apply preserves_try_catch; [apply same_form_trans | | intros ?]
    | apply preserves_ret; apply same_form_refl
    | apply preserves_throw; apply same_form_refl
    | apply preserves_lift; apply same_form_refl
    | apply preserves_gets; apply same_form_refl
    | apply preserves_when
    | apply preserves_modify; intros ?; repeat split ].

Lemma keeps_form_handleError message context :
  keeps (handleError options message context).
Proof. intros st r st' E. rewrite handleError_eq in E. injection E as _ <-. repeat split. Qed.

Lemma keeps_form_field_hooks select failure fields d :
  keeps (field_hooks options select failure fields d).
Proof.
  revert d. induction fields as [|f fields IH]; intros d; cbn [field_hooks]; [frame|].
  apply preserves_bind; [apply same_form_trans | | exact IH].
  unfold field_hook. apply preserves_bind; [apply same_form_trans | frame |].
  intros [mw|]; [|frame]. destruct (select mw); [|frame].
  apply preserves_try_catch; [apply same_form_trans | frame |].
  intros e. apply preserves_bind; [apply same_form_trans | apply keeps_form_handleError|].
  intros _. frame.
Qed.

Lemma keeps_form_global_hook select failure d :
  keeps (global_hook options select failure d).
Proof.
  unfold global_hook. apply preserves_bind; [apply same_form_trans | frame |].
  intros mw. destruct (select mw); [|frame].
  apply preserves_try_catch; [apply same_form_trans | frame |].
  intros e. apply preserves_bind; [apply same_form_trans | apply keeps_form_handleError|].
  intros _. frame.
Qed.

Lemma keeps_form_applyAfterRestoreTransform data :
  keeps (applyAfterRestoreTransform options data).
Proof.
  unfold applyAfterRestoreTransform.
  apply preserves_bind; [apply same_form_trans | apply keeps_form_global_hook |].
  intros d. apply preserves_bind; [apply same_form_trans | frame |].
  intros ks. apply keeps_form_field_hooks.
Qed.

Lemma keeps_form_isDataExpired savedAt : keeps (isDataExpired options savedAt).
Proof. intros st r st' E. rewrite isDataExpired_eq in E. injection E as _ <-. repeat split. Qed.

Lemma keeps_form_restoreFromLocalStorage :
  keeps (restoreFromLocalStorage formId options).
Proof.
  unfold restoreFromLocalStorage.
  apply preserves_try_catch; [apply same_form_trans | |].
  - apply preserves_bind; [apply same_form_trans | frame |].
    intros t. destruct (no_text t); [frame|].
    apply preserves_bind; [apply same_form_trans | |].
    { unfold parse_json. destruct (JSON_parse _); frame. }
    intros parsed. apply preserves_bind; [apply same_form_trans | frame |].
    intros savedAt.
    apply preserves_bind; [apply same_form_trans | apply keeps_form_isDataExpired |].
    intros expired. destruct expired.
    + unfold localStorage_removeItem, emit. frame.
    + apply preserves_bind;
        [apply same_form_trans | apply keeps_form_applyAfterRestoreTransform |].
      intros d. unfold sessionStorage_setItem, emit. frame.
  - intros e. apply preserves_bind; [apply same_form_trans | apply keeps_form_handleError|].
    intros _. frame.
Qed.
End TextFrame.

(** ** Mounting after a clean close *)

Section MountFacts.
Variable formId : string.
Variable options : UseFormPersistenceOptions.

Definition store_usable (st : State) : bool :=
  FileStorage.isInitialized (fileStorage st) || FileStorage.available (fileStorage st).

Definition opened (fs : FileStorage.t) : FileStorage.t :=
  FileStorage.mk (FileStorage.records fs) (FileStorage.nextKey fs)
    (FileStorage.quota fs) (FileStorage.available fs) true.

Lemma FileStorage_init_ok (st : State) :
  store_usable st = true ->
  FileStorage_init st = (Ok tt, set_fileStorage (opened (fileStorage st)) st).
Proof.
  unfold store_usable, FileStorage_init, with_store, opened.
  destruct (fileStorage st) as [recs key q av ini] eqn:E. cbn.
  destruct ini; cbn; intros H.
  - reflexivity.
  - rewrite H. reflexivity.
Qed.

Lemma keeps_reset_fileData : preserves same_text (reset_fileData options).
Proof.
  unfold reset_fileData.
  apply preserves_for_each; try apply same_text_refl; try apply same_text_trans.
  intros field. apply keeps_set_fileData_field.
Qed.

Lemma reset_fileData_ok (st : State) :
  exists st', reset_fileData options st = (Ok tt, st')
              /\ same_text st st' /\ fileStorage st' = fileStorage st.
Proof.
  unfold reset_fileData. generalize (fileFields options). intros l. revert st.
  induction l as [|f l IH]; intros st; cbn [for_each].
  - exists st. repeat split.
  - unfold bind.
    change (set_fileData_field f [] st)
      with (Ok tt, set_fileData (obj_set f [] (fileData st)) st).
    cbv beta iota.
    destruct (IH (set_fileData (obj_set f [] (fileData st)) st)) as (st' & E & Hs & Hf).
    rewrite E. exists st'. split; [reflexivity|]. split; [|exact Hf].
    eapply same_text_trans; [|exact Hs]. repeat split.
Qed.

Lemma cleanNormalCloseData_wipes (st : State) :
  clearOnClose options = true ->
  FileStorage.isInitialized (fileStorage st) = true ->
  exists st',
    cleanNormalCloseData formId options st = (Ok tt, st')
    /\ formData st' = formData st
    /\ sessionStorage st' = delete (sessionKey formId) (sessionStorage st)
    /\ localStorage st'
       = delete (normalCloseKey formId) (delete (storageKey formId) (localStorage st)).
Proof.
  intros Hc Hi. unfold cleanNormalCloseData. rewrite Hc.
  unfold try_catch, bind, sessionStorage_removeItem, localStorage_removeItem,
    bind, modify, emit, modify, FileStorage_clearFiles, with_store.
  cbn. rewrite Hi.
  match goal with
  | |- context [reset_fileData options ?s] =>
      destruct (reset_fileData_ok s) as (st1 & E1 & (Hf1 & Hs1 & Hl1 & _) & _);
      rewrite E1
  end.
  cbn in Hf1, Hs1, Hl1. exists st1. auto.
Qed.

(** With [clearOnClose], a mount that finds the close marker and no
    session wipes the text tiers before anything is restored. *)
Lemma onMounted_clean_slate (st : State) :
  sessionStorage st !! sessionKey formId = None ->
  localStorage st !! normalCloseKey formId = Some "true" ->
  clearOnClose options = true ->
  store_usable st = true ->
  exists st',
    onMounted formId options st = (Ok tt, st')
    /\ formData st' = formData st
    /\ sessionStorage st' !! sessionKey formId = None
    /\ localStorage st' !! storageKey formId = None
    /\ localStorage st' !! normalCloseKey formId = None.
Proof.
  intros Hs Hm Hc Hu. unfold onMounted, try_catch.
  unfold bind at 1. rewrite FileStorage_init_ok by exact Hu.
  unfold bind at 1, sessionStorage_getItem at 1, gets at 1.
  unfold bind at 1, localStorage_getItem at 1, gets at 1.
  cbn [sessionStorage localStorage set_fileStorage]. rewrite Hs, Hm, Hc.
  rewrite bool_decide_eq_false_2 by (intros [? ?]; discriminate).
  rewrite bool_decide_eq_true_2 by reflexivity. cbn [negb andb].
  unfold bind at 1. unfold bind at 1.
  unfold localStorage_removeItem at 1, bind at 1, modify at 1, emit, modify.
  cbv beta iota.
  match goal with
  | |- context [cleanNormalCloseData formId options ?s] =>
      destruct (cleanNormalCloseData_wipes s Hc eq_refl)
        as (st1 & E1 & Hf1 & Hs1 & Hl1);
      rewrite E1
  end.
  cbn in Hf1, Hs1, Hl1.
  assert (Hn1 : no_text (sessionStorage st1 !! sessionKey formId) = true).
  { rewrite Hs1, lookup_delete_eq. reflexivity. }
  assert (Hk1 : localStorage st1 !! storageKey formId = None).
  { rewrite Hl1. rewrite lookup_delete_ne
      by (intros H; symmetry in H; exact (storageKey_ne_normalCloseKey formId H)).
    apply lookup_delete_eq. }
  assert (Hm1 : localStorage st1 !! normalCloseKey formId = None).
  { rewrite Hl1. apply lookup_delete_eq. }
  assert (Hc1 : isCrashRecovery formId st1 = false).
  { unfold isCrashRecovery, hasLocalStorageData. rewrite Hk1.
    rewrite (bool_decide_eq_false_2 (is_Some None)) by (intros [? ?]; discriminate).
    rewrite andb_false_r. reflexivity. }
  destruct (restoreData_nothing formId options st1 Hn1 Hc1)
    as (st2 & E2 & Hf2 & Hs2 & Hl2 & _).
  cbv beta iota. unfold bind at 1. rewrite E2. cbn [negb when].
  unfold bind, modify. cbv beta iota.
  eexists. split; [reflexivity|].
  cbn. rewrite Hf2, Hs2, Hl2. repeat split.
  - exact Hf1.
  - rewrite Hs1. apply lookup_delete_eq.
  - rewrite lookup_delete_ne
      by (intros H; symmetry in H; exact (storageKey_ne_normalCloseKey formId H)).
    exact Hk1.
  - apply lookup_delete_eq.
Qed.
End MountFacts.

(** ** Example hooks: upper case for a field, a suffix for the whole form *)

Definition upper_char (c : ascii) : ascii :=
  let n := nat_of_ascii c in
  if ((97 <=? n) && (n <=? 122))%nat then ascii_of_nat (n - 32) else c.

Definition lower_char (c : ascii) : ascii :=
  let n := nat_of_ascii c in
  if ((65 <=? n) && (n <=? 90))%nat then ascii_of_nat (n + 32) else c.

Fixpoint map_chars (f : ascii -> ascii) (s : string) : string :=
  match s with
  | EmptyString => EmptyString
  | String c s' => String (f c) (map_chars f s')
  end.

Definition on_string (f : string -> string) (v : value) : value :=
  match v with
  | JStr s => JStr (f s)
  | _ => v
  end.

Definition on_fields (f : value -> value) (v : value) : value :=
  match v with
  | JObj o => JObj (map (fun kv => (fst kv, f (snd kv))) o)
  | _ => v
  end.

Definition strip_suffix (suffix s : string) : string :=
  let n := (String.length s - String.length suffix)%nat in
  if String.eqb (String.substring n (String.length suffix) s) suffix
  then String.substring 0 n s else s.

Definition uppercase_field : DataTransformMiddleware :=
  {| beforeSave := Some (fun v => Ok (on_string (map_chars upper_char) v));
     afterRestore := Some (fun v => Ok (on_string (map_chars lower_char) v)) |}.

Definition suffix_all : DataTransformMiddleware :=
  {| beforeSave :=
       Some (fun v => Ok (on_fields (on_string (fun s => s +:+ "_SUFFIX")) v));
     afterRestore :=
       Some (fun v => Ok (on_fields (on_string (strip_suffix "_SUFFIX")) v)) |}.

Definition example_options : UseFormPersistenceOptions :=
  {| fileFields := [];
     clearOnClose := false;
     dataExpiryMs := DEFAULT_DATA_EXPIRY_MS;
     errorLevel := DEFAULT_ERROR_LEVEL;
     onError := true;
     transformMiddleware := suffix_all;
     fieldTransforms := {[ "name" := uppercase_field ]} |}.

Definition empty_store : FileStorage.t := FileStorage.mk [] 1 None true false.

Definition example_state : State :=
  initial_state example_options [("name", JStr "x")] ∅ ∅ empty_store 1700000000000.

(** ** Scenarios *)

Definition plain_options : UseFormPersistenceOptions := default_options ["avatar"].

Definition clearing_options : UseFormPersistenceOptions :=
  {| fileFields := ["avatar"];
     clearOnClose := true;
     dataExpiryMs := DEFAULT_DATA_EXPIRY_MS;
     errorLevel := DEFAULT_ERROR_LEVEL;
     onError := false;
     transformMiddleware := {| beforeSave := None; afterRestore := None |};
     fieldTransforms := ∅ |}.

Definition blank_form : obj := [("name", JStr EmptyString); ("tags", JArr [])].

Definition t0 : Z := 1700000000000.

(** A first visit: mount on empty tiers, then type a name. *)
Definition fresh (options : UseFormPersistenceOptions) : State :=
  initial_state options blank_form ∅ ∅ empty_store t0.

Definition edited (options : UseFormPersistenceOptions) : State :=
  run (onFormMutation "f1" options "name" (JStr "Ada"))
      (run (onMounted "f1" options) (fresh options)).

(** The page is hidden and the queued mirror task runs: a normal close. *)
Definition closed (options : UseFormPersistenceOptions) : State :=
  run (run_timers "f1")
      (run (handlePageClose "f1" options)
           (set_visibilityState hidden (edited options))).

(** A new process: the session tier is gone, the durable tier is what the
    previous process left. *)
Definition reopened (options : UseFormPersistenceOptions)
  (previous : State) (now : Z) : State :=
  initial_state options blank_form ∅ (localStorage previous) empty_store now.

Definition crashed : State := reopened plain_options (edited plain_options) (t0 + 5000).
Definition restarted : State := reopened plain_options (closed plain_options) (t0 + 5000).
Definition restarted_clearing : State :=
  reopened clearing_options (closed clearing_options) (t0 + 5000).

Definition durable_text (st : State) : string :=
  default EmptyString (localStorage st !! storageKey "f1").

Definition session_text (st : State) : string :=
  default EmptyString (sessionStorage st !! sessionKey "f1").




(** A form JSON can carry. *)
Definition sample_form : obj :=
  [("name", JStr "Ada"); ("age", JNum 36); ("nick", JNull);
   ("tags", JArr [JStr "a"; JBool true]); ("extra", JUndefined)].

Definition sample_state : State :=
  initial_state plain_options sample_form ∅ ∅ empty_store t0.

Definition saved_sample : State := run (saveTextData "f1" plain_options) sample_state.

(** The snapshot of [sample_form] as the parser reads it back. *)
Definition sample_snapshot : obj :=
  [("name", JStr "Ada"); ("age", JNum 36); ("nick", JNull);
   ("tags", JArr [JStr "a"; JBool true]); ("savedAt", JStr (toISOString t0))].

(** The same process one millisecond after, and one millisecond before,
    the snapshot reaches the age [dataExpiryMs]. *)
Definition stale_sample : State :=
  set_clock (t0 + DEFAULT_DATA_EXPIRY_MS + 1) saved_sample.

Definition recent_sample : State :=
  set_clock (t0 + DEFAULT_DATA_EXPIRY_MS - 1) saved_sample.

(** A session tier holding a snapshot without a time stamp, read ten
    years after the epoch of [t0]. *)
Definition unstamped : obj := [("name", JStr "Ada")].

Definition unstamped_state : State :=
  initial_state plain_options blank_form
    {[ sessionKey "f1" := default EmptyString (JSON_stringify (JObj unstamped)) ]}
    ∅ empty_store
    (t0 + 315360000000).

(** Hooks that throw. *)
Definition failing : DataTransformMiddleware :=
  {| beforeSave := Some (fun _ => Throw "boom");
     afterRestore := Some (fun _ => Throw "boom") |}.

Definition failing_options : UseFormPersistenceOptions :=
  {| fileFields := [];
     clearOnClose := false;
     dataExpiryMs := DEFAULT_DATA_EXPIRY_MS;
     errorLevel := DEFAULT_ERROR_LEVEL;
     onError := true;
     transformMiddleware := suffix_all;
     fieldTransforms := {[ "name" := failing; "city" := uppercase_field ]} |}.

Definition failing_state : State :=
  initial_state failing_options [("name", JStr "x"); ("city", JStr "y")]
    ∅ ∅ empty_store t0.

(** Files. *)
Definition fileA : File.t := File.mk "a.png" "image/png" 3 1699999999000 (Some "abc").
Definition fileB : File.t := File.mk "b.png" "image/png" 4 1699999999500 (Some "defg").
Definition unreadable : File.t := File.mk "c.png" "image/png" 5 1699999999700 None.

Definition mounted : State := run (onMounted "f1" plain_options) (fresh plain_options).

(** An open store that holds five bytes at most. *)
Definition tight : State :=
  set_fileStorage (FileStorage.mk [] 1 (Some 5) true true) mounted.
Definition with_A : State := run (saveFiles "f1" plain_options "avatar" [fileA]) mounted.
Definition with_B : State := run (saveFiles "f1" plain_options "avatar" [fileB]) with_A.

Section HookFacts.
Variable options : UseFormPersistenceOptions.

Lemma obj_get_transform_fields F (select : Selector) (k : string) (x : value) (o : obj) :
  obj_get k o = Some x ->
  obj_get k (transform_fields F select o)
  = Some (hook_value (F !! k ≫= select) x).
Proof.
  unfold transform_fields.
  induction o as [|[k' v'] o IH]; cbn [obj_get map fst snd]; [discriminate|].
  destruct (String.eqb_spec k k') as [->|Hne].
  - intros [= ->]. reflexivity.
  - exact IH.
Qed.

Lemma transform_fields_keys F (select : Selector) (o : obj) :
  obj_keys (transform_fields F select o) = obj_keys o.
Proof.
  unfold obj_keys, transform_fields. rewrite map_map. reflexivity.
Qed.

Lemma field_reports_elem F (select : Selector) failure (k : string) (x : value)
  (o : obj) (ev : Event) :
  (k, x) ∈ o ->
  ev ∈ hook_reports options (F !! k ≫= select) (field_context k failure) x ->
  ev ∈ field_reports options F select failure o.
Proof.
  intros Hin Hev. unfold field_reports. apply list_elem_of_In, in_flat_map.
  exists (k, x). split; apply list_elem_of_In; assumption.
Qed.
End HookFacts.

(** ** The blob store *)

Lemma filter_all {A : Type} (P : A -> Prop) `{forall x, Decision (P x)} (l : list A) :
  (forall x, x ∈ l -> P x) -> filter P l = l.
Proof.
  induction l as [|x l IH]; intros Hl; [reflexivity|].
  rewrite filter_cons_True by (apply Hl; left). f_equal. apply IH.
  intros y Hy. apply Hl. right. exact Hy.
Qed.

Lemma filter_none {A : Type} (P : A -> Prop) `{forall x, Decision (P x)} (l : list A) :
  (forall x, x ∈ l -> ~ P x) -> filter P l = [].
Proof.
  induction l as [|x l IH]; intros Hl; [reflexivity|].
  rewrite filter_cons_False by (apply Hl; left). apply IH.
  intros y Hy. apply Hl. right. exact Hy.
Qed.

Section BlobFacts.
Variable formId : string.
Variable options : UseFormPersistenceOptions.
Variable field : string.

(** The record the store keeps for a file of this form and field. *)
Definition stored_as (file : File.t) (rec : StoredFile.t) : Prop :=
  StoredFile.formId rec = formId
  /\ StoredFile.fieldName rec = field
  /\ StoredFile.fileName rec = File.name file
  /\ StoredFile.fileType rec = File.type file
  /\ StoredFile.fileSize rec = File.size file
  /\ StoredFile.lastModified rec = File.lastModified file
  /\ File.content file = Some (StoredFile.data rec).

(** The records of this form and field, as [getFiles] lists them. *)
Definition records_of (st : State) : list StoredFile.t :=
  filter (fun f => matches formId field f = true)
    (FileStorage.records (fileStorage st)).

Definition initialized (st : State) : bool :=
  FileStorage.isInitialized (fileStorage st).

(** Only the store and the progress indicator may differ. *)
Definition blob_frame (st st' : State) : Prop :=
  st' = set_uploadProgress (uploadProgress st') (set_fileStorage (fileStorage st') st).

Lemma blob_frame_refl (st : State) : blob_frame st st.
Proof. unfold blob_frame. destruct st; reflexivity. Qed.

Lemma blob_frame_trans (a b c : State) : blob_frame a b -> blob_frame b c -> blob_frame a c.
Proof. unfold blob_frame. intros H1 H2. rewrite H2, H1. reflexivity. Qed.

Lemma getFiles_eq (st : State) :
  initialized st = true ->
  FileStorage_getFiles formId field st = (Ok (records_of st), st).
Proof.
  unfold initialized, FileStorage_getFiles, with_store, records_of. intros ->.
  destruct st; reflexivity.
Qed.

Lemma getFiles_closed (st : State) :
  initialized st = false ->
  FileStorage_getFiles formId field st = (Throw "数据库未初始化", st).
Proof.
  unfold initialized, FileStorage_getFiles, with_store. intros ->.
  destruct st; reflexivity.
Qed.

(** Deleting by key the records listed in [old]. *)
Lemma delete_each (old : list StoredFile.t) (st : State) :
  exists st',
    for_each old (fun oldFile => store_delete (StoredFile.fileId oldFile)) st
    = (Ok tt, st')
    /\ blob_frame st st'
    /\ uploadProgress st' = uploadProgress st
    /\ initialized st' = initialized st
    /\ (forall r, r ∈ FileStorage.records (fileStorage st') ->
          r ∈ FileStorage.records (fileStorage st)
          /\ forall o, o ∈ old -> StoredFile.fileId r <> StoredFile.fileId o).
Proof.
  revert st. induction old as [|o old IH]; intros st; cbn [for_each].
  - exists st. repeat split; [apply blob_frame_refl | assumption | inversion 1].
  - unfold bind, store_delete at 1, with_store. cbv beta iota.
    destruct (IH (set_fileStorage
                    (set_records
                       (filter (fun f => negb (StoredFile.fileId f =? StoredFile.fileId o) = true)
                          (FileStorage.records (fileStorage st))) (fileStorage st)) st))
      as (st' & E & Hfr & Hu & Hi & Hr).
    rewrite E. exists st'. split; [reflexivity|].
    split; [|split; [exact Hu | split; [exact Hi|]]].
    + eapply blob_frame_trans; [|exact Hfr]. unfold blob_frame. destruct st; reflexivity.
    + intros r Hin. destruct (Hr r Hin) as [Hin' Hold].
      cbn [fileStorage set_fileStorage set_records FileStorage.records] in Hin'.
      apply list_elem_of_filter in Hin' as [Hne Hin']. split; [exact Hin'|].
      intros o' Ho'. apply elem_of_cons in Ho' as [->|Ho']; [|apply Hold, Ho'].
      apply negb_true_iff, Z.eqb_neq in Hne. exact Hne.
Qed.

Lemma deleteOldFiles_ok (st : State) :
  initialized st = true ->
  exists st',
    deleteOldFiles formId field st = (Ok tt, st')
    /\ blob_frame st st'
    /\ uploadProgress st' = uploadProgress st
    /\ initialized st' = true
    /\ records_of st' = [].
Proof.
  intros Hi. unfold deleteOldFiles, try_catch, bind at 1.
  rewrite getFiles_eq by exact Hi.
  destruct (length (records_of st) =? 0)%nat eqn:El.
  - exists st. split; [reflexivity|]. split; [apply blob_frame_refl|].
    repeat split; auto. apply Nat.eqb_eq in El. apply nil_length_inv, El.
  - unfold bind at 1, gets. fold (initialized st). rewrite Hi. cbn [negb].
    destruct (delete_each (records_of st) st) as (st' & E & Hfr & Hu & Hi' & Hr).
    rewrite E. exists st'. split; [reflexivity|]. split; [exact Hfr|].
    split; [exact Hu|]. split; [congruence|].
    unfold records_of at 1. apply filter_none. intros r Hin Hm.
    destruct (Hr r Hin) as [Hin' Hold]. apply (Hold r); [|reflexivity].
    unfold records_of. apply list_elem_of_filter. auto.
Qed.

Lemma deleteOldFiles_closed (st : State) :
  initialized st = false ->
  deleteOldFiles formId field st
  = (Throw "删除旧文件失败: 数据库未初始化", st).
Proof.
  intros Hi. unfold deleteOldFiles, try_catch, bind at 1.
  rewrite getFiles_closed by exact Hi. reflexivity.
Qed.

Definition next_key (st : State) : Z := FileStorage.nextKey (fileStorage st).

(** The keys of this field's records lie below the key generator. *)
Definition keys_below (st : State) : Prop :=
  forall r, r ∈ records_of st -> StoredFile.fileId r < next_key st.

Lemma find_last (l : list StoredFile.t) (rec : StoredFile.t) :
  (forall r, r ∈ l -> StoredFile.fileId r < StoredFile.fileId rec) ->
  find (fun f => StoredFile.fileId f =? StoredFile.fileId rec) (l ++ [rec]) = Some rec.
Proof.
  induction l as [|x l IH]; intros H; cbn [app find].
  - rewrite Z.eqb_refl. reflexivity.
  - pose proof (H x ltac:(left)) as Hx.
    destruct (Z.eqb_spec (StoredFile.fileId x) (StoredFile.fileId rec)); [lia|].
    apply IH. intros r Hr. apply H. right. exact Hr.
Qed.

Lemma saveSingleFile_spec (file : File.t) (totalSize loadedSize : Z) (st : State) :
  initialized st = true ->
  keys_below st ->
  exists st',
    blob_frame st st' /\ initialized st' = true /\ keys_below st'
    /\ ((exists e,
            saveSingleFile formId file field totalSize loadedSize st = (Throw e, st')
            /\ records_of st' = records_of st)
        \/ (exists rec,
               saveSingleFile formId file field totalSize loadedSize st = (Ok rec, st')
               /\ stored_as file rec
               /\ records_of st' = records_of st ++ [rec])).
Proof.
  intros Hi Hk.
  destruct (saveSingleFile formId file field totalSize loadedSize st) as [r st0] eqn:E.
  unfold saveSingleFile, bind at 1, FileStorage_saveFile, bind at 1, gets at 1 in E.
  fold (initialized st) in E. rewrite Hi in E. cbn [negb] in E.
  destruct (File.content file) as [buffer|] eqn:Ec.
  2: { injection E as <- <-.
       exists st. split; [apply blob_frame_refl|]. split; [exact Hi|]. split; [exact Hk|].
       left. exists "NotReadableError". split; reflexivity. }
  unfold bind at 1, modify at 1 in E. unfold bind at 1, Date_now, gets in E.
  cbv beta iota in E. unfold with_store in E.
  cbn [fileStorage set_uploadProgress clock] in E.
  destruct (over_quota (fileStorage st) buffer) eqn:Eq.
  - injection E as <- <-.
    eexists. split; [|split; [|split; [|left; eexists; split; [reflexivity|]]]].
    + unfold blob_frame. destruct st; reflexivity.
    + exact Hi.
    + exact Hk.
    + reflexivity.
  - set (key := FileStorage.nextKey (fileStorage st)) in *.
    set (rec := StoredFile.mk key formId field (File.name file) (File.type file)
                  (File.size file) (File.lastModified file) buffer
                  (toISOString (clock st))) in *.
    unfold bind in E.
    match type of E with
    | context [FileStorage_getFiles formId field ?s] => set (st' := s) in *
    end.
    assert (Hi' : initialized st' = true) by exact Hi.
    assert (Hm : matches formId field rec = true).
    { unfold matches, rec. cbn. rewrite !String.eqb_refl. reflexivity. }
    assert (Hr : records_of st' = records_of st ++ [rec]).
    { unfold records_of, st'. cbn [fileStorage set_fileStorage FileStorage.records].
      rewrite filter_app, filter_cons_True by exact Hm. reflexivity. }
    rewrite (getFiles_eq st' Hi'), Hr in E.
    change key with (StoredFile.fileId rec) in E at 1.
    rewrite (find_last (records_of st) rec) in E by (intros r0 Hin; apply (Hk r0 Hin)).
    injection E as <- <-.
    exists st'. split; [|split; [exact Hi'|split]].
    + unfold blob_frame, st'. destruct st; reflexivity.
    + intros r0 Hin. rewrite Hr in Hin. unfold next_key, st'.
      cbn [fileStorage set_fileStorage FileStorage.nextKey]. fold key.
      apply elem_of_app in Hin as [Hin|Hin].
      * pose proof (Hk r0 Hin) as Hlt. unfold next_key in Hlt. fold key in Hlt. lia.
      * apply list_elem_of_singleton in Hin as ->. cbn. lia.
    + right. exists rec. split; [reflexivity|]. split; [|exact Hr].
      repeat split; auto.
Qed.

(** The loop over the files: on success every file has its record, in
    order; on failure exactly the files before the failing one have. *)
Lemma save_each_spec (files : list File.t) :
  forall (done : list File.t) (newFiles : list StoredFile.t)
         (totalSize loadedSize : Z) (st : State),
    initialized st = true ->
    keys_below st ->
    records_of st = newFiles ->
    Forall2 stored_as done newFiles ->
    exists st',
      blob_frame st st' /\ initialized st' = true
      /\ ((exists out,
              save_each formId files field totalSize loadedSize newFiles st = (Ok out, st')
              /\ records_of st' = out
              /\ Forall2 stored_as (done ++ files) out)
          \/ (exists e k,
                 save_each formId files field totalSize loadedSize newFiles st
                 = (Throw e, st')
                 /\ (k < length files)%nat
                 /\ Forall2 stored_as (done ++ take k files) (records_of st'))).
Proof.
  induction files as [|file files IH]; intros done newFiles totalSize loadedSize st Hi Hk Hr Hd.
  - exists st. split; [apply blob_frame_refl|]. split; [exact Hi|].
    left. exists newFiles. rewrite app_nil_r. auto.
  - cbn [save_each]. unfold bind.
    destruct (saveSingleFile_spec file totalSize loadedSize st Hi Hk)
      as (st1 & Hf1 & Hi1 & Hk1 & [(e & E & Hr1) | (rec & E & Hs & Hr1)]); rewrite E.
    + exists st1. split; [exact Hf1|]. split; [exact Hi1|].
      right. exists e, 0%nat. split; [reflexivity|]. split; [cbn; lia|].
      rewrite take_0, app_nil_r, Hr1, Hr. exact Hd.
    + destruct (IH (done ++ [file]) (newFiles ++ [rec]) totalSize
                  (loadedSize + File.size file) st1 Hi1 Hk1)
        as (st' & Hf & Hi' & Hcase).
      * rewrite Hr1, Hr. reflexivity.
      * apply Forall2_app; [exact Hd | constructor; [exact Hs | constructor]].
      * exists st'. split; [eapply blob_frame_trans; eassumption|]. split; [exact Hi'|].
        destruct Hcase as [(out & E' & Hro & Ho) | (e & k & E' & Hlt & Ho)].
        -- left. exists out. rewrite <- app_assoc in Ho. auto.
        -- right. exists e, (S k). split; [exact E'|]. split; [cbn; lia|].
           cbn [take]. rewrite <- app_assoc in Ho. exact Ho.
Qed.
End BlobFacts.


Section SaveFilesFacts.
Variable formId : string.
Variable options : UseFormPersistenceOptions.
Variable field : string.

(** The state the catch block of [saveFiles] leaves. *)
Definition failed (e : string) (st : State) : State :=
  set_uploadProgress None
    (set_error (Some ("保存文件: " +:+ e))
       (set_trace (trace st ++ reports options e "保存文件") st)).

(** The state a completed [saveFiles] leaves. *)
Definition files_saved (newFiles : list StoredFile.t) (st : State) : State :=
  set_uploadProgress None
    (set_hasUnsavedChanges true
       (set_fileData (obj_set field newFiles (fileData st)) st)).

Definition begun (st : State) : State := set_uploadProgress None (set_error None st).

Definition invalid_arguments (files : list File.t) : bool :=
  String.eqb field "" || (length files =? 0)%nat.

Lemma invalid_arguments_iff (files : list File.t) :
  invalid_arguments files = true <-> field = "" \/ files = [].
Proof.
  unfold invalid_arguments. rewrite orb_true_iff, String.eqb_eq, Nat.eqb_eq.
  split; (intros [H|H]; [left; exact H | right]).
  - apply nil_length_inv, H.
  - rewrite H. reflexivity.
Qed.

Lemma blob_frame_fileData (st st' : State) : blob_frame st st' -> fileData st' = fileData st.
Proof. intros ->. reflexivity. Qed.

Lemma blob_frame_formData (st st' : State) : blob_frame st st' -> formData st' = formData st.
Proof. intros ->. reflexivity. Qed.

(** Every way a call of [saveFiles] can go. *)
Lemma saveFiles_cases (files : list File.t) (st : State) :
  (invalid_arguments files = true
   /\ saveFiles formId options field files st
      = (Throw "无效的文件保存参数", failed "无效的文件保存参数" (begun st)))
  \/ (invalid_arguments files = false /\ initialized st = false
      /\ saveFiles formId options field files st
         = (Throw "删除旧文件失败: 数据库未初始化",
            failed "删除旧文件失败: 数据库未初始化" (begun st)))
  \/ (invalid_arguments files = false /\ initialized st = true
      /\ exists st2,
          blob_frame (begun st) st2
          /\ initialized st2 = true
          /\ ((exists e k,
                  saveFiles formId options field files st = (Throw e, failed e st2)
                  /\ (k < length files)%nat
                  /\ Forall2 (stored_as formId field) (take k files)
                       (records_of formId field st2))
              \/ (saveFiles formId options field files st
                  = (Ok tt, files_saved (records_of formId field st2) st2)
                  /\ Forall2 (stored_as formId field) files
                       (records_of formId field st2)))).
Proof.
  assert (Hcatch : forall e s,
             (errorMessage <- handleError options e "保存文件" ;;
              modify (set_error (Some errorMessage)) ;;
              modify (set_uploadProgress None) ;;
              @throw unit e) s = (Throw e, failed e s)).
  { intros e s. unfold bind. rewrite handleError_eq. reflexivity. }
  destruct (saveFiles formId options field files st) as [r stf] eqn:E.
  unfold saveFiles, try_catch in E.
  unfold bind at 1, modify at 1 in E. unfold bind at 1, modify at 1 in E.
  cbv beta iota in E.
  fold (begun st) in E. fold (invalid_arguments files) in E.
  destruct (invalid_arguments files) eqn:Ev.
  - left. split; [reflexivity|]. unfold bind at 1, throw at 1 in E. cbv beta iota in E.
    rewrite Hcatch in E. exact (eq_sym E).
  - right. unfold bind at 1, ret at 1 in E. cbv beta iota in E.
    destruct (initialized (begun st)) eqn:Hi.
    + right. split; [reflexivity|]. split; [exact Hi|].
      destruct (deleteOldFiles_ok formId field (begun st) Hi)
        as (st1 & E1 & Hf1 & _ & Hi1 & Hr1).
      unfold bind at 1 in E. rewrite E1 in E.
      assert (Hk1 : keys_below formId field st1).
      { intros r0 Hin. rewrite Hr1 in Hin. inversion Hin. }
      destruct (save_each_spec formId field files [] []
                  (foldl (fun sum file => sum + File.size file) 0 files) 0 st1
                  Hi1 Hk1 Hr1 ltac:(constructor))
        as (st2 & Hf2 & Hi2 & [(out & E2 & Hr2 & Ho) | (e & k & E2 & Hlt & Ho)]).
      * exists st2. split; [eapply blob_frame_trans; eassumption|].
        split; [exact Hi2|]. right.
        unfold bind at 1 in E. rewrite E2 in E. cbn [app] in Ho. rewrite Hr2.
        split; [rewrite <- E; reflexivity | exact Ho].
      * exists st2. split; [eapply blob_frame_trans; eassumption|].
        split; [exact Hi2|]. left.
        exists e, k. unfold bind at 1 in E. rewrite E2 in E. cbn [app] in Ho.
        rewrite Hcatch in E. split; [exact (eq_sym E)|]. auto.
    + left. split; [reflexivity|]. split; [exact Hi|].
      unfold bind at 1 in E. rewrite deleteOldFiles_closed in E by exact Hi.
      rewrite Hcatch in E. exact (eq_sym E).
Qed.
End SaveFilesFacts.

Section RefusalFacts.
Variable formId : string.
Variable options : UseFormPersistenceOptions.
Variable field : string.

Definition quota_of (st : State) : option Z := FileStorage.quota (fileStorage st).
Definition used_of (st : State) : Z := used_bytes (fileStorage st).

(** The bytes a file adds to the store. *)
Definition payload (file : File.t) : Z :=
  Z.of_nat (String.length (default "" (File.content file))).

(** Why the store refuses a file when [used] bytes are taken: the
    file cannot be read, or it does not fit into what the quota
    leaves. *)
Definition refusal (quota : option Z) (used : Z) (file : File.t) : option string :=
  match File.content file with
  | None => Some "NotReadableError"
  | Some _ =>
      match quota with
      | Some q =>
          if q <? used + payload file then Some "事务错误: QuotaExceededError"
          else None
      | None => None
      end
  end.

(** The first file of the list that is refused, with its position and
    its error, the files before it being stored. *)
Fixpoint first_refusal (quota : option Z) (used : Z) (files : list File.t) :
  option (nat * string) :=
  match files with
  | [] => None
  | file :: rest =>
      match refusal quota used file with
      | Some e => Some (0%nat, e)
      | None =>
          match first_refusal quota (used + payload file) rest with
          | Some (k, e) => Some (S k, e)
          | None => None
          end
      end
  end.

Lemma used_bytes_snoc (l : list StoredFile.t) (rec : StoredFile.t) (acc : Z) :
  foldr (fun f acc => Z.of_nat (String.length (StoredFile.data f)) + acc) acc (l ++ [rec])
  = foldr (fun f acc => Z.of_nat (String.length (StoredFile.data f)) + acc) acc l
    + Z.of_nat (String.length (StoredFile.data rec)).
Proof. induction l as [|x l IH]; cbn [app foldr]; [lia | rewrite IH; lia]. Qed.

Lemma refusal_over_quota (file : File.t) (buffer : string) (st : State) :
  File.content file = Some buffer ->
  refusal (quota_of st) (used_of st) file
  = if over_quota (fileStorage st) buffer
    then Some "事务错误: QuotaExceededError" else None.
Proof.
  intros Ec. unfold refusal, payload, over_quota, quota_of, used_of. rewrite Ec.
  cbn [default]. destruct (FileStorage.quota (fileStorage st)); reflexivity.
Qed.

(** One file: it is refused with the error [refusal] names and the
    store stays as it was, or its record is appended. *)
Lemma saveSingleFile_outcome (file : File.t) (totalSize loadedSize : Z) (st : State) :
  initialized st = true ->
  keys_below formId field st ->
  match refusal (quota_of st) (used_of st) file with
  | Some e =>
      exists st',
        saveSingleFile formId file field totalSize loadedSize st = (Throw e, st')
        /\ blob_frame st st'
        /\ fileStorage st' = fileStorage st
  | None =>
      exists rec st',
        saveSingleFile formId file field totalSize loadedSize st = (Ok rec, st')
        /\ stored_as formId field file rec
        /\ records_of formId field st' = records_of formId field st ++ [rec]
        /\ blob_frame st st' /\ initialized st' = true /\ keys_below formId field st'
        /\ quota_of st' = quota_of st
        /\ used_of st' = used_of st + payload file
  end.
Proof.
  intros Hi Hk.
  destruct (saveSingleFile formId file field totalSize loadedSize st) as [r st0] eqn:E.
  unfold saveSingleFile, bind at 1, FileStorage_saveFile, bind at 1, gets at 1 in E.
  fold (initialized st) in E. rewrite Hi in E. cbn [negb] in E.
  destruct (File.content file) as [buffer|] eqn:Ec.
  2: { injection E as <- <-. unfold refusal. rewrite Ec.
       exists st. split; [reflexivity|]. split; [apply blob_frame_refl | reflexivity]. }
  rewrite (refusal_over_quota file buffer st Ec).
  unfold bind at 1, modify at 1 in E. unfold bind at 1, Date_now, gets in E.
  cbv beta iota in E. unfold with_store in E.
  cbn [fileStorage set_uploadProgress clock] in E.
  destruct (over_quota (fileStorage st) buffer) eqn:Eq.
  - injection E as <- <-.
    eexists. split; [reflexivity|]. split; [|reflexivity].
    unfold blob_frame. destruct st; reflexivity.
  - set (key := FileStorage.nextKey (fileStorage st)) in *.
    set (rec := StoredFile.mk key formId field (File.name file) (File.type file)
                  (File.size file) (File.lastModified file) buffer
                  (toISOString (clock st))) in *.
    unfold bind in E.
    match type of E with
    | context [FileStorage_getFiles formId field ?s] => set (st' := s) in *
    end.
    assert (Hi' : initialized st' = true) by exact Hi.
    assert (Hm : matches formId field rec = true).
    { unfold matches, rec. cbn. rewrite !String.eqb_refl. reflexivity. }
    assert (Hr : records_of formId field st' = records_of formId field st ++ [rec]).
    { unfold records_of, st'. cbn [fileStorage set_fileStorage FileStorage.records].
      rewrite filter_app, filter_cons_True by exact Hm. reflexivity. }
    rewrite (getFiles_eq formId field st' Hi'), Hr in E.
    change key with (StoredFile.fileId rec) in E at 1.
    rewrite (find_last (records_of formId field st) rec) in E
      by (intros r0 Hin; apply (Hk r0 Hin)).
    injection E as <- <-.
    exists rec, st'. split; [reflexivity|].
    split; [repeat split; auto|]. split; [exact Hr|].
    split; [unfold blob_frame, st'; destruct st; reflexivity|].
    split; [exact Hi'|]. split; [|split].
    + intros r0 Hin. rewrite Hr in Hin. unfold next_key, st'.
      cbn [fileStorage set_fileStorage FileStorage.nextKey]. fold key.
      apply elem_of_app in Hin as [Hin|Hin].
      * pose proof (Hk r0 Hin) as Hlt. unfold next_key in Hlt. fold key in Hlt. lia.
      * apply list_elem_of_singleton in Hin as ->. cbn. lia.
    + reflexivity.
    + unfold used_of, used_bytes, st', payload. rewrite Ec.
      cbn [fileStorage set_fileStorage FileStorage.records default].
      rewrite used_bytes_snoc. reflexivity.
Qed.

(** The loop stops at the first refused file and throws its error. *)
Lemma save_each_outcome (files : list File.t) :
  forall (done : list File.t) (newFiles : list StoredFile.t)
         (totalSize loadedSize : Z) (st : State),
    initialized st = true ->
    keys_below formId field st ->
    records_of formId field st = newFiles ->
    Forall2 (stored_as formId field) done newFiles ->
    match first_refusal (quota_of st) (used_of st) files with
    | Some (k, e) =>
        exists st',
          save_each formId files field totalSize loadedSize newFiles st = (Throw e, st')
          /\ blob_frame st st'
          /\ (k < length files)%nat
          /\ Forall2 (stored_as formId field) (done ++ take k files)
               (records_of formId field st')
    | None =>
        exists st',
          save_each formId files field totalSize loadedSize newFiles st
          = (Ok (records_of formId field st'), st')
          /\ blob_frame st st'
          /\ Forall2 (stored_as formId field) (done ++ files)
               (records_of formId field st')
    end.
Proof.
  induction files as [|file files IH]; intros done newFiles totalSize loadedSize st Hi Hk Hr Hd.
  - cbn [first_refusal save_each]. exists st. rewrite Hr, app_nil_r.
    split; [reflexivity|]. split; [apply blob_frame_refl | exact Hd].
  - cbn [first_refusal save_each]. unfold bind.
    pose proof (saveSingleFile_outcome file totalSize loadedSize st Hi Hk) as H1.
    destruct (refusal (quota_of st) (used_of st) file) as [e|].
    + destruct H1 as (st1 & E & Hf1 & Hs1). rewrite E.
      exists st1. split; [reflexivity|]. split; [exact Hf1|]. split; [cbn; lia|].
      rewrite take_0, app_nil_r. unfold records_of. rewrite Hs1.
      fold (records_of formId field st). rewrite Hr. exact Hd.
    + destruct H1 as (rec & st1 & E & Hs & Hr1 & Hf1 & Hi1 & Hk1 & Hq & Hu). rewrite E.
      specialize (IH (done ++ [file]) (newFiles ++ [rec]) totalSize
                    (loadedSize + File.size file) st1 Hi1 Hk1).
      rewrite Hq, Hu in IH.
      destruct (first_refusal (quota_of st) (used_of st + payload file) files)
        as [[k e]|].
      * destruct IH as (st' & E' & Hf & Hlt & Ho).
        { rewrite Hr1, Hr. reflexivity. }
        { apply Forall2_app; [exact Hd | constructor; [exact Hs | constructor]]. }
        exists st'. split; [exact E'|].
        split; [eapply blob_frame_trans; eassumption|]. split; [cbn; lia|].
        cbn [take]. rewrite <- app_assoc in Ho. exact Ho.
      * destruct IH as (st' & E' & Hf & Ho).
        { rewrite Hr1, Hr. reflexivity. }
        { apply Forall2_app; [exact Hd | constructor; [exact Hs | constructor]]. }
        exists st'. split; [exact E'|].
        split; [eapply blob_frame_trans; eassumption|].
        rewrite <- app_assoc in Ho. exact Ho.
Qed.
End RefusalFacts.

Section OutcomeFacts.
Variable formId : string.
Variable options : UseFormPersistenceOptions.
Variable field : string.

(** A call with valid arguments on an open store: the old records go,
    and the files decide the rest.  When one of them is refused the
    call throws its error; otherwise it completes. *)
Lemma saveFiles_outcome (files : list File.t) (st : State) :
  invalid_arguments field files = false ->
  initialized st = true ->
  exists cleared,
    deleteOldFiles formId field (begun st) = (Ok tt, cleared)
    /\ records_of formId field cleared = []
    /\ match first_refusal (quota_of cleared) (used_of cleared) files with
       | Some (k, e) =>
           exists st2,
             saveFiles formId options field files st = (Throw e, failed options e st2)
             /\ blob_frame (begun st) st2
             /\ (k < length files)%nat
             /\ Forall2 (stored_as formId field) (take k files)
                  (records_of formId field st2)
       | None =>
           exists st2,
             saveFiles formId options field files st
             = (Ok tt, files_saved field (records_of formId field st2) st2)
             /\ blob_frame (begun st) st2
             /\ Forall2 (stored_as formId field) files (records_of formId field st2)
       end.
Proof.
  intros Hv Hi.
  assert (Hcatch : forall e s,
             (errorMessage <- handleError options e "保存文件" ;;
              modify (set_error (Some errorMessage)) ;;
              modify (set_uploadProgress None) ;;
              @throw unit e) s = (Throw e, failed options e s)).
  { intros e s. unfold bind. rewrite handleError_eq. reflexivity. }
  assert (Hi0 : initialized (begun st) = true) by exact Hi.
  destruct (deleteOldFiles_ok formId field (begun st) Hi0)
    as (st1 & E1 & Hf1 & _ & Hi1 & Hr1).
  exists st1. split; [exact E1|]. split; [exact Hr1|].
  assert (Hk1 : keys_below formId field st1).
  { intros r0 Hin. rewrite Hr1 in Hin. inversion Hin. }
  pose proof (save_each_outcome formId field files [] []
                (foldl (fun sum file => sum + File.size file) 0 files) 0 st1
                Hi1 Hk1 Hr1 ltac:(constructor)) as H2.
  destruct (saveFiles formId options field files st) as [r stf] eqn:E.
  unfold saveFiles, try_catch in E.
  unfold bind at 1, modify at 1 in E. unfold bind at 1, modify at 1 in E.
  cbv beta iota in E.
  fold (begun st) in E. fold (invalid_arguments field files) in E.
  rewrite Hv in E. unfold bind at 1, ret at 1 in E. cbv beta iota in E.
  unfold bind at 1 in E. rewrite E1 in E.
  destruct (first_refusal (quota_of st1) (used_of st1) files) as [[k e]|].
  - destruct H2 as (st2 & E2 & Hf2 & Hlt & Ho).
    unfold bind at 1 in E. rewrite E2 in E. rewrite Hcatch in E.
    exists st2. split; [exact (eq_sym E)|].
    split; [eapply blob_frame_trans; eassumption|]. split; [exact Hlt | exact Ho].
  - destruct H2 as (st2 & E2 & Hf2 & Ho).
    unfold bind at 1 in E. rewrite E2 in E.
    exists st2. split; [rewrite <- E; reflexivity|].
    split; [eapply blob_frame_trans; eassumption | exact Ho].
Qed.
End OutcomeFacts.


Section Claims.
Variable formId : string.
Variable options : UseFormPersistenceOptions.

(** C2. Write order.  Every text save writes the session tier and then,
    as the very next write, the durable tier, both with the same text;
    only error reports of hooks can precede the two writes.  A close
    marking (page hidden) ends with the write of the marker into the
    session tier, writes no durable marker itself and queues the mirror
    task; the durable marker is written when that task runs, after the
    session write. *)
Theorem C2_write_order (st : State) :
  (exists text pre,
      saveTextData formId options st = (Ok tt, after_save formId st text pre)
      /\ trace (after_save formId st text pre)
         = trace st ++ pre
             ++ [SetItem Session (sessionKey formId) text;
                 SetItem Durable (storageKey formId) text]
      /\ Forall is_report pre)
  /\ (visibilityState st = hidden ->
      let st1 := run (handlePageClose formId options) st in
      let st2 := run (run_task formId MirrorCloseMarker) st1 in
      exists mid,
        trace st1 = trace st ++ mid
                      ++ [SetItem Session (normalCloseKey formId) "true"]
        /\ (SetItem Durable (normalCloseKey formId) "true" ∉ mid)
        /\ localStorage st1 !! normalCloseKey formId
           = localStorage st !! normalCloseKey formId
        /\ timers st1 = timers st ++ [MirrorCloseMarker]
        /\ trace st2 = trace st1
                         ++ [SetItem Durable (normalCloseKey formId) "true"]
        /\ localStorage st2 !! normalCloseKey formId = Some "true").
Proof.
  split.
  - destruct (saveTextData_completes formId options st) as (text & pre & E & Hp).
    exists text, pre. repeat split; [exact E | exact Hp].
  - intros Hv st1 st2.
    destruct (handlePageClose_eq formId options st Hv) as (st' & E & Hst').
    assert (E1 : st1 = close_marked formId st') by (subst st1; unfold run; rewrite E; reflexivity).
    assert (E2 : st2 = set_trace (trace st1 ++ [SetItem Durable (normalCloseKey formId) "true"])
                         (set_localStorage
                            (<[normalCloseKey formId := "true"]> (localStorage st1)) st1)).
    { subst st2. unfold run. rewrite run_task_mirror; [reflexivity|].
      rewrite E1. cbn. apply lookup_insert_eq. }
    clearbody st1 st2. subst st1 st2.
    destruct Hst' as [[_ ->] | [_ (text & pre & -> & Hp)]].
    + exists []. cbn.
      repeat split; auto; [inversion 1 | apply lookup_insert_eq].
    + exists (pre ++ [SetItem Session (sessionKey formId) text;
                      SetItem Durable (storageKey formId) text]).
      cbn. rewrite <- !app_assoc.
      repeat split; auto.
      * intros Hin. apply elem_of_app in Hin as [Hin|Hin].
        -- rewrite Forall_forall in Hp. exact (Hp _ Hin).
        -- apply elem_of_cons in Hin as [Hin|Hin]; [discriminate|].
           apply elem_of_cons in Hin as [Hin|Hin]; [|inversion Hin].
           apply (f_equal (fun e => match e with
                                    | SetItem _ k _ => k
                                    | _ => ""
                                    end)) in Hin.
           cbv beta iota in Hin. symmetry in Hin.
           exact (storageKey_ne_normalCloseKey formId Hin).
      * apply lookup_insert_ne, storageKey_ne_normalCloseKey.
      * apply lookup_insert_eq.
Qed.


Lemma toISOString_truthy (t : Z) :
  iso_min <= t <= iso_max -> truthy (JStr (toISOString t)) = true.
Proof.
  intros Ht. pose proof (date_parse_toISOString t Ht) as H.
  cbn [truthy]. destruct (toISOString t); [discriminate | reflexivity].
Qed.

Lemma expired_iso (t now : Z) :
  iso_min <= t <= iso_max ->
  expired options (JStr (toISOString t)) now = (dataExpiryMs options <? now - t).
Proof.
  intros Ht. unfold expired. rewrite toISOString_truthy by exact Ht.
  cbn [Date_getTime andb]. rewrite date_parse_toISOString by exact Ht. reflexivity.
Qed.




(** C6. Expiry boundary.  For a snapshot whose [savedAt] is the time
    stamp of [t], the expiry test rejects exactly when the age
    [now - t] strictly exceeds [dataExpiryMs]: at age [dataExpiryMs + 1]
    the snapshot is rejected and removed from its tier; at age
    [dataExpiryMs - 1] it is accepted, stays in its tier and goes on to
    the restore hooks (it is handed back as it is, without the stamp,
    when no restore hook is registered). *)
Theorem C6_expiry_boundary (st : State) (text : string) (o : obj) (t : Z) :
  JSON_parse text = Some (JObj o) ->
  obj_get "savedAt" o = Some (JStr (toISOString t)) ->
  iso_min <= t <= iso_max ->
  let now := clock st in
  let expiry := dataExpiryMs options in
  isDataExpired options (JStr (toISOString t)) st = (Ok (expiry <? now - t), st)
  /\ (t = now - expiry - 1 -> (expiry <? now - t) = true)
  /\ (t = now - expiry + 1 -> (expiry <? now - t) = false)
  /\ (sessionStorage st !! sessionKey formId = Some text ->
      (expiry < now - t ->
       restoreFromSessionStorage formId options st
       = (Ok (JObj [], false), session_dropped formId st)
       /\ sessionStorage (session_dropped formId st) !! sessionKey formId = None)
      /\ (now - t <= expiry ->
          restoreFromSessionStorage formId options st
          = accepted_from_session options o st
          /\ (no_restore_hooks st ->
              restoreFromSessionStorage formId options st
              = (Ok (JObj (obj_delete "savedAt" o), true), st))))
  /\ (localStorage st !! storageKey formId = Some text ->
      (expiry < now - t ->
       restoreFromLocalStorage formId options st
       = (Ok (JObj [], false), durable_dropped formId st)
       /\ localStorage (durable_dropped formId st) !! storageKey formId = None)
      /\ (now - t <= expiry ->
          restoreFromLocalStorage formId options st
          = accepted_from_durable formId options text o st
          /\ (no_restore_hooks st ->
              restoreFromLocalStorage formId options st
              = (Ok (JObj (obj_delete "savedAt" o), true),
                 session_mirrored formId text st)))).
Proof.
  intros Hp Hs Ht now expiry. subst now expiry.
  assert (Hsaved : savedAt_of o = JStr (toISOString t))
    by (unfold savedAt_of; rewrite Hs; reflexivity).
  pose proof (expired_iso t (clock st) Ht) as He.
  split; [rewrite isDataExpired_eq, He; reflexivity|].
  split; [intros ->; apply Z.ltb_lt; lia|].
  split; [intros ->; apply Z.ltb_ge; lia|].
  split.
  - intros Hsess.
    pose proof (restoreFromSessionStorage_snapshot formId options st text o Hsess Hp) as E.
    rewrite Hsaved, He in E. split.
    + intros Hage. apply Z.ltb_lt in Hage. rewrite Hage in E.
      split; [exact E | apply lookup_delete_eq].
    + intros Hage. apply Z.ltb_ge in Hage. rewrite Hage in E.
      split; [exact E|]. intros Hhooks. rewrite E.
      apply accepted_from_session_plain, Hhooks.
  - intros Hloc.
    pose proof (restoreFromLocalStorage_snapshot formId options st text o Hloc Hp) as E.
    rewrite Hsaved, He in E. split.
    + intros Hage. apply Z.ltb_lt in Hage. rewrite Hage in E.
      split; [exact E | apply lookup_delete_eq].
    + intros Hage. apply Z.ltb_ge in Hage. rewrite Hage in E.
      split; [exact E|]. intros Hhooks. rewrite E.
      apply accepted_from_durable_plain, Hhooks.
Qed.

(** C9. Unsaved-changes flag after a restore.  [restoreData] always
    completes, and afterwards [hasUnsavedChanges] is true exactly when
    some form field holds a value other than null, undefined and the
    empty string, or some file field holds a non-empty list; an empty
    array counts as data. *)
Theorem C9_unsaved_after_restore (st : State) :
  exists st',
    restoreData formId options st = (Ok tt, st')
    /\ error st' = None
    /\ (hasUnsavedChanges st' = true <->
        (exists k v, (k, v) ∈ formData st'
                     /\ v <> JNull /\ v <> JUndefined /\ v <> JStr "")
        \/ (exists field files, (field, files) ∈ fileData st' /\ files <> []))
    /\ is_data (JArr []) = true.
Proof.
  destruct (restoreData_completes formId options st) as ([] & st' & E & st1 & ->).
  exists (recomputed st1). split; [exact E|]. split; [reflexivity|]. split; [|reflexivity].
  cbn [recomputed hasUnsavedChanges set_error set_hasUnsavedChanges formData fileData].
  rewrite orb_true_iff. unfold has_data, has_files, obj_values.
  rewrite !existsb_exists. split.
  - intros [(v & Hin & Hv) | (files & Hin & Hf)].
    + left. apply in_map_iff in Hin as ([k v'] & <- & Hin). cbn [snd] in Hv.
      exists k, v'. split; [apply list_elem_of_In, Hin|].
      destruct v'; try discriminate; repeat split; try discriminate.
      intros [= ->]. discriminate.
    + right. apply in_map_iff in Hin as ([field fs] & <- & Hin). cbn [snd] in Hf.
      exists field, fs. split; [apply list_elem_of_In, Hin|].
      intros ->. discriminate.
  - intros [(k & v & Hin & Hn & Hu & He) | (field & files & Hin & Hf)].
    + left. exists v. split.
      * apply in_map_iff. exists (k, v). split; [reflexivity | apply list_elem_of_In, Hin].
      * destruct v; try reflexivity; try congruence.
        cbn [is_data]. destruct (String.eqb_spec s ""); [congruence | reflexivity].
    + right. exists files. split.
      * apply in_map_iff. exists (field, files). split; [reflexivity | apply list_elem_of_In, Hin].
      * destruct files; [congruence | reflexivity].
Qed.

(** C10. A snapshot without [savedAt] never expires: the expiry test
    answers false on the missing stamp whatever the clock and the
    configured [dataExpiryMs], so both tiers accept the snapshot, and
    with no restore hook in the way [restoreData] merges its fields into
    the form. *)
Theorem C10_no_stamp_never_expires (st : State) (text : string) (o : obj) :
  JSON_parse text = Some (JObj o) ->
  obj_get "savedAt" o = None ->
  isDataExpired options JUndefined st = (Ok false, st)
  /\ (sessionStorage st !! sessionKey formId = Some text ->
      restoreFromSessionStorage formId options st
      = accepted_from_session options o st
      /\ (no_restore_hooks st ->
          restoreFromSessionStorage formId options st = (Ok (JObj o, true), st)
          /\ formData (run (restoreData formId options) st)
             = obj_assign (formData st) o))
  /\ (localStorage st !! storageKey formId = Some text ->
      restoreFromLocalStorage formId options st
      = accepted_from_durable formId options text o st
      /\ (no_restore_hooks st ->
          restoreFromLocalStorage formId options st
          = (Ok (JObj o, true), session_mirrored formId text st)
          /\ (sessionStorage st !! sessionKey formId = None ->
              localStorage st !! normalCloseKey formId <> Some "true" ->
              formData (run (restoreData formId options) st)
              = obj_assign (formData st) o))).
Proof.
  intros Hp Hs.
  assert (Hsaved : savedAt_of o = JUndefined)
    by (unfold savedAt_of; rewrite Hs; reflexivity).
  assert (Hdel : obj_delete "savedAt" o = o) by (apply obj_delete_absent, Hs).
  split; [reflexivity|]. split.
  - intros Hsess.
    pose proof (restoreFromSessionStorage_snapshot formId options st text o Hsess Hp) as E0.
    rewrite Hsaved in E0. cbn [expired truthy andb] in E0.
    split; [exact E0|]. intros Hhooks.
    assert (E : restoreFromSessionStorage formId options st = (Ok (JObj o, true), st)).
    { rewrite E0, accepted_from_session_plain by exact Hhooks. rewrite Hdel. reflexivity. }
    split; [exact E|].
    destruct (restoreData_from_session formId options st o E) as (st' & E' & Hf & _).
    unfold run. rewrite E'. exact Hf.
  - intros Hloc.
    pose proof (restoreFromLocalStorage_snapshot formId options st text o Hloc Hp) as E0.
    rewrite Hsaved in E0. cbn [expired truthy andb] in E0.
    split; [exact E0|]. intros Hhooks.
    assert (E : restoreFromLocalStorage formId options st
                = (Ok (JObj o, true), session_mirrored formId text st)).
    { rewrite E0, accepted_from_durable_plain by exact Hhooks. rewrite Hdel. reflexivity. }
    split; [exact E|]. intros Hnone Hmark.
    assert (Hc : isCrashRecovery formId st = true).
    { unfold isCrashRecovery, sessionExists, hasLocalStorageData, isNormalClose.
      rewrite Hnone, Hloc. rewrite (bool_decide_eq_false_2 _ Hmark).
      rewrite bool_decide_eq_false_2 by (intros [? ?]; discriminate).
      rewrite bool_decide_eq_true_2 by eauto. reflexivity. }
    destruct (restoreData_from_durable formId options st _ (JObj o) true
                ltac:(rewrite Hnone; reflexivity) Hc E eq_refl)
      as (st' & E' & Hf & _).
    unfold run. rewrite E'. exact Hf.
Qed.

(** What [restoreData] does with a durable snapshot and no session
    snapshot.  Without the close marker its flag [isCrashRecovery] is
    set and it merges into the form what the durable tier yields; with
    the close marker the flag is clear and it restores nothing: form,
    file cache and both tiers stay as they are.  A mount with
    [clearOnClose] erases the tiers before it restores. *)
Lemma restoreData_by_marker (st : State) (text : string) :
  sessionStorage st !! sessionKey formId = None ->
  localStorage st !! storageKey formId = Some text ->
  (localStorage st !! normalCloseKey formId <> Some "true" ->
   classify formId st = CrashRecovery
   /\ isCrashRecovery formId st = true
   /\ exists formOnly ok st1,
       restoreFromLocalStorage formId options st = (Ok (formOnly, ok), st1)
       /\ formData (run (restoreData formId options) st)
          = obj_assign (formData st) (spread (if ok then formOnly else JObj [])))
  /\ (localStorage st !! normalCloseKey formId = Some "true" ->
      classify formId st = NormalRestart
      /\ isCrashRecovery formId st = false
      /\ restoreData formId options st = (Ok tt, recomputed st)
      /\ (clearOnClose options = true ->
          store_usable st = true ->
          let st' := run (onMounted formId options) st in
          formData st' = formData st
          /\ sessionStorage st' !! sessionKey formId = None
          /\ localStorage st' !! storageKey formId = None
          /\ localStorage st' !! normalCloseKey formId = None)).
Proof.
  intros Hs Hd.
  assert (Hse : sessionExists formId st = false).
  { unfold sessionExists. rewrite Hs. apply bool_decide_eq_false_2.
    intros [? ?]; discriminate. }
  assert (Hld : hasLocalStorageData formId st = true).
  { unfold hasLocalStorageData. rewrite Hd. apply bool_decide_eq_true_2. eauto. }
  split.
  - intros Hm.
    assert (Hnc : isNormalClose formId st = false)
      by (apply bool_decide_eq_false_2, Hm).
    assert (Hc : isCrashRecovery formId st = true).
    { unfold isCrashRecovery. rewrite Hse, Hld, Hnc. reflexivity. }
    split; [unfold classify; rewrite Hse, Hld, Hnc; reflexivity|].
    split; [exact Hc|].
    destruct (restoreFromLocalStorage_ensures formId options st)
      as ([formOnly ok] & st1 & E & Hn).
    exists formOnly, ok, st1. split; [exact E|].
    destruct (restoreData_from_durable formId options st st1 formOnly ok
                ltac:(rewrite Hs; reflexivity) Hc E Hn) as (st' & E' & Hf & _).
    unfold run. rewrite E'. cbn [snd recomputed]. cbn. rewrite Hf.
    destruct (keeps_form_restoreFromLocalStorage formId options _ _ _ E) as (-> & _).
    reflexivity.
  - intros Hm.
    assert (Hnc : isNormalClose formId st = true)
      by (apply bool_decide_eq_true_2, Hm).
    assert (Hc : isCrashRecovery formId st = false).
    { unfold isCrashRecovery. rewrite Hnc, andb_false_r. reflexivity. }
    split; [unfold classify; rewrite Hse, Hld, Hnc; reflexivity|].
    split; [exact Hc|]. split.
    + destruct (restoreData_nothing formId options st
                  ltac:(rewrite Hs; reflexivity) Hc) as (st' & E & _ & _ & _ & Hst).
      rewrite E, Hst; [reflexivity|]. rewrite Hse, Hnc. reflexivity.
    + intros Hclear Hu st'.
      destruct (onMounted_clean_slate formId options st Hs Hm Hclear Hu)
        as (st2 & E & H).
      subst st'. unfold run. rewrite E. exact H.
Qed.


(** C7. Transform order.  On save each field hook is applied to the raw
    value of its field and the global hook to the field-adjusted whole;
    on restore the global hook is applied first and the field hooks to
    the fields of its result.  With an upper-casing hook on a field and
    a global hook that appends a suffix, the value x is stored as
    X_SUFFIX and comes back as x. *)
Theorem C7_transform_order (st : State) (o : obj) :
  NoDup (obj_keys o) ->
  let F := currentFieldTransforms st in
  let g := beforeSave (currentMiddleware st) in
  let g' := afterRestore (currentMiddleware st) in
  result_of (applyBeforeSaveTransform options (JObj o)) st
  = Ok (hook_value g (JObj (transform_fields F beforeSave o)))
  /\ (forall k x, obj_get k o = Some x ->
        obj_get k (transform_fields F beforeSave o)
        = Some (hook_value (F !! k ≫= beforeSave) x))
  /\ (forall o', hook_value g' (JObj o) = JObj o' -> NoDup (obj_keys o') ->
        result_of (applyAfterRestoreTransform options (JObj o)) st
        = Ok (JObj (transform_fields F afterRestore o'))
        /\ forall k y, obj_get k o' = Some y ->
             obj_get k (transform_fields F afterRestore o')
             = Some (hook_value (F !! k ≫= afterRestore) y))
  /\ (let saved := run (saveTextData "f1" example_options) example_state in
      sessionStorage saved !! sessionKey "f1"
      = Some (snapshot_text (JObj [("name", JStr "X_SUFFIX")]) (clock example_state))
      /\ result_of (restoreFromSessionStorage "f1" example_options) saved
         = Ok (JObj [("name", JStr "x")], true)).
Proof.
  intros Hnd F g g'. split; [|split; [|split]].
  - unfold result_of. rewrite applyBeforeSaveTransform_eq by exact Hnd. reflexivity.
  - intros k x. apply obj_get_transform_fields.
  - intros o' Hg Hnd'. split.
    + unfold result_of.
      rewrite (applyAfterRestoreTransform_eq options o o' st Hg Hnd'). reflexivity.
    + intros k y. apply obj_get_transform_fields.
  - vm_compute. split; reflexivity.
Qed.

(** C8. A throwing hook does not stop a save or a restore.  The save
    completes with both tiers written; a field whose hook throws keeps
    its untransformed value and the failure is reported with a context
    naming the field and the direction; the hooks of the other fields
    and the global hook still apply.  The same holds on restore. *)
Theorem C8_transform_failure (st : State) :
  NoDup (obj_keys (formData st)) ->
  let F := currentFieldTransforms st in
  let g := beforeSave (currentMiddleware st) in
  let adjusted := transform_fields F beforeSave (formData st) in
  let pre := field_reports options F beforeSave "保存前转换失败" (formData st)
             ++ hook_reports options g "全局保存前转换失败" (JObj adjusted) in
  saveTextData formId options st
  = (Ok tt, after_save formId st
              (snapshot_text (hook_value g (JObj adjusted)) (clock st)) pre)
  /\ (forall k x h, obj_get k (formData st) = Some x ->
        F !! k ≫= beforeSave = Some h ->
        match h x with
        | Throw e =>
            obj_get k adjusted = Some x
            /\ forall ev, ev ∈ reports options e ("字段[" +:+ k +:+ "]保存前转换失败") ->
                          ev ∈ pre
        | Ok y => obj_get k adjusted = Some y
        end)
  /\ (forall h e, g = Some h -> h (JObj adjusted) = Throw e ->
        hook_value g (JObj adjusted) = JObj adjusted
        /\ forall ev, ev ∈ reports options e "全局保存前转换失败" -> ev ∈ pre)
  /\ (forall o o', hook_value (afterRestore (currentMiddleware st)) (JObj o) = JObj o' ->
        NoDup (obj_keys o') ->
        let restored := transform_fields F afterRestore o' in
        let pre' :=
          hook_reports options (afterRestore (currentMiddleware st))
            "全局恢复后转换失败" (JObj o)
          ++ field_reports options F afterRestore "恢复后转换失败" o' in
        applyAfterRestoreTransform options (JObj o) st
        = (Ok (JObj restored), set_trace (trace st ++ pre') st)
        /\ forall k x h, obj_get k o' = Some x ->
             F !! k ≫= afterRestore = Some h ->
             match h x with
             | Throw e =>
                 obj_get k restored = Some x
                 /\ forall ev,
                      ev ∈ reports options e ("字段[" +:+ k +:+ "]恢复后转换失败") ->
                      ev ∈ pre'
             | Ok y => obj_get k restored = Some y
             end).
Proof.
  intros Hnd F g adjusted pre. split; [|split; [|split]].
  - apply saveTextData_eq, Hnd.
  - intros k x h Hx Hh.
    pose proof (obj_get_transform_fields F beforeSave k x _ Hx) as Hget.
    fold adjusted in Hget. rewrite Hh in Hget. cbn [hook_value] in Hget.
    destruct (h x) as [y|e] eqn:E; [exact Hget|]. split; [exact Hget|].
    intros ev Hev. subst pre. apply elem_of_app. left.
    apply (field_reports_elem options F beforeSave "保存前转换失败" k x).
    + apply obj_get_Some_elem, Hx.
    + rewrite Hh. cbn [hook_reports]. rewrite E. exact Hev.
  - intros h e Hg He. split.
    + rewrite Hg. cbn [hook_value]. rewrite He. reflexivity.
    + intros ev Hev. subst pre. apply elem_of_app. right.
      rewrite Hg. cbn [hook_reports]. rewrite He. exact Hev.
  - intros o o' Hg' Hnd' restored pre'. split.
    + apply applyAfterRestoreTransform_eq; assumption.
    + intros k x h Hx Hh.
      pose proof (obj_get_transform_fields F afterRestore k x _ Hx) as Hget.
      fold restored in Hget. rewrite Hh in Hget. cbn [hook_value] in Hget.
      destruct (h x) as [y|e] eqn:E; [exact Hget|]. split; [exact Hget|].
      intros ev Hev. subst pre'. apply elem_of_app. right.
      apply (field_reports_elem options F afterRestore "恢复后转换失败" k x).
      * apply obj_get_Some_elem, Hx.
      * rewrite Hh. cbn [hook_reports]. rewrite E. exact Hev.
Qed.


(** C3. File replace.  After two successive successful [saveFiles] calls
    on a field, the records the blob store lists for that form and
    field are exactly the records of the files supplied last, one per
    file and in their order (so never none, never a mix with the
    earlier generation), and the in-memory cache holds the same list. *)
Theorem C3_file_replace (field : string) (files1 files2 : list File.t)
  (st st1 st2 : State) :
  saveFiles formId options field files1 st = (Ok tt, st1) ->
  saveFiles formId options field files2 st1 = (Ok tt, st2) ->
  let recs := records_of formId field st2 in
  result_of (FileStorage_getFiles formId field) st2 = Ok recs
  /\ Forall2 (stored_as formId field) files2 recs
  /\ length recs = length files2
  /\ recs <> []
  /\ obj_get field (fileData st2) = Some recs.
Proof.
  intros _ E2 recs.
  destruct (saveFiles_cases formId options field files2 st1)
    as [[_ E] | [(_ & _ & E) | (Hv & _ & s2 & _ & Hi & [(e & k & E & _) | [E Hrec]])]];
    rewrite E in E2; try discriminate.
  injection E2 as <-.
  assert (Hr : recs = records_of formId field s2) by reflexivity.
  rewrite Hr. split; [|split; [exact Hrec | split; [|split]]].
  - unfold result_of. rewrite getFiles_eq by exact Hi. reflexivity.
  - symmetry. exact (Forall2_length _ _ _ Hrec).
  - intros Hnil. rewrite Hnil in Hrec. apply Forall2_nil_inv_r in Hrec.
    assert (Hinv : invalid_arguments field files2 = true)
      by (apply invalid_arguments_iff; right; exact Hrec).
    congruence.
  - cbn. apply obj_get_set_eq.
Qed.

(** C4. Failing [saveFiles].  An empty field name or an empty file list
    fails before the store is touched.  Whenever a call fails, the
    error is re-raised, reported through the error handler, its
    message is stored in the error state, the progress is cleared and
    the cache keeps its earlier value; and when the failure comes from
    a file, only the files before the failing one have records: the
    rest were not processed and the records deleted at the start are
    not back.  And a failure does make the call fail: with a field
    name and files, on a closed store the call throws the error of
    the deletion; on an open store the old records are deleted and,
    if the store then refuses one of the files (it cannot be read, or
    it exceeds the quota once the files before it are stored), the
    call throws the error of the first such file with exactly the
    files before it stored, and otherwise it completes. *)
Theorem C4_saveFiles_failure (field : string) (files : list File.t) (st : State) :
  (field = "" \/ files = [] ->
   exists st', saveFiles formId options field files st
               = (Throw "无效的文件保存参数", st')
               /\ fileStorage st' = fileStorage st)
  /\ (forall e st',
        saveFiles formId options field files st = (Throw e, st') ->
        error st' = Some ("保存文件: " +:+ e)
        /\ uploadProgress st' = None
        /\ fileData st' = fileData st
        /\ trace st' = trace st ++ reports options e "保存文件"
        /\ (field <> "" -> files <> [] -> initialized st = true ->
            exists k, (k < length files)%nat
                      /\ Forall2 (stored_as formId field) (take k files)
                           (records_of formId field st')))
  /\ (field <> "" -> files <> [] ->
      if initialized st then
        exists cleared,
          deleteOldFiles formId field (begun st) = (Ok tt, cleared)
          /\ records_of formId field cleared = []
          /\ match first_refusal (quota_of cleared) (used_of cleared) files with
             | Some (k, e) =>
                 exists st',
                   saveFiles formId options field files st = (Throw e, st')
                   /\ (k < length files)%nat
                   /\ Forall2 (stored_as formId field) (take k files)
                        (records_of formId field st')
             | None =>
                 exists st', saveFiles formId options field files st = (Ok tt, st')
             end
      else
        exists st',
          saveFiles formId options field files st
          = (Throw "删除旧文件失败: 数据库未初始化", st')
          /\ fileStorage st' = fileStorage st).
Proof.
  split; [|split].
  - intros Hinv. apply invalid_arguments_iff in Hinv.
    destruct (saveFiles_cases formId options field files st)
      as [[_ E] | [(Hv & _) | (Hv & _)]]; try congruence.
    eexists. split; [exact E | reflexivity].
  - intros e st' E'.
    destruct (saveFiles_cases formId options field files st)
      as [[Hv E] | [(Hv & Hi & E) | (Hv & Hi & s2 & Hf & _ & [(e0 & k & E & Hk & Hrec) | [E _]])]];
      rewrite E in E'; try discriminate; injection E' as <- <-.
    + repeat split. intros Hf Hfs _. exfalso.
      apply invalid_arguments_iff in Hv as [?|?]; contradiction.
    + repeat split. intros _ _ Hi'. unfold initialized in *. congruence.
    + split; [reflexivity|]. split; [reflexivity|]. split; [|split].
      * cbn. rewrite (blob_frame_fileData _ _ Hf). reflexivity.
      * cbn. rewrite Hf. reflexivity.
      * intros _ _ _. exists k. split; [exact Hk | exact Hrec].
  - intros Hfield Hfiles.
    assert (Hv : invalid_arguments field files = false).
    { destruct (invalid_arguments field files) eqn:Ev; [|reflexivity].
      apply invalid_arguments_iff in Ev as [?|?]; contradiction. }
    destruct (initialized st) eqn:Hi.
    + destruct (saveFiles_outcome formId options field files st Hv Hi)
        as (cleared & E1 & Hr1 & H).
      exists cleared. split; [exact E1|]. split; [exact Hr1|].
      destruct (first_refusal (quota_of cleared) (used_of cleared) files) as [[k e]|].
      * destruct H as (st2 & E & _ & Hlt & Ho). eexists. split; [exact E|].
        split; [exact Hlt | exact Ho].
      * destruct H as (st2 & E & _). eexists. exact E.
    + destruct (saveFiles_cases formId options field files st)
        as [[Hv' _] | [(_ & _ & E) | (_ & Hi' & _)]]; try congruence.
      eexists. split; [exact E | reflexivity].
Qed.

End Claims.

(** * The claims on the scenarios *)

Local Ltac by_computation := vm_compute; reflexivity.

(** C1 at a mount that keeps data across closes.  After a normal close
    ([clearOnClose] off) a new process finds the durable snapshot and
    the close marker and no session snapshot.  [restoreData], run on
    that state, sees the marker, is not in a crash recovery and leaves
    the form as it is.  The mount removes the marker first, so the
    [restoreData] it calls takes the state for a crash and restores the
    form from the durable tier. *)
Lemma C1_mount_after_close :
  sessionStorage restarted !! sessionKey "f1" = None
  /\ localStorage restarted !! storageKey "f1" = Some (durable_text restarted)
  /\ localStorage restarted !! normalCloseKey "f1" = Some "true"
  /\ clearOnClose plain_options = false
  /\ formData restarted = [("name", JStr EmptyString); ("tags", JArr [])]
  /\ isCrashRecovery "f1" restarted = false
  /\ formData (run (restoreData "f1" plain_options) restarted) = formData restarted
  /\ formData (run (onMounted "f1" plain_options) restarted)
     = [("name", JStr "Ada"); ("tags", JArr [])].
Proof. repeat (apply conj); by_computation. Qed.

(** [restoreData] on a crashed process and on a cleanly closed one with
    [clearOnClose]. *)
Example restoreData_by_marker_scenarios :
  (sessionStorage crashed !! sessionKey "f1" = None
   /\ localStorage crashed !! storageKey "f1" = Some (durable_text crashed)
   /\ localStorage crashed !! normalCloseKey "f1" <> Some "true"
   /\ isCrashRecovery "f1" crashed = true)
  /\ (sessionStorage restarted_clearing !! sessionKey "f1" = None
      /\ localStorage restarted_clearing !! storageKey "f1"
         = Some (durable_text restarted_clearing)
      /\ localStorage restarted_clearing !! normalCloseKey "f1" = Some "true"
      /\ isCrashRecovery "f1" restarted_clearing = false
      /\ restoreData "f1" clearing_options restarted_clearing
         = (Ok tt, recomputed restarted_clearing)
      /\ formData (run (onMounted "f1" clearing_options) restarted_clearing)
         = formData restarted_clearing).
Proof.
  assert (Hs : sessionStorage crashed !! sessionKey "f1" = None) by by_computation.
  assert (Hd : localStorage crashed !! storageKey "f1" = Some (durable_text crashed))
    by by_computation.
  assert (Hm : localStorage crashed !! normalCloseKey "f1" <> Some "true")
    by (vm_compute; discriminate).
  assert (Hs' : sessionStorage restarted_clearing !! sessionKey "f1" = None)
    by by_computation.
  assert (Hd' : localStorage restarted_clearing !! storageKey "f1"
                = Some (durable_text restarted_clearing)) by by_computation.
  assert (Hm' : localStorage restarted_clearing !! normalCloseKey "f1" = Some "true")
    by by_computation.
  pose proof (restoreData_by_marker "f1" plain_options crashed _ Hs Hd) as [Hcrash _].
  pose proof (restoreData_by_marker "f1" clearing_options restarted_clearing _ Hs' Hd')
    as [_ Hnormal].
  destruct (Hcrash Hm) as (_ & Hc & _).
  destruct (Hnormal Hm') as (_ & Hn & Hr & Hclear).
  assert (Hu : store_usable restarted_clearing = true) by by_computation.
  destruct (Hclear eq_refl Hu) as [Hf _].
  repeat (apply conj); assumption.
Qed.



(** C6 on a snapshot read one millisecond after, and one millisecond
    before, it reaches the age [dataExpiryMs]. *)
Lemma C6_expiry_boundary_witness :
  (clock stale_sample - t0 = dataExpiryMs plain_options + 1
   /\ restoreFromSessionStorage "f1" plain_options stale_sample
      = (Ok (JObj [], false), session_dropped "f1" stale_sample)
   /\ sessionStorage (session_dropped "f1" stale_sample) !! sessionKey "f1" = None)
  /\ (clock recent_sample - t0 = dataExpiryMs plain_options - 1
      /\ restoreFromSessionStorage "f1" plain_options recent_sample
         = (Ok (JObj (obj_delete "savedAt" sample_snapshot), true), recent_sample)).
Proof.
  assert (Hp : JSON_parse (session_text saved_sample) = Some (JObj sample_snapshot))
    by by_computation.
  assert (Hs : obj_get "savedAt" sample_snapshot = Some (JStr (toISOString t0)))
    by reflexivity.
  assert (Ht : iso_min <= t0 <= iso_max) by (vm_compute; split; discriminate).
  assert (Hstale : sessionStorage stale_sample !! sessionKey "f1"
                   = Some (session_text saved_sample)) by by_computation.
  assert (Hrecent : sessionStorage recent_sample !! sessionKey "f1"
                    = Some (session_text saved_sample)) by by_computation.
  assert (Hhooks : no_restore_hooks recent_sample).
  { split; [reflexivity|]. intros field mw H. vm_compute in H. discriminate. }
  destruct (C6_expiry_boundary "f1" plain_options stale_sample _ _ t0 Hp Hs Ht)
    as (_ & _ & _ & Hsession & _).
  destruct (Hsession Hstale) as [Hreject _].
  destruct (C6_expiry_boundary "f1" plain_options recent_sample _ _ t0 Hp Hs Ht)
    as (_ & _ & _ & Hsession' & _).
  destruct (Hsession' Hrecent) as [_ Haccept].
  split.
  - split; [by_computation|]. apply Hreject. vm_compute. reflexivity.
  - split; [by_computation|]. apply Haccept; [vm_compute; discriminate | exact Hhooks].
Defined.

(** C10 on an unstamped snapshot read ten years later. *)
Lemma C10_no_stamp_witness :
  clock unstamped_state - t0 > dataExpiryMs plain_options
  /\ sessionStorage unstamped_state !! sessionKey "f1"
     = Some (default EmptyString (JSON_stringify (JObj unstamped)))
  /\ restoreFromSessionStorage "f1" plain_options unstamped_state
     = (Ok (JObj unstamped, true), unstamped_state)
  /\ formData (run (restoreData "f1" plain_options) unstamped_state)
     = obj_assign blank_form unstamped.
Proof.
  assert (Hp : JSON_parse (default EmptyString (JSON_stringify (JObj unstamped)))
               = Some (JObj unstamped)) by by_computation.
  assert (Hs : obj_get "savedAt" unstamped = None) by reflexivity.
  assert (Hsess : sessionStorage unstamped_state !! sessionKey "f1"
                  = Some (default EmptyString (JSON_stringify (JObj unstamped))))
    by by_computation.
  assert (Hhooks : no_restore_hooks unstamped_state).
  { split; [reflexivity|]. intros field mw H. vm_compute in H. discriminate. }
  destruct (C10_no_stamp_never_expires "f1" plain_options unstamped_state _ _ Hp Hs)
    as (_ & Hsession & _).
  destruct (Hsession Hsess) as [_ Haccept].
  destruct (Haccept Hhooks) as [E Hf].
  split; [vm_compute; reflexivity|].
  split; [exact Hsess|]. split; [exact E | exact Hf].
Defined.

(** C7 on the upper-casing field hook and the suffixing global hook. *)
Lemma C7_transform_order_witness :
  result_of (applyBeforeSaveTransform example_options (JObj [("name", JStr "x")]))
    example_state
  = Ok (JObj [("name", JStr "X_SUFFIX")])
  /\ result_of (applyAfterRestoreTransform example_options
                  (JObj [("name", JStr "X_SUFFIX")])) example_state
     = Ok (JObj [("name", JStr "x")]).
Proof.
  assert (Hnd : NoDup (obj_keys [("name", JStr "x")]))
    by (apply (bool_decide_unpack _); vm_compute; exact I).
  assert (Hnd' : NoDup (obj_keys [("name", JStr "X_SUFFIX")]))
    by (apply (bool_decide_unpack _); vm_compute; exact I).
  destruct (C7_transform_order example_options example_state _ Hnd) as (Hsave & _).
  destruct (C7_transform_order example_options example_state _ Hnd')
    as (_ & _ & Hrestore & _).
  destruct (Hrestore [("name", JStr "X")] ltac:(by_computation)
              ltac:(apply (bool_decide_unpack _); vm_compute; exact I)) as [Hback _].
  split.
  - rewrite Hsave. by_computation.
  - rewrite Hback. by_computation.
Defined.

(** C8 on a form with a throwing hook on one field and an upper-casing
    hook on another. *)
Lemma C8_transform_failure_witness :
  result_of (saveTextData "f1" failing_options) failing_state = Ok tt
  /\ sessionStorage (run (saveTextData "f1" failing_options) failing_state)
       !! sessionKey "f1"
     = Some (snapshot_text
               (JObj [("name", JStr "x_SUFFIX"); ("city", JStr "Y_SUFFIX")]) t0)
  /\ obj_get "name"
       (transform_fields (currentFieldTransforms failing_state) beforeSave
          (formData failing_state))
     = Some (JStr "x")
  /\ OnError "boom" "字段[name]保存前转换失败"
     ∈ trace (run (saveTextData "f1" failing_options) failing_state).
Proof.
  assert (Hnd : NoDup (obj_keys (formData failing_state)))
    by (apply (bool_decide_unpack _); vm_compute; exact I).
  destruct (C8_transform_failure "f1" failing_options failing_state Hnd)
    as (Hsave & Hfield & _).
  pose proof (Hfield "name" (JStr "x") (fun _ => Throw "boom") eq_refl
                ltac:(by_computation)) as [Hkept Hreported].
  split; [unfold result_of; rewrite Hsave; reflexivity|].
  split; [unfold run; rewrite Hsave; by_computation|].
  split; [exact Hkept|].
  unfold run. rewrite Hsave.
  unfold after_save. cbn [trace set_trace set_hasUnsavedChanges set_localStorage
                            set_sessionStorage].
  apply elem_of_app. right. apply elem_of_app. left.
  apply Hreported. vm_compute. right. left.
Defined.

(** C3 on two successive saves of one file each. *)
Lemma C3_file_replace_witness :
  result_of (FileStorage_getFiles "f1" "avatar") with_B
  = Ok (records_of "f1" "avatar" with_B)
  /\ map StoredFile.fileName (records_of "f1" "avatar" with_B) = ["b.png"]
  /\ length (records_of "f1" "avatar" with_B) = 1%nat
  /\ obj_get "avatar" (fileData with_B) = Some (records_of "f1" "avatar" with_B).
Proof.
  assert (E1 : saveFiles "f1" plain_options "avatar" [fileA] mounted = (Ok tt, with_A))
    by by_computation.
  assert (E2 : saveFiles "f1" plain_options "avatar" [fileB] with_A = (Ok tt, with_B))
    by by_computation.
  destruct (C3_file_replace "f1" plain_options "avatar" [fileA] [fileB] _ _ _ E1 E2)
    as (Hlist & _ & Hlen & _ & Hcache).
  split; [exact Hlist|]. split; [by_computation|].
  split; [exact Hlen | exact Hcache].
Defined.

(** C2 on a page that is hidden after an edit. *)
Lemma C2_write_order_witness :
  let st := set_visibilityState hidden (edited plain_options) in
  let st1 := run (handlePageClose "f1" plain_options) st in
  let st2 := run (run_task "f1" MirrorCloseMarker) st1 in
  localStorage st1 !! normalCloseKey "f1" = None
  /\ sessionStorage st1 !! normalCloseKey "f1" = Some "true"
  /\ timers st1 = [MirrorCloseMarker]
  /\ localStorage st2 !! normalCloseKey "f1" = Some "true".
Proof.
  intros st st1 st2.
  destruct (C2_write_order "f1" plain_options st) as [_ Hclose].
  destruct (Hclose eq_refl) as (mid & _ & _ & Hdurable & Htimers & _ & Hmirror).
  split; [by_computation|]. split; [by_computation|].
  split; [exact Htimers | exact Hmirror].
Defined.

(** C4 on a save whose second file cannot be read, and on one whose
    second file exceeds the quota. *)
Lemma C4_saveFiles_failure_witness :
  let failed_call := saveFiles "f1" plain_options "avatar" [fileB; unreadable; fileA] with_A in
  let refused_call := saveFiles "f1" plain_options "avatar" [fileA; fileB] tight in
  (fst failed_call = Throw "NotReadableError"
   /\ error (snd failed_call) = Some "保存文件: NotReadableError"
   /\ uploadProgress (snd failed_call) = None
   /\ fileData (snd failed_call) = fileData with_A
   /\ map StoredFile.fileName (records_of "f1" "avatar" (snd failed_call)) = ["b.png"])
  /\ (fst refused_call = Throw "事务错误: QuotaExceededError"
      /\ error (snd refused_call) = Some "保存文件: 事务错误: QuotaExceededError"
      /\ map StoredFile.fileName (records_of "f1" "avatar" (snd refused_call)) = ["a.png"]).
Proof.
  intros failed_call refused_call.
  assert (Hfirst : forall files st e k,
             initialized st = true ->
             first_refusal
               (quota_of (run (deleteOldFiles "f1" "avatar") (begun st)))
               (used_of (run (deleteOldFiles "f1" "avatar") (begun st))) files
             = Some (k, e) ->
             files <> [] ->
             let call := saveFiles "f1" plain_options "avatar" files st in
             fst call = Throw e
             /\ error (snd call) = Some ("保存文件: " +:+ e)
             /\ uploadProgress (snd call) = None
             /\ fileData (snd call) = fileData st).
  { intros files st e k Hi Hf Hne call.
    destruct (C4_saveFiles_failure "f1" plain_options "avatar" files st)
      as (_ & Hfail & Hmust).
    specialize (Hmust ltac:(discriminate) Hne). rewrite Hi in Hmust.
    destruct Hmust as (cleared & Ec & _ & Hm).
    unfold run in Hf. rewrite Ec in Hf. cbn [snd] in Hf. rewrite Hf in Hm.
    destruct Hm as (st' & E & _).
    destruct (Hfail _ _ E) as (Herr & Hprog & Hcache & _).
    subst call. rewrite E. cbn [fst snd]. auto. }
  split.
  - destruct (Hfirst [fileB; unreadable; fileA] with_A "NotReadableError" 1%nat
                ltac:(by_computation) ltac:(by_computation) ltac:(discriminate))
      as (Hr & Herr & Hprog & Hcache).
    split; [exact Hr|]. split; [exact Herr|]. split; [exact Hprog|].
    split; [exact Hcache | by_computation].
  - destruct (Hfirst [fileA; fileB] tight "事务错误: QuotaExceededError" 1%nat
                ltac:(by_computation) ltac:(by_computation) ltac:(discriminate))
      as (Hr & Herr & _).
    split; [exact Hr|]. split; [exact Herr | by_computation].
Defined.

(** * More of the hook *)

(** ** The blob store on its own *)

Lemma set_fileStorage_same (st : State) : set_fileStorage (fileStorage st) st = st.
Proof. destruct st; reflexivity. Qed.

Lemma matches_iff (formId field : string) (r : StoredFile.t) :
  matches formId field r = true
  <-> StoredFile.formId r = formId /\ StoredFile.fieldName r = field.
Proof.
  unfold matches. rewrite andb_true_iff, !String.eqb_eq. reflexivity.
Qed.

(** X1. Before the database is opened every operation of the blob store
    throws and changes nothing. *)
Theorem FileStorage_closed (file : File.t) (formId field : string)
  (onProgress : Z -> Z -> M unit) (st : State) :
  initialized st = false ->
  FileStorage_saveFile file formId field onProgress st = (Throw "数据库未初始化", st)
  /\ FileStorage_getFiles formId field st = (Throw "数据库未初始化", st)
  /\ FileStorage_clearFiles formId st = (Throw "数据库未初始化", st).
Proof.
  unfold initialized. intros Hi. repeat apply conj.
  - unfold FileStorage_saveFile, bind, gets. rewrite Hi. reflexivity.
  - unfold FileStorage_getFiles, with_store. rewrite Hi. apply f_equal, set_fileStorage_same.
  - unfold FileStorage_clearFiles, with_store. rewrite Hi. apply f_equal, set_fileStorage_same.
Qed.

(** X2. A file that [saveFile] stores is what [getFiles] lists last for its
    form and field, under the key [saveFile] returned and stamped with the
    time of the save; the lists of every other form or field are as
    before. *)
Theorem saveFile_getFiles (file : File.t) (formId field : string)
  (st st' : State) (key : Z) :
  FileStorage_saveFile file formId field (fun _ _ => ret tt) st = (Ok key, st') ->
  exists rec,
    StoredFile.fileId rec = key
    /\ stored_as formId field file rec
    /\ StoredFile.savedTime rec = toISOString (clock st)
    /\ FileStorage_getFiles formId field st'
       = (Ok (records_of formId field st ++ [rec]), st')
    /\ forall g f, (g <> formId \/ f <> field) ->
                   records_of g f st' = records_of g f st.
Proof.
  unfold FileStorage_saveFile, bind, gets.
  destruct (FileStorage.isInitialized (fileStorage st)) eqn:Hi; cbn [negb];
    [|discriminate].
  destruct (File.content file) as [buffer|] eqn:Hc; [|discriminate].
  unfold ret, Date_now, gets, with_store.
  destruct (over_quota (fileStorage st) buffer); [discriminate|].
  intros [= <- <-].
  exists (StoredFile.mk (FileStorage.nextKey (fileStorage st)) formId field
            (File.name file) (File.type file) (File.size file)
            (File.lastModified file) buffer (toISOString (clock st))).
  split; [reflexivity|]. split; [|split; [reflexivity|split]].
  - unfold stored_as. cbn. repeat split. exact Hc.
  - unfold FileStorage_getFiles, with_store. cbn. rewrite Hi.
    unfold records_of. rewrite filter_app, filter_cons_True, filter_nil
      by (apply matches_iff; split; reflexivity).
    destruct st; reflexivity.
  - intros g f Hne. unfold records_of. cbn. rewrite filter_app.
    rewrite filter_cons_False, filter_nil, app_nil_r; [reflexivity|].
    rewrite matches_iff. cbn. intros [-> ->]. destruct Hne; congruence.
Qed.

Lemma clearFiles_isolated_aux (formId : string) (st : State) :
  initialized st = true ->
  exists st',
    FileStorage_clearFiles formId st = (Ok tt, st')
    /\ (forall field, records_of formId field st' = [])
    /\ (forall g field, g <> formId -> records_of g field st' = records_of g field st)
    /\ blob_frame st st'
    /\ initialized st' = true.
Proof.
  unfold initialized. intros Hi. unfold FileStorage_clearFiles, with_store.
  rewrite Hi. eexists. split; [reflexivity|].
  split; [|split; [|split]].
  - intros field. unfold records_of. cbn. apply filter_none.
    intros r Hr. apply list_elem_of_filter in Hr as [Hr _].
    rewrite matches_iff. intros [Hf _].
    apply String.eqb_neq in Hr. contradiction.
  - intros g field Hg. unfold records_of. cbn.
    rewrite list_filter_filter. apply list_filter_iff.
    intros r. rewrite matches_iff. split; [tauto|]. intros [Hf Hn].
    split; [split; assumption|]. apply String.eqb_neq. congruence.
  - unfold blob_frame. destruct st; reflexivity.
  - cbn. exact Hi.
Qed.

(** X3. [clearFiles] removes every record of its form, whatever the field,
    and leaves the records of every other form as they are. *)
Theorem clearFiles_isolated (formId : string) (st : State) :
  initialized st = true ->
  exists st',
    FileStorage_clearFiles formId st = (Ok tt, st')
    /\ (forall field, records_of formId field st' = [])
    /\ (forall g field, g <> formId -> records_of g field st' = records_of g field st)
    /\ blob_frame st st'
    /\ initialized st' = true.
Proof. apply clearFiles_isolated_aux. Qed.

(** X4. Opening the blob store keeps its records; once it has succeeded,
    opening again changes nothing; and where IndexedDB is unavailable it
    fails and the store stays closed. *)
Theorem FileStorage_init_idempotent (st : State) :
  (store_usable st = true ->
   exists st',
     FileStorage_init st = (Ok tt, st')
     /\ initialized st' = true
     /\ FileStorage.records (fileStorage st') = FileStorage.records (fileStorage st)
     /\ blob_frame st st'
     /\ FileStorage_init st' = (Ok tt, st'))
  /\ (store_usable st = false ->
      exists e, FileStorage_init st = (Throw e, st)).
Proof.
  split.
  - intros Hu. rewrite (FileStorage_init_ok st Hu). eexists. split; [reflexivity|].
    split; [reflexivity|]. split; [reflexivity|]. split.
    + unfold blob_frame. destruct st; reflexivity.
    + rewrite FileStorage_init_ok by reflexivity. destruct st; reflexivity.
  - unfold store_usable, FileStorage_init, with_store.
    intros Hu. apply orb_false_iff in Hu as [-> ->].
    eexists. apply f_equal, set_fileStorage_same.
Qed.

(** ** Replacing the files of one field *)

(** The keys of the object store are unique: IndexedDB generates them. *)
Definition unique_ids (st : State) : Prop :=
  NoDup (map StoredFile.fileId (FileStorage.records (fileStorage st))).

(** The records of form [g] and field [f] are the same in both states. *)
Definition same_records (g f : string) (st st' : State) : Prop :=
  records_of g f st' = records_of g f st.

Lemma same_records_refl g f st : same_records g f st st.
Proof. reflexivity. Qed.

Lemma same_records_trans g f a b c :
  same_records g f a b -> same_records g f b c -> same_records g f a c.
Proof. unfold same_records. congruence. Qed.

Lemma same_id_same_record (l : list StoredFile.t) (r o : StoredFile.t) :
  NoDup (map StoredFile.fileId l) -> r ∈ l -> o ∈ l ->
  StoredFile.fileId r = StoredFile.fileId o -> r = o.
Proof.
  induction l as [|x l IH]; intros Hnd Hr Ho E; [inversion Hr|].
  cbn [map] in Hnd. apply NoDup_cons in Hnd as [Hx Hnd].
  apply elem_of_cons in Hr as [->|Hr]; apply elem_of_cons in Ho as [->|Ho].
  - reflexivity.
  - exfalso. apply Hx. rewrite E. apply list_elem_of_fmap_2, Ho.
  - exfalso. apply Hx. rewrite <- E. apply list_elem_of_fmap_2, Hr.
  - apply IH; assumption.
Qed.

Lemma filter_agree {A : Type} (P Q : A -> Prop)
  `{forall x, Decision (P x)} `{forall x, Decision (Q x)} (l : list A) :
  (forall x, x ∈ l -> P x <-> Q x) -> filter P l = filter Q l.
Proof.
  induction l as [|x l IH]; intros Hl; [reflexivity|].
  assert (Hx : P x <-> Q x) by (apply Hl; left).
  assert (IH' : filter P l = filter Q l)
    by (apply IH; intros y Hy; apply Hl; right; exact Hy).
  destruct (decide (P x)) as [HP|HP].
  - rewrite (filter_cons_True P), (filter_cons_True Q) by tauto. congruence.
  - rewrite (filter_cons_False P), (filter_cons_False Q) by tauto. exact IH'.
Qed.

Lemma delete_each_records (old : list StoredFile.t) (st : State) :
  exists st',
    for_each old (fun oldFile => store_delete (StoredFile.fileId oldFile)) st
    = (Ok tt, st')
    /\ FileStorage.records (fileStorage st')
       = filter (fun r => StoredFile.fileId r ∉ map StoredFile.fileId old)
           (FileStorage.records (fileStorage st)).
Proof.
  revert st. induction old as [|o old IH]; intros st; cbn [for_each].
  - exists st. split; [reflexivity|]. symmetry. apply filter_all.
    intros r _ Hin. inversion Hin.
  - unfold bind, store_delete at 1, with_store. cbv beta iota.
    match goal with |- context [for_each old _ ?s] => destruct (IH s) as (st' & E & Hr) end.
    exists st'. split; [exact E|]. rewrite Hr. cbn.
    rewrite list_filter_filter. apply list_filter_iff. intros r. cbn [map].
    rewrite not_elem_of_cons, negb_true_iff, Z.eqb_neq. tauto.
Qed.

Section OtherRecords.
Variable formId : string.
Variable options : UseFormPersistenceOptions.
Variable field : string.
Variables g f : string.
Hypothesis other : g <> formId \/ f <> field.

Local Abbreviation keeps := (preserves (same_records g f)).

Local Ltac frame :=
  repeat first
    [ apply preserves_bind; [apply same_records_trans | | intros ?]
    | apply preserves_try_catch; [apply same_records_trans | | intros ?]
    | apply preserves_ret; apply same_records_refl
    | apply preserves_throw; apply same_records_refl
    | apply preserves_lift; apply same_records_refl
    | apply preserves_gets; apply same_records_refl
    | apply preserves_when
    | apply preserves_modify; intros ?; reflexivity ].

Lemma keeps_records_handleError message context :
  keeps (handleError options message context).
Proof. intros st r st' E. rewrite handleError_eq in E. injection E as _ <-. reflexivity. Qed.

Lemma keeps_records_getFiles a b : keeps (FileStorage_getFiles a b).
Proof.
  intros st r st' E. unfold FileStorage_getFiles, with_store in E.
  destruct (FileStorage.isInitialized (fileStorage st)); injection E as _ <-;
    unfold same_records, records_of; reflexivity.
Qed.

Lemma keeps_records_saveSingleFile file totalSize loadedSize :
  keeps (saveSingleFile formId file field totalSize loadedSize).
Proof.
  unfold saveSingleFile.
  apply preserves_bind; [apply same_records_trans | |].
  - unfold FileStorage_saveFile.
    apply preserves_bind; [apply same_records_trans | frame |].
    intros ini. destruct (negb ini); [frame|].
    destruct (File.content file) as [buffer|]; [|frame].
    apply preserves_bind; [apply same_records_trans | frame |]. intros _.
    apply preserves_bind; [apply same_records_trans | unfold Date_now; frame |].
    intros now. intros st r st' E. unfold with_store in E.
    destruct (over_quota (fileStorage st) buffer); injection E as _ <-;
      [reflexivity|].
    unfold same_records, records_of. cbn. rewrite filter_app.
    rewrite filter_cons_False, filter_nil, app_nil_r; [reflexivity|].
    rewrite matches_iff. cbn. intros [-> ->]. destruct other; congruence.
  - intros key. apply preserves_bind;
      [apply same_records_trans | apply keeps_records_getFiles |].
    intros saved. destruct (find _ saved); frame.
Qed.

Lemma keeps_records_save_each files :
  forall totalSize loadedSize newFiles,
    keeps (save_each formId files field totalSize loadedSize newFiles).
Proof.
  induction files as [|file files IH]; intros totalSize loadedSize newFiles;
    cbn [save_each]; [frame|].
  apply preserves_bind;
    [apply same_records_trans | apply keeps_records_saveSingleFile |].
  intros saved. apply IH.
Qed.

Lemma deleteOldFiles_other (st st' : State) (r : Result unit) :
  unique_ids st ->
  deleteOldFiles formId field st = (r, st') ->
  same_records g f st st'.
Proof.
  intros Hu. unfold deleteOldFiles, try_catch. unfold bind at 1.
  destruct (initialized st) eqn:Hi.
  - rewrite (getFiles_eq formId field st Hi).
    destruct (length (records_of formId field st) =? 0)%nat.
    + intros [= _ <-]. reflexivity.
    + unfold bind at 1, gets. unfold initialized in Hi. rewrite Hi. cbn [negb].
      destruct (delete_each_records (records_of formId field st) st) as (s1 & E1 & Hr).
      rewrite E1. intros [= _ <-].
      unfold same_records, records_of at 1. rewrite Hr.
      rewrite list_filter_filter. unfold records_of at 2.
      apply filter_agree. intros x Hxin.
      split; [tauto|]. intros Hx. split; [exact Hx|].
      intros Hin. apply list_elem_of_fmap in Hin as (o & Eid & Ho).
      unfold records_of in Ho. apply list_elem_of_filter in Ho as [Hm Ho].
      assert (x = o) by (eapply same_id_same_record; eassumption).
      subst o. apply matches_iff in Hx as [<- <-].
      apply matches_iff in Hm as [? ?]. destruct other; congruence.
  - rewrite (getFiles_closed formId field st Hi). unfold throw.
    intros [= _ <-]. reflexivity.
Qed.

(** X5. Replacing the files of a field touches no other field and no
    other form: whatever [saveFiles] does for its field, and whether it
    succeeds or fails, the records the store lists for any other form
    or field are the same afterwards. *)
Theorem saveFiles_other_records (files : list File.t) (st st' : State)
  (r : Result unit) :
  unique_ids st ->
  saveFiles formId options field files st = (r, st') ->
  records_of g f st' = records_of g f st.
Proof.
  intros Hu. unfold saveFiles, try_catch.
  unfold bind at 1, modify at 1. unfold bind at 1, modify at 1.
  unfold bind at 1.
  assert (Hh : forall e, keeps (errorMessage <- handleError options e "保存文件" ;;
                                modify (set_error (Some errorMessage)) ;;
                                modify (set_uploadProgress None) ;; @throw unit e)).
  { intros e. apply preserves_bind;
      [apply same_records_trans | apply keeps_records_handleError |].
    intros msg. frame. }
  destruct (String.eqb field "" || (length files =? 0)%nat).
  - unfold throw at 1. intros E. apply Hh in E. exact E.
  - unfold ret at 1. unfold bind at 1.
    destruct (deleteOldFiles formId field
                (set_uploadProgress None (set_error None st)))
      as [[[]|e] s1] eqn:Ed;
      apply (deleteOldFiles_other
               (set_uploadProgress None (set_error None st)) _ _ Hu) in Ed;
      change (records_of g f s1 = records_of g f st) in Ed.
    + assert (Hrest : keeps
         (newFiles <- save_each formId files field
                        (foldl (fun sum file => sum + File.size file) 0 files) 0 [] ;;
          set_fileData_field field newFiles ;;
          modify (set_hasUnsavedChanges true) ;;
          modify (set_uploadProgress None))).
      { apply preserves_bind;
          [apply same_records_trans | apply keeps_records_save_each |].
        intros newFiles. unfold set_fileData_field. frame. }
      match goal with
      | |- context [bind ?m ?k s1] =>
          change (bind m k s1) with
            ((newFiles <- save_each formId files field
                            (foldl (fun sum file => sum + File.size file) 0 files) 0 [] ;;
              set_fileData_field field newFiles ;;
              modify (set_hasUnsavedChanges true) ;;
              modify (set_uploadProgress None)) s1)
      end.
      destruct ((newFiles <- save_each formId files field
                            (foldl (fun sum file => sum + File.size file) 0 files) 0 [] ;;
              set_fileData_field field newFiles ;;
              modify (set_hasUnsavedChanges true) ;;
              modify (set_uploadProgress None)) s1) as [[[]|e] s2] eqn:Er;
        apply Hrest in Er.
      * intros [= _ <-]. unfold same_records in *. congruence.
      * intros E. apply Hh in E. unfold same_records in *. congruence.
    + intros E. apply Hh in E. unfold same_records in *. congruence.
Qed.
End OtherRecords.

Section FilesFacts.
Variable formId : string.
Variable options : UseFormPersistenceOptions.

(** X6. A successful [saveFiles] clears the error and the progress and
    raises the unsaved flag; it writes nothing to the text tiers, reports
    nothing, leaves the form alone and changes the cache entry of its
    own field only. *)
Theorem saveFiles_success_state (field : string) (files : list File.t)
  (st st' : State) :
  saveFiles formId options field files st = (Ok tt, st') ->
  error st' = None
  /\ uploadProgress st' = None
  /\ hasUnsavedChanges st' = true
  /\ formData st' = formData st
  /\ sessionStorage st' = sessionStorage st
  /\ localStorage st' = localStorage st
  /\ trace st' = trace st
  /\ forall other, other <> field ->
       obj_get other (fileData st') = obj_get other (fileData st).
Proof.
  intros E.
  destruct (saveFiles_cases formId options field files st)
    as [[_ E'] | [(_ & _ & E') | (_ & _ & s2 & Hf & _ & [(e & k & E' & _) | [E' _]])]];
    rewrite E' in E; try discriminate.
  injection E as <-. unfold blob_frame in Hf. rewrite Hf. cbn.
  repeat apply conj; try reflexivity.
  intros other Hne. apply obj_get_set_ne. exact Hne.
Qed.

Lemma obj_get_foldl_set {A : Type} (h : string -> A) (l : list string)
  (o : list (string * A)) (k : string) :
  obj_get k (foldl (fun acc x => obj_set x (h x) acc) o l)
  = if bool_decide (k ∈ l) then Some (h k) else obj_get k o.
Proof.
  revert o. induction l as [|x l IH]; intros o; cbn [foldl]; [reflexivity|].
  rewrite IH. destruct (decide (k ∈ l)) as [Hin|Hin].
  - rewrite !bool_decide_eq_true_2; [reflexivity | right; exact Hin | exact Hin].
  - rewrite (bool_decide_eq_false_2 _ Hin).
    destruct (decide (k = x)) as [->|Hne].
    + rewrite bool_decide_eq_true_2 by left. apply obj_get_set_eq.
    + rewrite bool_decide_eq_false_2
        by (intros H; apply elem_of_cons in H as [?|?]; contradiction).
      apply obj_get_set_ne. exact Hne.
Qed.

Lemma restore_each (l : list string) (st : State) :
  initialized st = true ->
  for_each l (fun field =>
    files <- FileStorage_getFiles formId field ;;
    set_fileData_field field files) st
  = (Ok tt,
     set_fileData
       (foldl (fun acc field => obj_set field (records_of formId field st) acc)
          (fileData st) l) st).
Proof.
  intros Hi.
  assert (G : forall fd,
    for_each l (fun field =>
      files <- FileStorage_getFiles formId field ;;
      set_fileData_field field files) (set_fileData fd st)
    = (Ok tt,
       set_fileData
         (foldl (fun acc field => obj_set field (records_of formId field st) acc)
            fd l) st)).
  { induction l as [|x l IH]; intros fd; cbn [for_each foldl]; [reflexivity|].
    unfold bind at 1. unfold bind at 1.
    rewrite (getFiles_eq formId x (set_fileData fd st)) by exact Hi.
    unfold set_fileData_field at 1, modify. cbv beta iota.
    change (records_of formId x (set_fileData fd st)) with (records_of formId x st).
    apply (IH (obj_set x (records_of formId x st) fd)). }
  specialize (G (fileData st)).
  replace (set_fileData (fileData st) st) with st in G by (destruct st; reflexivity).
  exact G.
Qed.

(** X7. Restoring the files reads, for every configured file field, the
    records the store lists for it into the cache, and changes nothing
    else; when it is told not to restore it does nothing; and when the
    store is closed it reports the failure and leaves the cache as it
    is. *)
Theorem restoreFileData_lists (st : State) :
  restoreFileData formId options false st = (Ok tt, st)
  /\ (initialized st = true ->
      exists cache,
        restoreFileData formId options true st = (Ok tt, set_fileData cache st)
        /\ (forall field, field ∈ fileFields options ->
              obj_get field cache = Some (records_of formId field st))
        /\ (forall field, field ∉ fileFields options ->
              obj_get field cache = obj_get field (fileData st)))
  /\ (initialized st = false -> fileFields options <> [] ->
      restoreFileData formId options true st
      = (Ok tt,
         set_trace (trace st ++ reports options "数据库未初始化" "恢复文件数据") st)).
Proof.
  split; [reflexivity|]. split.
  - intros Hi. unfold restoreFileData, try_catch. cbn [negb].
    rewrite (restore_each _ st Hi). eexists. split; [reflexivity|].
    split; intros field Hin; rewrite obj_get_foldl_set.
    + rewrite bool_decide_eq_true_2 by exact Hin. reflexivity.
    + rewrite bool_decide_eq_false_2 by exact Hin. reflexivity.
  - intros Hi Hne. unfold restoreFileData, try_catch. cbn [negb].
    destruct (fileFields options) as [|x l]; [contradiction|].
    cbn [for_each]. unfold bind at 1. unfold bind at 1.
    rewrite (getFiles_closed formId x st Hi).
    unfold bind. rewrite handleError_eq. reflexivity.
Qed.

(** X8. With no snapshot in either text tier [restoreData] restores
    nothing: the form, the file cache and the stores stay as they are,
    whatever the blob store holds, and only the unsaved flag and the
    error are recomputed. *)
Theorem restoreData_without_snapshot (st : State) :
  sessionStorage st !! sessionKey formId = None ->
  localStorage st !! storageKey formId = None ->
  restoreData formId options st = (Ok tt, recomputed st).
Proof.
  intros Hs Hd.
  assert (Hh : hasLocalStorageData formId st = false).
  { unfold hasLocalStorageData. rewrite Hd.
    apply bool_decide_eq_false_2. intros [? ?]; discriminate. }
  assert (Hse : sessionExists formId st = false).
  { unfold sessionExists. rewrite Hs.
    apply bool_decide_eq_false_2. intros [? ?]; discriminate. }
  assert (Hc : isCrashRecovery formId st = false).
  { unfold isCrashRecovery. rewrite Hh, andb_false_r. reflexivity. }
  destruct (restoreData_nothing formId options st
              ltac:(rewrite Hs; reflexivity) Hc) as (st' & E & _ & _ & _ & Hst).
  rewrite E, Hst; [reflexivity|].
  rewrite Hse, Hh, andb_false_r. reflexivity.
Qed.
End FilesFacts.

(** ** What the hook touches in the text tiers *)

Lemma preserves_weaken (R R' : State -> State -> Prop) {A : Type} (m : M A) :
  (forall st st', R st st' -> R' st st') -> preserves R m -> preserves R' m.
Proof. intros H Hm st r st' E. apply H. exact (Hm _ _ _ E). Qed.

(** Only the trace differs. *)
Definition only_trace (st st' : State) : Prop := st' = set_trace (trace st') st.

Lemma only_trace_refl (st : State) : only_trace st st.
Proof. unfold only_trace. destruct st; reflexivity. Qed.

Lemma only_trace_trans (a b c : State) : only_trace a b -> only_trace b c -> only_trace a c.
Proof. unfold only_trace. intros Hab Hbc. rewrite Hbc, Hab. reflexivity. Qed.

Section Quiet.
Variable options : UseFormPersistenceOptions.

Local Abbreviation quiet := (preserves only_trace).

Local Ltac frame :=
  repeat first
    [ apply preserves_bind; [apply only_trace_trans | | intros ?]
    | apply preserves_try_catch; [apply only_trace_trans | | intros ?]
    | apply preserves_ret; apply only_trace_refl
    | apply preserves_throw; apply only_trace_refl
    | apply preserves_lift; apply only_trace_refl
    | apply preserves_gets; apply only_trace_refl ].

Lemma quiet_handleError message context : quiet (handleError options message context).
Proof.
  intros st r st' E. rewrite handleError_eq in E. injection E as _ <-. reflexivity.
Qed.

Lemma quiet_field_hooks select failure fields d :
  quiet (field_hooks options select failure fields d).
Proof.
  revert d. induction fields as [|f fields IH]; intros d; cbn [field_hooks]; [frame|].
  apply preserves_bind; [apply only_trace_trans | | exact IH].
  unfold field_hook. apply preserves_bind; [apply only_trace_trans | frame |].
  intros [mw|]; [|frame]. destruct (select mw); [|frame].
  apply preserves_try_catch; [apply only_trace_trans | frame |].
  intros e. apply preserves_bind; [apply only_trace_trans | apply quiet_handleError|].
  intros _. frame.
Qed.

Lemma quiet_global_hook select failure d :
  quiet (global_hook options select failure d).
Proof.
  unfold global_hook. apply preserves_bind; [apply only_trace_trans | frame |].
  intros mw. destruct (select mw); [|frame].
  apply preserves_try_catch; [apply only_trace_trans | frame |].
  intros e. apply preserves_bind; [apply only_trace_trans | apply quiet_handleError|].
  intros _. frame.
Qed.

Lemma quiet_applyBeforeSaveTransform data :
  quiet (applyBeforeSaveTransform options data).
Proof.
  unfold applyBeforeSaveTransform.
  apply preserves_bind; [apply only_trace_trans | frame |]. intros ks.
  apply preserves_bind; [apply only_trace_trans | apply quiet_field_hooks |].
  intros d. apply quiet_global_hook.
Qed.

Lemma quiet_applyAfterRestoreTransform data :
  quiet (applyAfterRestoreTransform options data).
Proof.
  unfold applyAfterRestoreTransform.
  apply preserves_bind; [apply only_trace_trans | apply quiet_global_hook |].
  intros d. apply preserves_bind; [apply only_trace_trans | frame |].
  intros ks. apply quiet_field_hooks.
Qed.

Lemma quiet_isDataExpired savedAt : quiet (isDataExpired options savedAt).
Proof.
  intros st r st' E. rewrite isDataExpired_eq in E. injection E as _ <-.
  apply only_trace_refl.
Qed.
End Quiet.

(** The keys of form [a] in the two text tiers. *)
Definition touches (a : string) (st st' : State) : Prop :=
  (forall k, k <> storageKey a -> k <> normalCloseKey a ->
             localStorage st' !! k = localStorage st !! k)
  /\ (forall k, k <> sessionKey a -> k <> normalCloseKey a ->
                sessionStorage st' !! k = sessionStorage st !! k).

Lemma touches_refl a st : touches a st st.
Proof. split; intros; reflexivity. Qed.

Lemma touches_trans a x y z : touches a x y -> touches a y z -> touches a x z.
Proof.
  intros [H1 H2] [H3 H4]. split; intros k ? ?.
  - rewrite H3, H1 by assumption. reflexivity.
  - rewrite H4, H2 by assumption. reflexivity.
Qed.

Lemma only_trace_touches a st st' : only_trace st st' -> touches a st st'.
Proof. intros ->. split; intros; reflexivity. Qed.

Section Footprint.
Variable formId : string.
Variable options : UseFormPersistenceOptions.

Local Abbreviation inside := (preserves (touches formId)).

Lemma inside_quiet {A : Type} (m : M A) : preserves only_trace m -> inside m.
Proof. apply preserves_weaken, only_trace_touches. Qed.

Lemma inside_session_set k v :
  k = sessionKey formId \/ k = normalCloseKey formId ->
  inside (sessionStorage_setItem k v).
Proof.
  intros Hk st r st' [= _ <-]. split; intros k' H1 H2; cbn; [reflexivity|].
  apply lookup_insert_ne. destruct Hk; congruence.
Qed.

Lemma inside_session_remove k :
  k = sessionKey formId \/ k = normalCloseKey formId ->
  inside (sessionStorage_removeItem k).
Proof.
  intros Hk st r st' [= _ <-]. split; intros k' H1 H2; cbn; [reflexivity|].
  apply lookup_delete_ne. destruct Hk; congruence.
Qed.

Lemma inside_local_set k v :
  k = storageKey formId \/ k = normalCloseKey formId ->
  inside (localStorage_setItem k v).
Proof.
  intros Hk st r st' [= _ <-]. split; intros k' H1 H2; cbn; [|reflexivity].
  apply lookup_insert_ne. destruct Hk; congruence.
Qed.

Lemma inside_local_remove k :
  k = storageKey formId \/ k = normalCloseKey formId ->
  inside (localStorage_removeItem k).
Proof.
  intros Hk st r st' [= _ <-]. split; intros k' H1 H2; cbn; [|reflexivity].
  apply lookup_delete_ne. destruct Hk; congruence.
Qed.

Lemma inside_with_store {A : Type} (f : FileStorage.t -> Result A * FileStorage.t) :
  inside (with_store f).
Proof.
  intros st r st' E. unfold with_store in E.
  destruct (f (fileStorage st)) as [r0 fs]. injection E as _ <-.
  split; intros; reflexivity.
Qed.

Local Ltac leaf :=
  first
    [ apply preserves_ret; apply touches_refl
    | apply preserves_throw; apply touches_refl
    | apply preserves_lift; apply touches_refl
    | apply preserves_gets; apply touches_refl
    | apply inside_with_store
    | apply inside_session_set; auto
    | apply inside_session_remove; auto
    | apply inside_local_set; auto
    | apply inside_local_remove; auto
    | apply inside_quiet; first
        [ apply quiet_handleError | apply quiet_applyBeforeSaveTransform
        | apply quiet_applyAfterRestoreTransform | apply quiet_isDataExpired ]
    | apply preserves_modify; intros ?; split; intros; reflexivity ].

Local Ltac frame_with known :=
  repeat first
    [ known
    | leaf
    | apply preserves_bind; [apply touches_trans | | intros ?]
    | apply preserves_try_catch; [apply touches_trans | | intros ?]
    | apply preserves_when; [apply touches_refl |]
    | apply preserves_for_each; [apply touches_refl | apply touches_trans | intros ?]
    | match goal with
      | |- preserves _ (if ?b then _ else _) => destruct b
      | |- preserves _ (match ?x with _ => _ end) => destruct x
      end ].

Local Ltac frame := frame_with fail.

Lemma inside_parse_json text : inside (parse_json text).
Proof. unfold parse_json. frame. Qed.

Lemma inside_restoreFromSessionStorage : inside (restoreFromSessionStorage formId options).
Proof. unfold restoreFromSessionStorage. frame_with ltac:(apply inside_parse_json). Qed.

Lemma inside_restoreFromLocalStorage : inside (restoreFromLocalStorage formId options).
Proof. unfold restoreFromLocalStorage. frame_with ltac:(apply inside_parse_json). Qed.

Lemma inside_restoreFileData b : inside (restoreFileData formId options b).
Proof.
  unfold restoreFileData, FileStorage_getFiles, set_fileData_field. frame.
Qed.

Lemma inside_restoreData : inside (restoreData formId options).
Proof.
  unfold restoreData, sessionStorage_getItem, localStorage_getItem.
  frame_with ltac:(first
    [ apply inside_restoreFromSessionStorage
    | apply inside_restoreFromLocalStorage
    | apply inside_restoreFileData ]).
Qed.

Lemma inside_saveTextData : inside (saveTextData formId options).
Proof.
  intros st r st' E.
  destruct (saveTextData_completes formId options st) as (text & pre & E' & _).
  rewrite E' in E. injection E as _ <-.
  split; intros k H1 H2; cbn; apply lookup_insert_ne; congruence.
Qed.

Lemma inside_handlePageClose : inside (handlePageClose formId options).
Proof.
  unfold handlePageClose, handlePageLeave.
  frame_with ltac:(apply inside_saveTextData).
Qed.

Lemma inside_run_timers : inside (run_timers formId).
Proof. unfold run_timers, run_task, sessionStorage_getItem. frame. Qed.

Lemma inside_clearStorage : inside (clearStorage formId options).
Proof.
  unfold clearStorage, FileStorage_clearFiles, reset_fileData, set_fileData_field.
  frame.
Qed.

Lemma inside_cleanNormalCloseData : inside (cleanNormalCloseData formId options).
Proof.
  unfold cleanNormalCloseData, FileStorage_clearFiles, reset_fileData,
    set_fileData_field.
  frame.
Qed.

Lemma inside_onMounted : inside (onMounted formId options).
Proof.
  unfold onMounted, FileStorage_init, sessionStorage_getItem, localStorage_getItem.
  frame_with ltac:(first
    [ apply inside_restoreData | apply inside_cleanNormalCloseData ]).
Qed.

Lemma inside_saveFiles field files : inside (saveFiles formId options field files).
Proof.
  unfold saveFiles.
  assert (Hdel : inside (deleteOldFiles formId field)).
  { unfold deleteOldFiles, FileStorage_getFiles, store_delete. frame. }
  assert (Hone : forall file total loaded,
             inside (saveSingleFile formId file field total loaded)).
  { intros file total loaded.
    unfold saveSingleFile, FileStorage_saveFile, FileStorage_getFiles, Date_now.
    frame. }
  assert (Heach : forall total loaded newFiles,
             inside (save_each formId files field total loaded newFiles)).
  { induction files as [|file rest IH]; intros total loaded newFiles;
      cbn [save_each]; [frame|].
    apply preserves_bind; [apply touches_trans | apply Hone |].
    intros saved. apply IH. }
  unfold set_fileData_field.
  frame_with ltac:(first [ apply Hdel | apply Heach ]).
Qed.
End Footprint.

(** The operations the hook hands out or registers, for form [a]. *)
Inductive operation (a : string) (options : UseFormPersistenceOptions) :
  M unit -> Prop :=
| op_onMounted : operation a options (onMounted a options)
| op_restoreData : operation a options (restoreData a options)
| op_saveTextData : operation a options (saveTextData a options)
| op_onFormMutation field val : operation a options (onFormMutation a options field val)
| op_saveFiles field files : operation a options (saveFiles a options field files)
| op_handlePageLeave : operation a options (handlePageLeave a options)
| op_handlePageClose : operation a options (handlePageClose a options)
| op_run_timers : operation a options (run_timers a)
| op_clearStorage : operation a options (clearStorage a options)
| op_clearError : operation a options clearError
| op_onUnmounted : operation a options onUnmounted.

Lemma operation_footprint_aux (a : string) (options : UseFormPersistenceOptions)
  (m : M unit) (st st' : State) (r : Result unit) :
  operation a options m ->
  m st = (r, st') ->
  (forall k, k <> storageKey a -> k <> normalCloseKey a ->
             localStorage st' !! k = localStorage st !! k)
  /\ (forall k, k <> sessionKey a -> k <> normalCloseKey a ->
                sessionStorage st' !! k = sessionStorage st !! k).
Proof.
  intros Hop E. change (touches a st st').
  revert st r st' E. change (preserves (touches a) m).
  destruct Hop.
  - apply inside_onMounted.
  - apply inside_restoreData.
  - apply inside_saveTextData.
  - unfold onFormMutation.
    apply preserves_bind; [apply touches_trans | | intros _; apply inside_saveTextData].
    apply preserves_modify. intros st. split; intros; reflexivity.
  - apply inside_saveFiles.
  - unfold handlePageLeave.
    apply preserves_bind; [apply touches_trans | apply preserves_gets, touches_refl |].
    intros b. apply preserves_when; [apply touches_refl | apply inside_saveTextData].
  - apply inside_handlePageClose.
  - apply inside_run_timers.
  - apply inside_clearStorage.
  - apply preserves_modify. intros st. split; intros; reflexivity.
  - apply preserves_modify. intros st. split; intros; reflexivity.
Qed.

(** X9. Whatever an operation of the hook for form [a] does, and however
    it ends, the only entries of the durable tier it can change are the
    snapshot and the close marker of [a], and the only entries of the
    session tier are the session snapshot and the close marker of [a]. *)
Theorem operation_footprint (a : string) (options : UseFormPersistenceOptions)
  (m : M unit) (st st' : State) (r : Result unit) :
  operation a options m ->
  m st = (r, st') ->
  (forall k, k <> storageKey a -> k <> normalCloseKey a ->
             localStorage st' !! k = localStorage st !! k)
  /\ (forall k, k <> sessionKey a -> k <> normalCloseKey a ->
                sessionStorage st' !! k = sessionStorage st !! k).
Proof. apply operation_footprint_aux. Qed.

Lemma append_inj_l (s a b : string) : a +:+ s = b +:+ s -> a = b.
Proof.
  revert b. induction a as [|c a IH]; intros [|d b] H.
  - reflexivity.
  - exfalso. apply (f_equal String.length) in H.
    rewrite app_nil_s, app_cons in H. cbn in H. rewrite length_app_s in H. lia.
  - exfalso. apply (f_equal String.length) in H.
    rewrite app_nil_s, app_cons in H. cbn in H. rewrite length_app_s in H. lia.
  - rewrite !app_cons in H. injection H as -> H. f_equal. apply IH, H.
Qed.

Lemma append_last (a b : string) (c d : ascii) :
  a +:+ String c "" = b +:+ String d "" -> c = d.
Proof.
  revert b. induction a as [|x a IH]; intros [|y b] H.
  - rewrite !app_nil_s in H. injection H as H. exact H.
  - rewrite app_nil_s, app_cons in H. injection H as _ H. destruct b; discriminate.
  - rewrite app_nil_s, app_cons in H. injection H as _ H. destruct a; discriminate.
  - rewrite !app_cons in H. injection H as _ H. exact (IH _ H).
Qed.

Lemma session_suffix_ne_close_suffix (a b : string) :
  b +:+ "_session" <> a +:+ "_normal_close".
Proof.
  intros H.
  change "_session" with ("_sessio" +:+ "n") in H.
  change "_normal_close" with ("_normal_clos" +:+ "e") in H.
  rewrite <- !app_assoc_s in H. apply append_last in H. discriminate.
Qed.

(** X10. Two forms with different ids have different snapshot keys and
    different marker keys, so an operation of one form leaves the session
    snapshot, the session marker and the durable snapshot of the other as
    they are; the durable marker of the other is safe too unless the id of
    the acting form is the other id followed by [_normal_close], in which
    case the durable snapshot of the one and the marker of the other are
    the same entry. *)
Theorem forms_isolated (a b : string) (options : UseFormPersistenceOptions)
  (m : M unit) (st st' : State) (r : Result unit) :
  a <> b ->
  operation a options m ->
  m st = (r, st') ->
  sessionStorage st' !! sessionKey b = sessionStorage st !! sessionKey b
  /\ sessionStorage st' !! normalCloseKey b = sessionStorage st !! normalCloseKey b
  /\ (b <> a +:+ "_normal_close" ->
      localStorage st' !! storageKey b = localStorage st !! storageKey b)
  /\ (a <> b +:+ "_normal_close" ->
      localStorage st' !! normalCloseKey b = localStorage st !! normalCloseKey b)
  /\ storageKey (b +:+ "_normal_close") = normalCloseKey b.
Proof.
  intros Hab Hop E.
  destruct (operation_footprint_aux a options m st st' r Hop E) as [Hl Hs].
  assert (Happ : forall x y : string,
             STORAGE_PREFIX +:+ x = STORAGE_PREFIX +:+ y -> x = y)
    by (intros x y H; exact (String.app_inj _ _ _ H)).
  repeat apply conj.
  - apply Hs; unfold sessionKey, normalCloseKey; intros H; apply Happ in H.
    + apply append_inj_l in H. congruence.
    + exact (session_suffix_ne_close_suffix _ _ H).
  - apply Hs; unfold sessionKey, normalCloseKey; intros H; apply Happ in H.
    + symmetry in H. exact (session_suffix_ne_close_suffix _ _ H).
    + apply append_inj_l in H. congruence.
  - intros Hb. apply Hl; unfold storageKey, normalCloseKey; intros H; apply Happ in H.
    + congruence.
    + congruence.
  - intros Ha. apply Hl; unfold storageKey, normalCloseKey; intros H; apply Happ in H.
    + congruence.
    + apply append_inj_l in H. congruence.
  - unfold storageKey, normalCloseKey. reflexivity.
Qed.

(** ** Reading a tier *)





(** No character of the text is a decimal digit. *)
Fixpoint no_digit (s : string) : bool :=
  match s with
  | EmptyString => true
  | String c s' =>
      match digit_val c with
      | Some _ => false
      | None => no_digit s'
      end
  end.

Section TierFacts.
Variable formId : string.
Variable options : UseFormPersistenceOptions.


(** X11. A snapshot that is not JSON is neither restored nor removed:
    each tier reports the failure under its own context, answers that
    nothing was restored, and leaves the text where it is.  The text
    is one without digits, so that it is the structure, not the
    number syntax, that makes the parse fail. *)
Theorem corrupt_snapshot_kept (st : State) (text : string) :
  JSON_parse text = None ->
  no_digit text = true ->
  text <> EmptyString ->
  (sessionStorage st !! sessionKey formId = Some text ->
   exists message,
     restoreFromSessionStorage formId options st
     = (Ok (JObj [], false),
        set_trace (trace st ++ reports options message "从sessionStorage恢复数据") st))
  /\ (localStorage st !! storageKey formId = Some text ->
      exists message,
        restoreFromLocalStorage formId options st
        = (Ok (JObj [], false),
           set_trace (trace st ++ reports options message "从localStorage恢复数据") st)).
Proof.
  intros Hp _ Hne.
  assert (Hn : no_text (Some text) = false).
  { cbn. apply String.eqb_neq. exact Hne. }
  split; intros Hk; eexists.
  - unfold restoreFromSessionStorage, try_catch. unfold bind at 1.
    unfold sessionStorage_getItem, gets. rewrite Hk, Hn.
    unfold bind at 1. cbn [default from_option]. unfold id, parse_json.
    rewrite Hp. unfold throw. unfold bind. rewrite handleError_eq. reflexivity.
  - unfold restoreFromLocalStorage, try_catch. unfold bind at 1.
    unfold localStorage_getItem, gets. rewrite Hk, Hn.
    unfold bind at 1. cbn [default from_option]. unfold id, parse_json.
    rewrite Hp. unfold throw. unfold bind. rewrite handleError_eq. reflexivity.
Qed.


(** X13. When the durable tier hands a snapshot back, the raw text it
    read is now the session snapshot and the durable tier is as it was;
    when it hands nothing back, it hands back the empty object and the
    session tier is as it was. *)
Theorem durable_restore_mirrors (st st' : State) (v : value) (ok : bool) :
  restoreFromLocalStorage formId options st = (Ok (v, ok), st') ->
  if ok then
    exists text,
      localStorage st !! storageKey formId = Some text
      /\ sessionStorage st' = <[sessionKey formId := text]> (sessionStorage st)
      /\ localStorage st' = localStorage st
  else v = JObj [] /\ sessionStorage st' = sessionStorage st.
Proof.
  unfold restoreFromLocalStorage, try_catch. unfold bind at 1.
  unfold localStorage_getItem, gets.
  assert (Hh : forall e s r s',
             (handleError options e "从localStorage恢复数据" ;;
              ret (JObj [], false)) s = (Ok r, s') ->
             r = (JObj [], false) /\ sessionStorage s' = sessionStorage s).
  { intros e s r s'. unfold bind. rewrite handleError_eq. intros [= <- <-].
    split; reflexivity. }
  destruct (no_text (localStorage st !! storageKey formId)) eqn:Hn.
  { intros E. inversion E; subst. split; reflexivity. }
  destruct (localStorage st !! storageKey formId) as [text|] eqn:Hk; [|discriminate].
  cbn [default from_option]. unfold id. unfold bind at 1. unfold parse_json.
  destruct (JSON_parse text) as [parsed|].
  2:{ intros E. apply Hh in E as [[= -> ->] Hs]. split; [reflexivity | exact Hs]. }
  unfold ret at 1. unfold bind at 1. unfold lift at 1.
  destruct (js_get parsed "savedAt") as [savedAt|e].
  2:{ intros E. apply Hh in E as [[= -> ->] Hs]. split; [reflexivity | exact Hs]. }
  unfold bind at 1. rewrite isDataExpired_eq.
  destruct (expired options savedAt (clock st)).
  { intros E. inversion E; subst. split; reflexivity. }
  unfold bind at 1.
  destruct (applyAfterRestoreTransform options
              (JObj (obj_delete "savedAt" (spread parsed))) st)
    as [[d|e] s1] eqn:Ea;
    apply quiet_applyAfterRestoreTransform in Ea.
  - intros E. inversion E; subst. exists text. rewrite Ea. cbn. repeat split.
  - intros E. apply Hh in E as [[= -> ->] Hs]. split; [reflexivity|].
    rewrite Hs, Ea. reflexivity.
Qed.




End TierFacts.

(** ** Page events *)

Section PageFacts.
Variable formId : string.
Variable options : UseFormPersistenceOptions.

Lemma handlePageClose_visible (st : State) :
  visibilityState st = visible ->
  handlePageClose formId options st
  = if hasUnsavedChanges st then saveTextData formId options st else (Ok tt, st).
Proof.
  intros Hv. unfold handlePageClose. unfold bind at 1, gets at 1.
  destruct (hasUnsavedChanges st) eqn:Hu; cbn [when].
  - unfold bind at 1. unfold handlePageLeave. unfold bind at 1, gets at 1.
    rewrite Hu. cbn [when].
    destruct (saveTextData_completes formId options st) as (text & pre & E & _).
    rewrite E. unfold bind, gets. cbn. rewrite Hv. reflexivity.
  - unfold bind, ret, gets. rewrite Hv. reflexivity.
Qed.

Lemma visible_page_is_not_a_close_aux (st : State) :
  visibilityState st = visible ->
  exists st',
    handlePageClose formId options st = (Ok tt, st')
    /\ sessionStorage st' !! normalCloseKey formId
       = sessionStorage st !! normalCloseKey formId
    /\ localStorage st' !! normalCloseKey formId
       = localStorage st !! normalCloseKey formId
    /\ timers st' = timers st.
Proof.
  intros Hv. rewrite (handlePageClose_visible st Hv).
  destruct (hasUnsavedChanges st).
  - destruct (saveTextData_completes formId options st) as (text & pre & E' & _).
    rewrite E'. eexists. split; [reflexivity|]. cbn. repeat apply conj.
    + apply lookup_insert_ne, sessionKey_ne_normalCloseKey.
    + apply lookup_insert_ne, storageKey_ne_normalCloseKey.
    + reflexivity.
  - exists st. repeat split.
Qed.

(** X16. A page event on a visible page is not a close: with nothing
    unsaved it changes nothing at all, and otherwise it is one text
    save; in both cases no close marker is written to either tier and
    no mirror task is queued. *)
Theorem visible_page_is_not_a_close (st : State) :
  visibilityState st = visible ->
  (hasUnsavedChanges st = false ->
   handlePageClose formId options st = (Ok tt, st))
  /\ (hasUnsavedChanges st = true ->
      handlePageClose formId options st = saveTextData formId options st)
  /\ exists st',
      handlePageClose formId options st = (Ok tt, st')
      /\ sessionStorage st' !! normalCloseKey formId
         = sessionStorage st !! normalCloseKey formId
      /\ localStorage st' !! normalCloseKey formId
         = localStorage st !! normalCloseKey formId
      /\ timers st' = timers st.
Proof.
  intros Hv. pose proof (handlePageClose_visible st Hv) as E.
  split; [intros Hu; rewrite E, Hu; reflexivity|].
  split; [intros Hu; rewrite E, Hu; reflexivity|].
  apply visible_page_is_not_a_close_aux, Hv.
Qed.

Lemma marker_after_save (st : State) :
  localStorage (run (saveTextData formId options) st) !! normalCloseKey formId
  = localStorage st !! normalCloseKey formId.
Proof.
  unfold run.
  destruct (saveTextData_completes formId options st) as (text & pre & E & _).
  rewrite E. cbn. apply lookup_insert_ne, storageKey_ne_normalCloseKey.
Qed.

(** X17. The close marker outlives the return to the page.  Once the
    page has been hidden and the mirror task has run, the durable marker
    is set; coming back to the visible page and editing the form leave
    it set, so a process that ends without any further signal is
    classified at the next start, with the session tier gone, as a
    normal restart and not as a crash. *)
Theorem marker_outlives_return (st : State) (field : string) (val : value) :
  visibilityState st = hidden ->
  let away := run (run_task formId MirrorCloseMarker)
                  (run (handlePageClose formId options) st) in
  let back := run (handlePageClose formId options)
                  (set_visibilityState visible away) in
  let edited := run (onFormMutation formId options field val) back in
  localStorage away !! normalCloseKey formId = Some "true"
  /\ localStorage back !! normalCloseKey formId = Some "true"
  /\ localStorage edited !! normalCloseKey formId = Some "true"
  /\ forall next,
       localStorage next = localStorage edited ->
       sessionStorage next !! sessionKey formId = None ->
       classify formId next = NormalRestart.
Proof.
  intros Hv away back edited.
  assert (Haway : localStorage away !! normalCloseKey formId = Some "true").
  { subst away.
    destruct (handlePageClose_eq formId options st Hv) as (s1 & E & _).
    unfold run at 2. rewrite E. cbn [snd]. unfold run.
    rewrite run_task_mirror by (cbn; apply lookup_insert_eq).
    cbn. apply lookup_insert_eq. }
  assert (Hback : localStorage back !! normalCloseKey formId = Some "true").
  { subst back.
    destruct (visible_page_is_not_a_close_aux (set_visibilityState visible away) eq_refl)
      as (s & E & _ & Hl & _).
    unfold run. rewrite E. cbn [snd]. rewrite Hl. exact Haway. }
  assert (Hedited : localStorage edited !! normalCloseKey formId = Some "true").
  { subst edited. unfold run, onFormMutation, bind, modify.
    match goal with
    | |- context [saveTextData formId options ?s] =>
        pose proof (marker_after_save s) as Hm
    end.
    unfold run in Hm. rewrite Hm. exact Hback. }
  split; [exact Haway|]. split; [exact Hback|]. split; [exact Hedited|].
  intros next Hl Hs. unfold classify, sessionExists, hasLocalStorageData, isNormalClose.
  rewrite Hs, Hl, Hedited.
  rewrite (bool_decide_eq_false_2 (is_Some None)) by (intros [? ?]; discriminate).
  rewrite (bool_decide_eq_true_2 (Some "true" = Some "true")) by reflexivity.
  rewrite andb_false_r. reflexivity.
Qed.
End PageFacts.

(** ** Clearing *)

Section ClearFacts.
Variable formId : string.
Variable options : UseFormPersistenceOptions.

Lemma reset_fileData_eq (st : State) :
  reset_fileData options st
  = (Ok tt,
     set_fileData
       (foldl (fun acc field => obj_set field [] acc) (fileData st)
          (fileFields options)) st).
Proof.
  unfold reset_fileData. generalize (fileFields options). intros l.
  assert (G : forall fd,
    for_each l (fun field => set_fileData_field field []) (set_fileData fd st)
    = (Ok tt,
       set_fileData (foldl (fun acc field => obj_set field [] acc) fd l) st)).
  { induction l as [|x l IH]; intros fd; cbn [for_each foldl]; [reflexivity|].
    unfold bind at 1. unfold set_fileData_field at 1, modify. cbv beta iota.
    apply (IH (obj_set x [] fd)). }
  specialize (G (fileData st)).
  replace (set_fileData (fileData st) st) with st in G by (destruct st; reflexivity).
  exact G.
Qed.

(** X18. With the blob store open, [clearStorage] removes the session
    snapshot, the durable snapshot and the close marker, deletes every
    stored file of the form and of no other form, empties the cache of
    every configured file field and resets the unsaved flag and the
    error; the values in the form stay as they are. *)
Theorem clearStorage_clears (st : State) :
  initialized st = true ->
  exists st',
    clearStorage formId options st = (Ok tt, st')
    /\ sessionStorage st' = delete (sessionKey formId) (sessionStorage st)
    /\ localStorage st'
       = delete (normalCloseKey formId) (delete (storageKey formId) (localStorage st))
    /\ (forall field, records_of formId field st' = [])
    /\ (forall g field, g <> formId ->
          records_of g field st' = records_of g field st)
    /\ (forall field, field ∈ fileFields options ->
          obj_get field (fileData st') = Some [])
    /\ hasUnsavedChanges st' = false
    /\ error st' = None
    /\ formData st' = formData st.
Proof.
  intros Hi. unfold clearStorage, try_catch.
  unfold bind at 1, sessionStorage_removeItem at 1, bind at 1, modify at 1, emit, modify.
  cbv beta iota.
  unfold bind at 1, localStorage_removeItem at 1, bind at 1, modify at 1, emit, modify.
  cbv beta iota.
  unfold bind at 1, localStorage_removeItem at 1, bind at 1, modify at 1, emit, modify.
  cbv beta iota.
  unfold bind at 1.
  match goal with
  | |- context [FileStorage_clearFiles formId ?s] =>
      destruct (clearFiles_isolated_aux formId s Hi)
        as (s1 & E1 & Hown & Hother & Hframe & _);
      rewrite E1
  end.
  cbv beta iota. unfold bind, modify. rewrite reset_fileData_eq.
  eexists. split; [reflexivity|].
  unfold blob_frame in Hframe. rewrite Hframe. cbn.
  split; [reflexivity|]. split; [reflexivity|].
  split; [exact Hown|]. split; [exact Hother|].
  split; [|repeat split].
  intros field Hin. rewrite (obj_get_foldl_set (fun _ => [])).
  rewrite bool_decide_eq_true_2 by exact Hin. reflexivity.
Qed.

Lemma clearStorage_closed_store_aux (st : State) :
  initialized st = false ->
  exists st',
    clearStorage formId options st = (Ok tt, st')
    /\ sessionStorage st' = delete (sessionKey formId) (sessionStorage st)
    /\ localStorage st'
       = delete (normalCloseKey formId) (delete (storageKey formId) (localStorage st))
    /\ error st' = Some "清理存储: 数据库未初始化"
    /\ hasUnsavedChanges st' = hasUnsavedChanges st
    /\ fileData st' = fileData st
    /\ fileStorage st' = fileStorage st.
Proof.
  intros Hi. unfold clearStorage, try_catch.
  unfold bind at 1, sessionStorage_removeItem at 1, bind at 1, modify at 1, emit, modify.
  cbv beta iota.
  unfold bind at 1, localStorage_removeItem at 1, bind at 1, modify at 1, emit, modify.
  cbv beta iota.
  unfold bind at 1, localStorage_removeItem at 1, bind at 1, modify at 1, emit, modify.
  cbv beta iota.
  unfold bind at 1. unfold FileStorage_clearFiles, with_store.
  unfold initialized in Hi. cbn [fileStorage set_trace set_localStorage set_sessionStorage].
  rewrite Hi. cbv beta iota.
  unfold bind. rewrite handleError_eq. unfold modify.
  eexists. split; [reflexivity|]. cbn. repeat split.
Qed.

(** X19. With the blob store closed, [clearStorage] still removes the
    two snapshots and the close marker, then fails at the blob store:
    the failure is reported and stored in the error state, and the
    unsaved flag and the file cache are left as they were. *)
Theorem clearStorage_closed_store (st : State) :
  initialized st = false ->
  exists st',
    clearStorage formId options st = (Ok tt, st')
    /\ sessionStorage st' = delete (sessionKey formId) (sessionStorage st)
    /\ localStorage st'
       = delete (normalCloseKey formId) (delete (storageKey formId) (localStorage st))
    /\ error st' = Some "清理存储: 数据库未初始化"
    /\ hasUnsavedChanges st' = hasUnsavedChanges st
    /\ fileData st' = fileData st
    /\ fileStorage st' = fileStorage st.
Proof. apply clearStorage_closed_store_aux. Qed.
End ClearFacts.

(** ** Mounting *)

Lemma bind_ok {A B : Type} (m : M A) (k : A -> M B) (st st1 : State) (a : A) :
  m st = (Ok a, st1) -> bind m k st = k a st1.
Proof. intros E. unfold bind. rewrite E. reflexivity. Qed.

Lemma bind_throw {A B : Type} (m : M A) (k : A -> M B) (st st1 : State) (e : string) :
  m st = (Throw e, st1) -> bind m k st = (Throw e, st1).
Proof. intros E. unfold bind. rewrite E. reflexivity. Qed.

Section MountMore.
Variable formId : string.
Variable options : UseFormPersistenceOptions.

(** X20. Where IndexedDB cannot be opened the mount stops at once: the
    failure is reported and stored in the error state, nothing is
    restored even if the text tiers hold a snapshot, the close marker
    is not consumed and no listener is attached. *)
Theorem onMounted_without_store (st : State) :
  store_usable st = false ->
  exists message,
    onMounted formId options st
    = (Ok tt,
       set_error (Some ("初始化表单持久化: " +:+ message))
         (set_trace (trace st ++ reports options message "初始化表单持久化") st)).
Proof.
  intros Hu. unfold store_usable in Hu. apply orb_false_iff in Hu as [Hi Ha].
  eexists. unfold onMounted, try_catch.
  erewrite bind_throw.
  2:{ unfold FileStorage_init, with_store. rewrite Hi, Ha.
      rewrite set_fileStorage_same. reflexivity. }
  unfold bind. rewrite handleError_eq. reflexivity.
Qed.

Lemma cleanNormalCloseData_ok (st : State) :
  exists st', cleanNormalCloseData formId options st = (Ok tt, st').
Proof.
  unfold cleanNormalCloseData. destruct (clearOnClose options); [|eexists; reflexivity].
  unfold try_catch.
  match goal with |- context [match ?m st with _ => _ end] => destruct (m st) as [[[]|e] s] end.
  - eexists; reflexivity.
  - unfold bind. rewrite handleError_eq. eexists; reflexivity.
Qed.

(** The state a mount restores from when it finds the close marker and
    keeps the data: the store opened, the marker removed. *)
Definition marker_removed (st : State) : State :=
  set_trace (trace st ++ [RemoveItem Durable (normalCloseKey formId)])
    (set_localStorage (delete (normalCloseKey formId) (localStorage st))
       (set_fileStorage (opened (fileStorage st)) st)).

(** X21. A mount in a new process consumes the close marker: when the
    session tier holds no snapshot and the blob store can be opened,
    the mount completes, the durable marker is gone afterwards whatever
    it was, the listeners are attached and no error is left. *)
Theorem onMounted_consumes_marker (st : State) :
  sessionStorage st !! sessionKey formId = None ->
  store_usable st = true ->
  exists st',
    onMounted formId options st = (Ok tt, st')
    /\ localStorage st' !! normalCloseKey formId = None
    /\ listening st' = true
    /\ error st' = None.
Proof.
  intros Hs Hu. unfold onMounted, try_catch.
  erewrite bind_ok by (apply FileStorage_init_ok, Hu).
  erewrite bind_ok by reflexivity.
  erewrite bind_ok by reflexivity.
  cbn [sessionStorage set_fileStorage]. rewrite Hs.
  rewrite (bool_decide_eq_false_2 (is_Some None)) by (intros [? ?]; discriminate).
  cbn [negb andb when].
  match goal with
  | |- context [bind ?m _ ?s] =>
      assert (Hb : exists s1, m s = (Ok tt, s1))
  end.
  { destruct (bool_decide (_ = Some "true")); destruct (clearOnClose options);
      cbn [andb]; try (eexists; reflexivity).
    unfold localStorage_removeItem, emit.
    erewrite bind_ok by (erewrite bind_ok by reflexivity; reflexivity).
    apply cleanNormalCloseData_ok. }
  destruct Hb as (s1 & E1). erewrite bind_ok by exact E1.
  destruct (restoreData_completes formId options s1) as ([] & s2 & E2 & s3 & ->).
  erewrite bind_ok by exact E2.
  unfold localStorage_removeItem, emit.
  erewrite bind_ok by (erewrite bind_ok by reflexivity; reflexivity).
  eexists. split; [reflexivity|]. cbn. split; [apply lookup_delete_eq|].
  split; reflexivity.
Qed.

(** X22. A mount that finds the close marker and is not told to clear on
    close keeps the data: it removes the marker first, so the restore
    that follows reads the durable tier as after a crash and merges
    what that tier hands back into the form. *)
Theorem onMounted_restores_after_close (st : State) (text : string) :
  sessionStorage st !! sessionKey formId = None ->
  localStorage st !! normalCloseKey formId = Some "true" ->
  localStorage st !! storageKey formId = Some text ->
  clearOnClose options = false ->
  store_usable st = true ->
  exists formOnly ok st1 st',
    restoreFromLocalStorage formId options (marker_removed st)
    = (Ok (formOnly, ok), st1)
    /\ onMounted formId options st = (Ok tt, st')
    /\ formData st'
       = obj_assign (formData st) (spread (if ok then formOnly else JObj []))
    /\ localStorage st' !! normalCloseKey formId = None
    /\ listening st' = true.
Proof.
  intros Hs Hm Hd Hc Hu.
  assert (Hs0 : no_text (sessionStorage (marker_removed st) !! sessionKey formId) = true)
    by (cbn; rewrite Hs; reflexivity).
  assert (Hd0 : localStorage (marker_removed st) !! storageKey formId = Some text).
  { cbn. rewrite lookup_delete_ne; [exact Hd|].
    intros H. symmetry in H. exact (storageKey_ne_normalCloseKey formId H). }
  assert (Hc0 : isCrashRecovery formId (marker_removed st) = true).
  { unfold isCrashRecovery, sessionExists, hasLocalStorageData, isNormalClose.
    rewrite Hd0. cbn [sessionStorage localStorage marker_removed set_trace
                        set_localStorage set_fileStorage].
    rewrite Hs, lookup_delete_eq.
    rewrite (bool_decide_eq_false_2 (is_Some None)) by (intros [? ?]; discriminate).
    rewrite bool_decide_eq_true_2 by eauto.
    rewrite bool_decide_eq_false_2 by discriminate. reflexivity. }
  destruct (restoreFromLocalStorage_ensures formId options (marker_removed st))
    as ([formOnly ok] & st1 & E & Hn).
  destruct (restoreData_from_durable formId options (marker_removed st) st1
              formOnly ok Hs0 Hc0 E Hn) as (st2 & E2 & Hf & _).
  destruct (keeps_form_restoreFromLocalStorage formId options _ _ _ E) as (Hf1 & _).
  exists formOnly, ok, st1. eexists. split; [exact E|].
  unfold onMounted, try_catch.
  erewrite bind_ok by (apply FileStorage_init_ok, Hu).
  erewrite bind_ok by reflexivity.
  erewrite bind_ok by reflexivity.
  cbn [sessionStorage localStorage set_fileStorage]. rewrite Hs, Hm, Hc.
  rewrite (bool_decide_eq_false_2 (is_Some None)) by (intros [? ?]; discriminate).
  rewrite bool_decide_eq_true_2 by reflexivity.
  cbn [negb andb when].
  unfold localStorage_removeItem at 1, emit.
  erewrite bind_ok by (erewrite bind_ok by reflexivity; reflexivity).
  change (set_trace _ (set_localStorage _ (set_fileStorage _ st)))
    with (marker_removed st).
  erewrite bind_ok by exact E2.
  unfold localStorage_removeItem, emit.
  erewrite bind_ok by (erewrite bind_ok by reflexivity; reflexivity).
  split; [reflexivity|]. cbn. rewrite Hf, Hf1. cbn.
  split; [reflexivity|]. split; [apply lookup_delete_eq | reflexivity].
Qed.
End MountMore.

(** ** Registering hooks *)

(** X23. The two registrations differ.  A field registration replaces the
    whole entry of each field it names, so a new entry without a restore
    hook silences the restore hook the field had, while the fields it
    does not name keep their entries; a global registration merges hook
    by hook, so a middleware with only a save hook keeps the restore hook
    registered before. *)
Theorem registration_replaces_or_merges (h : value -> Result value)
  (field : string) (transforms : FieldTransformConfig) (st : State) :
  transforms !! field
  = Some {| beforeSave := Some h; afterRestore := None |} ->
  let st1 := run (registerFieldTransforms transforms) st in
  let st2 := run (registerTransformMiddleware
                    {| beforeSave := Some h; afterRestore := None |}) st in
  currentFieldTransforms st1 !! field ≫= afterRestore = None
  /\ currentFieldTransforms st1 !! field ≫= beforeSave = Some h
  /\ (forall other, transforms !! other = None ->
        currentFieldTransforms st1 !! other = currentFieldTransforms st !! other)
  /\ afterRestore (currentMiddleware st2) = afterRestore (currentMiddleware st)
  /\ beforeSave (currentMiddleware st2) = Some h.
Proof.
  intros Ht st1 st2. subst st1 st2. cbn.
  rewrite (lookup_union_Some_l _ _ _ _ Ht). cbn.
  repeat apply conj; try reflexivity.
  intros other Ho. apply lookup_union_r, Ho.
Qed.

(** ** The JSON getters *)

Lemma file_summary_good (file : StoredFile.t) :
  pure (file_summary file) = true /\ wf_value (file_summary file) = true.
Proof.
  split; [reflexivity|]. cbn [file_summary wf_value map fst forallb snd andb].
  rewrite andb_true_r. apply bool_decide_eq_true_2.
  apply (bool_decide_unpack _). vm_compute. exact I.
Qed.

Lemma summaries_good (files : list StoredFile.t) :
  pure (JArr (map file_summary files)) = true
  /\ wf_value (JArr (map file_summary files)) = true.
Proof.
  cbn [pure wf_value]. rewrite !forallb_forall.
  split; intros v Hin; apply in_map_iff in Hin as (file & <- & _);
    apply file_summary_good.
Qed.

Lemma foldl_obj_set_fresh (h : string -> value) (ks : list string) (acc : obj) :
  NoDup (map fst acc ++ ks) ->
  foldl (fun acc k => obj_set k (h k) acc) acc ks
  = acc ++ map (fun k => (k, h k)) ks.
Proof.
  revert acc. induction ks as [|k ks IH]; intros acc Hnd; cbn [foldl map].
  - rewrite app_nil_r. reflexivity.
  - assert (Hk : k ∉ map fst acc).
    { apply NoDup_app in Hnd as (_ & Hd & _). intros Hin. apply (Hd _ Hin). left. }
    rewrite (obj_set_fresh k (h k) acc Hk). rewrite IH.
    + rewrite <- app_assoc. reflexivity.
    + rewrite map_app. cbn [map fst]. rewrite <- app_assoc. exact Hnd.
Qed.

Section Getters.
Variable st : State.

(** What [getFileDataJson] describes: for each field of the cache, the
    summaries of its files. *)
Definition file_summaries : obj :=
  map (fun entry => (fst entry, JArr (map file_summary (snd entry)))) (fileData st).

(** X24. For a form whose numbers are integers that a double holds
    exactly, [getFormDataJson] changes nothing and returns a text
    that parses back to the form as JSON carries it: the fields that
    are undefined are left out, and no time stamp is added. *)
Theorem getFormDataJson_parses :
  wf_value (JObj (formData st)) = true ->
  safe_numbers (JObj (formData st)) = true ->
  exists text,
    getFormDataJson st = (Ok text, st)
    /\ JSON_parse text = Some (JObj (omap prop_image (formData st))).
Proof.
  intros Hw _.
  destruct (JSON_roundtrip (JObj (formData st)) ltac:(discriminate) Hw)
    as (text & Es & Ep).
  exists text. unfold getFormDataJson, gets. rewrite Es. split; [reflexivity|].
  exact Ep.
Qed.

(** X25. [getFileDataJson] changes nothing and returns a text that
    parses back to an object with one property per field of the file
    cache, in the order of the cache, holding for each file its name,
    size, type and modification time and nothing else: neither the
    content nor the key of a stored file leaves the hook this way. *)
Theorem getFileDataJson_parses :
  NoDup (map fst (fileData st)) ->
  exists text,
    getFileDataJson st = (Ok text, st)
    /\ JSON_parse text = Some (JObj file_summaries).
Proof.
  intros Hnd.
  assert (Hs : foldl (fun acc fieldName =>
                 obj_set fieldName
                   (JArr (map file_summary
                            (default [] (obj_get fieldName (fileData st)))))
                   acc)
                 [] (map fst (fileData st))
               = file_summaries).
  { rewrite (foldl_obj_set_fresh
               (fun k => JArr (map file_summary (default [] (obj_get k (fileData st))))))
      by exact Hnd.
    cbn [app]. unfold file_summaries. rewrite map_map.
    apply map_ext_in. intros [k files] Hin. cbn [fst snd].
    rewrite (obj_get_elem k files (fileData st) Hnd)
      by (apply list_elem_of_In; exact Hin).
    reflexivity. }
  assert (Hp : pure (JObj file_summaries) = true).
  { cbn [pure]. apply forallb_forall. intros kv Hin. unfold file_summaries in Hin.
    apply in_map_iff in Hin as (entry & <- & _). cbn [snd].
    apply summaries_good. }
  assert (Hw : wf_value (JObj file_summaries) = true).
  { cbn [wf_value]. apply andb_true_iff. split.
    - apply bool_decide_eq_true_2. unfold file_summaries. rewrite map_map.
      cbn [fst]. exact Hnd.
    - apply forallb_forall. intros kv Hin. unfold file_summaries in Hin.
      apply in_map_iff in Hin as (entry & <- & _). cbn [snd].
      apply summaries_good. }
  destruct (JSON_roundtrip (JObj file_summaries) ltac:(discriminate) Hw)
    as (text & Es & Ep).
  rewrite (json_image_pure _ Hp) in Ep.
  exists text. unfold getFileDataJson, gets. cbv zeta. rewrite Hs, Es.
  split; [reflexivity | exact Ep].
Qed.
End Getters.

(** ** The form component that uses the hook *)

Section Component.
Variable formId : string.
Variable options : UseFormPersistenceOptions.

(** [handleFileChange]: the files picked for a field are saved; a
    failure of [saveFiles] is swallowed here. *)
Definition handleFileChange (fieldName : string) (files : option (list File.t)) :
  M unit :=
  match files with
  | Some (file :: rest) =>
      try_catch (saveFiles formId options fieldName (file :: rest))
        (fun _ => ret tt)
  | _ => ret tt
  end.

(** [handleClearStorage]: after the user confirms, the storage is
    cleared; the result is the text of the alert that is shown. *)
Definition handleClearStorage (confirmed : bool) : M (option string) :=
  if confirmed then
    try_catch
      (clearStorage formId options ;;
       ret (Some "缓存数据已成功清除！"))
      (fun _ => ret (Some "清除缓存失败，请稍后重试。"))
  else ret None.

Lemma clearStorage_ok (st : State) :
  exists st', clearStorage formId options st = (Ok tt, st').
Proof.
  unfold clearStorage, try_catch.
  match goal with |- context [match ?m st with _ => _ end] => destruct (m st) as [[[]|e] s] end.
  - eexists; reflexivity.
  - unfold bind. rewrite handleError_eq. eexists; reflexivity.
Qed.

(** X26. [clearStorage] never throws, so the component never shows its
    failure alert: once the user has confirmed, the alert announces
    success, also when the blob store was closed and the error state
    holds the failure. *)
Theorem handleClearStorage_always_succeeds (st : State) :
  (exists st', clearStorage formId options st = (Ok tt, st'))
  /\ (exists st',
        handleClearStorage true st = (Ok (Some "缓存数据已成功清除！"), st')
        /\ (initialized st = false -> error st' = Some "清理存储: 数据库未初始化"))
  /\ handleClearStorage false st = (Ok None, st).
Proof.
  split; [apply clearStorage_ok|]. split; [|reflexivity].
  unfold handleClearStorage, try_catch.
  destruct (initialized st) eqn:Hi.
  - destruct (clearStorage_ok st) as (st' & E).
    erewrite bind_ok by exact E. exists st'. split; [reflexivity | discriminate].
  - destruct (clearStorage_closed_store_aux formId options st Hi)
      as (st' & E & _ & _ & He & _).
    erewrite bind_ok by exact E. exists st'. split; [reflexivity|].
    intros _. exact He.
Qed.

(** X27. [handleFileChange] never throws.  With no file picked it does
    nothing and does not call [saveFiles]; a failing save of the picked
    files is swallowed, and what is left of it is the message in the
    error state and a cleared progress. *)
Theorem handleFileChange_swallows (fieldName : string)
  (files : option (list File.t)) (st : State) :
  (files = None \/ files = Some [] ->
   handleFileChange fieldName files st = (Ok tt, st))
  /\ exists st',
      handleFileChange fieldName files st = (Ok tt, st')
      /\ forall l e st1,
           files = Some l ->
           l <> [] ->
           saveFiles formId options fieldName l st = (Throw e, st1) ->
           st' = st1
           /\ error st' = Some ("保存文件: " +:+ e)
           /\ uploadProgress st' = None.
Proof.
  split; [intros [-> | ->]; reflexivity|].
  destruct files as [[|file rest]|]; cbn [handleFileChange].
  - exists st. split; [reflexivity|]. intros l e st1 [= <-] Hne. contradiction.
  - unfold try_catch.
    destruct (saveFiles formId options fieldName (file :: rest) st)
      as [[[]|e] s1] eqn:E.
    + exists s1. split; [reflexivity|]. intros l e st1 [= <-] _ E'. congruence.
    + exists s1. split; [reflexivity|]. intros l e' st1 [= <-] _ E'.
      rewrite E in E'. injection E' as <- <-. split; [reflexivity|].
      destruct (saveFiles_cases formId options fieldName (file :: rest) st)
        as [[_ E'] | [(_ & _ & E')
                      | (_ & _ & s2 & _ & _ & [(e0 & k & E' & _) | [E' _]])]];
        rewrite E' in E; try discriminate; injection E as <- <-;
        split; reflexivity.
  - exists st. split; [reflexivity|]. intros l e st1 [=].
Qed.
End Component.

(** ** More scenarios *)

(** A file stored with the blob store alone. *)
Definition stored_A : State :=
  run (FileStorage_saveFile fileA "f1" "avatar" (fun _ _ => ret tt)) mounted.

(** A second field with a file of its own, then a save on the first. *)
Definition with_cv : State := run (saveFiles "f1" plain_options "cv" [fileB]) mounted.
Definition with_cv_and_A : State :=
  run (saveFiles "f1" plain_options "avatar" [fileA]) with_cv.

(** A second form saves into the same tiers. *)
Definition two_forms : State := run (saveTextData "f2" plain_options) saved_sample.

(** A session tier holding text that is not JSON. *)
Definition corrupted : State :=
  initial_state plain_options blank_form {[ sessionKey "f1" := "{oops" ]} ∅
    empty_store t0.







(** Edited, then a file saved. *)
Definition busy : State :=
  run (saveFiles "f1" plain_options "avatar" [fileA]) (edited plain_options).

(** A browser without IndexedDB that still holds a durable snapshot. *)
Definition without_store : State :=
  initial_state plain_options blank_form ∅ (localStorage (edited plain_options))
    (FileStorage.mk [] 1 None false false) (t0 + 5000).

(** A field registration without a restore hook. *)
Definition save_only : DataTransformMiddleware :=
  {| beforeSave := Some (fun v => Ok v); afterRestore := None |}.

(** * The further properties on the scenarios *)

Lemma run_result {A : Type} (m : M A) (st : State) : m st = (result_of m st, run m st).
Proof. unfold result_of, run. destruct (m st); reflexivity. Qed.

(** X1 on a page that has not mounted yet. *)
Lemma FileStorage_closed_witness :
  initialized (fresh plain_options) = false
  /\ FileStorage_getFiles "f1" "avatar" (fresh plain_options)
     = (Throw "数据库未初始化", fresh plain_options).
Proof.
  assert (Hi : initialized (fresh plain_options) = false) by reflexivity.
  split; [exact Hi|].
  exact (proj1 (proj2 (FileStorage_closed fileA "f1" "avatar" (fun _ _ => ret tt)
                         (fresh plain_options) Hi))).
Defined.

(** X2 on the first file stored after a mount. *)
Lemma saveFile_getFiles_witness :
  exists rec,
    StoredFile.fileId rec = 1
    /\ stored_as "f1" "avatar" fileA rec
    /\ FileStorage_getFiles "f1" "avatar" stored_A
       = (Ok (records_of "f1" "avatar" mounted ++ [rec]), stored_A).
Proof.
  assert (E : FileStorage_saveFile fileA "f1" "avatar" (fun _ _ => ret tt) mounted
              = (Ok 1, stored_A)) by by_computation.
  destruct (saveFile_getFiles fileA "f1" "avatar" mounted stored_A 1 E)
    as (rec & Hid & Hs & _ & Hg & _).
  exists rec. split; [exact Hid|]. split; [exact Hs | exact Hg].
Defined.

(** X3 on a store holding one file of the form. *)
Lemma clearFiles_isolated_witness :
  initialized with_A = true
  /\ exists st',
       FileStorage_clearFiles "f1" with_A = (Ok tt, st')
       /\ records_of "f1" "avatar" st' = [].
Proof.
  assert (Hi : initialized with_A = true) by by_computation.
  split; [exact Hi|].
  destruct (clearFiles_isolated "f1" with_A Hi) as (st' & E & Hown & _).
  exists st'. split; [exact E | apply Hown].
Defined.

(** X5 on a form with files in two fields. *)
Lemma saveFiles_other_records_witness :
  unique_ids with_cv
  /\ map StoredFile.fileName (records_of "f1" "cv" with_cv) = ["b.png"]
  /\ records_of "f1" "cv" with_cv_and_A = records_of "f1" "cv" with_cv.
Proof.
  assert (Hu : unique_ids with_cv)
    by (apply (bool_decide_unpack _); vm_compute; exact I).
  split; [exact Hu|]. split; [by_computation|].
  unfold with_cv_and_A.
  exact (saveFiles_other_records "f1" plain_options "avatar" "f1" "cv"
           ltac:(right; discriminate) [fileA] with_cv _ _ Hu
           (run_result (saveFiles "f1" plain_options "avatar" [fileA]) with_cv)).
Defined.

(** X6 on the first file saved after a mount. *)
Lemma saveFiles_success_state_witness :
  error with_A = None
  /\ uploadProgress with_A = None
  /\ hasUnsavedChanges with_A = true
  /\ formData with_A = formData mounted
  /\ trace with_A = trace mounted.
Proof.
  assert (E : saveFiles "f1" plain_options "avatar" [fileA] mounted = (Ok tt, with_A))
    by by_computation.
  destruct (saveFiles_success_state "f1" plain_options "avatar" [fileA] mounted with_A E)
    as (H1 & H2 & H3 & H4 & _ & _ & H7 & _).
  repeat apply conj; assumption.
Defined.

(** X8 on a first visit. *)
Lemma restoreData_without_snapshot_witness :
  restoreData "f1" plain_options (fresh plain_options)
  = (Ok tt, recomputed (fresh plain_options)).
Proof.
  apply restoreData_without_snapshot; by_computation.
Defined.

(** X9 on a save, seen from an entry that belongs to no form. *)
Lemma operation_footprint_witness :
  localStorage saved_sample !! "theme" = localStorage sample_state !! "theme"
  /\ sessionStorage saved_sample !! "theme" = sessionStorage sample_state !! "theme".
Proof.
  unfold saved_sample.
  destruct (operation_footprint "f1" plain_options (saveTextData "f1" plain_options)
              sample_state _ _
              (op_saveTextData "f1" plain_options)
              (run_result (saveTextData "f1" plain_options) sample_state)) as [Hl Hs].
  split; [apply Hl | apply Hs]; intros H; vm_compute in H; discriminate.
Defined.

(** X10 on two forms that share the tiers. *)
Lemma forms_isolated_witness :
  let st' := run (clearStorage "f1" plain_options) two_forms in
  is_Some (localStorage two_forms !! storageKey "f2")
  /\ localStorage st' !! storageKey "f2" = localStorage two_forms !! storageKey "f2"
  /\ sessionStorage st' !! sessionKey "f2" = sessionStorage two_forms !! sessionKey "f2".
Proof.
  cbv zeta.
  destruct (forms_isolated "f1" "f2" plain_options (clearStorage "f1" plain_options)
              two_forms _ _
              ltac:(discriminate) (op_clearStorage "f1" plain_options)
              (run_result (clearStorage "f1" plain_options) two_forms))
    as (Hs & _ & Hl & _).
  split; [vm_compute; eauto|]. split; [|exact Hs].
  apply Hl. intros H. vm_compute in H. discriminate.
Defined.

(** X11 on a session tier that holds a broken text. *)
Lemma corrupt_snapshot_kept_witness :
  exists message,
    restoreFromSessionStorage "f1" plain_options corrupted
    = (Ok (JObj [], false),
       set_trace (trace corrupted
                  ++ reports plain_options message "从sessionStorage恢复数据")
         corrupted).
Proof.
  apply (proj1 (corrupt_snapshot_kept "f1" plain_options corrupted "{oops"
                  ltac:(by_computation) ltac:(by_computation) ltac:(discriminate))).
  by_computation.
Defined.


(** X13 on the restart after a crash. *)
Lemma durable_restore_mirrors_witness :
  let st' := run (restoreFromLocalStorage "f1" plain_options) crashed in
  exists text,
    localStorage crashed !! storageKey "f1" = Some text
    /\ sessionStorage st' = <[sessionKey "f1" := text]> (sessionStorage crashed)
    /\ localStorage st' = localStorage crashed.
Proof.
  intros st'.
  assert (E : restoreFromLocalStorage "f1" plain_options crashed
              = (Ok (JObj [("name", JStr "Ada"); ("tags", JArr [])], true), st'))
    by by_computation.
  exact (durable_restore_mirrors "f1" plain_options crashed st' _ true E).
Defined.



(** X16 on an edited form whose page is visible. *)
Lemma visible_page_witness :
  exists st',
    handlePageClose "f1" plain_options (edited plain_options) = (Ok tt, st')
    /\ sessionStorage st' !! normalCloseKey "f1"
       = sessionStorage (edited plain_options) !! normalCloseKey "f1"
    /\ localStorage st' !! normalCloseKey "f1"
       = localStorage (edited plain_options) !! normalCloseKey "f1"
    /\ timers st' = timers (edited plain_options).
Proof.
  exact (proj2 (proj2 (visible_page_is_not_a_close "f1" plain_options
                         (edited plain_options) ltac:(by_computation)))).
Defined.

(** X17 on an edit, a tab switch and back, and another edit. *)
Lemma marker_outlives_return_witness :
  let away := run (run_task "f1" MirrorCloseMarker)
                  (run (handlePageClose "f1" plain_options)
                       (set_visibilityState hidden (edited plain_options))) in
  let back := run (handlePageClose "f1" plain_options)
                  (set_visibilityState visible away) in
  let again := run (onFormMutation "f1" plain_options "name" (JStr "Bob")) back in
  localStorage again !! normalCloseKey "f1" = Some "true"
  /\ classify "f1" (reopened plain_options again (t0 + 9000)) = NormalRestart.
Proof.
  intros away back again.
  destruct (marker_outlives_return "f1" plain_options
              (set_visibilityState hidden (edited plain_options))
              "name" (JStr "Bob") eq_refl) as (_ & _ & Hm & Hc).
  split; [exact Hm|]. apply Hc; by_computation.
Defined.

(** X18 on a form with text and a file. *)
Lemma clearStorage_clears_witness :
  initialized busy = true
  /\ exists st',
       clearStorage "f1" plain_options busy = (Ok tt, st')
       /\ records_of "f1" "avatar" st' = []
       /\ obj_get "avatar" (fileData st') = Some []
       /\ formData st' = formData busy.
Proof.
  assert (Hi : initialized busy = true) by by_computation.
  split; [exact Hi|].
  destruct (clearStorage_clears "f1" plain_options busy Hi)
    as (st' & E & _ & _ & Hown & _ & Hcache & _ & _ & Hf).
  exists st'. split; [exact E|]. split; [apply Hown|]. split; [|exact Hf].
  apply Hcache. left.
Defined.

(** X19 on the restart after a crash, before the mount. *)
Lemma clearStorage_closed_store_witness :
  initialized crashed = false
  /\ exists st',
       clearStorage "f1" plain_options crashed = (Ok tt, st')
       /\ error st' = Some "清理存储: 数据库未初始化"
       /\ fileData st' = fileData crashed.
Proof.
  assert (Hi : initialized crashed = false) by by_computation.
  split; [exact Hi|].
  destruct (clearStorage_closed_store "f1" plain_options crashed Hi)
    as (st' & E & _ & _ & He & _ & Hf & _).
  exists st'. split; [exact E|]. split; [exact He | exact Hf].
Defined.

(** X20 on a browser without IndexedDB. *)
Lemma onMounted_without_store_witness :
  is_Some (localStorage without_store !! storageKey "f1")
  /\ exists message,
       onMounted "f1" plain_options without_store
       = (Ok tt,
          set_error (Some ("初始化表单持久化: " +:+ message))
            (set_trace (trace without_store
                        ++ reports plain_options message "初始化表单持久化")
               without_store)).
Proof.
  split; [vm_compute; eauto|].
  apply onMounted_without_store. reflexivity.
Defined.

(** X21 on the restart after a normal close. *)
Lemma onMounted_consumes_marker_witness :
  localStorage restarted !! normalCloseKey "f1" = Some "true"
  /\ exists st',
       onMounted "f1" plain_options restarted = (Ok tt, st')
       /\ localStorage st' !! normalCloseKey "f1" = None
       /\ listening st' = true
       /\ error st' = None.
Proof.
  split; [by_computation|].
  apply onMounted_consumes_marker; by_computation.
Defined.

(** X22 on the restart after a normal close that keeps the data. *)
Lemma onMounted_restores_after_close_witness :
  exists formOnly ok st1 st',
    restoreFromLocalStorage "f1" plain_options (marker_removed "f1" restarted)
    = (Ok (formOnly, ok), st1)
    /\ onMounted "f1" plain_options restarted = (Ok tt, st')
    /\ formData st'
       = obj_assign (formData restarted) (spread (if ok then formOnly else JObj []))
    /\ localStorage st' !! normalCloseKey "f1" = None
    /\ listening st' = true.
Proof.
  apply (onMounted_restores_after_close "f1" plain_options restarted
           (durable_text restarted)); by_computation.
Defined.

(** X23 on a field that had a restore hook. *)
Lemma registration_witness :
  currentFieldTransforms example_state !! "name" ≫= afterRestore
  = afterRestore uppercase_field
  /\ currentFieldTransforms
       (run (registerFieldTransforms {[ "name" := save_only ]}) example_state)
       !! "name" ≫= afterRestore = None.
Proof.
  split; [by_computation|].
  assert (Ht : ({[ "name" := save_only ]} : FieldTransformConfig) !! "name"
               = Some {| beforeSave := Some (fun v => Ok v); afterRestore := None |})
    by by_computation.
  exact (proj1 (registration_replaces_or_merges (fun v => Ok v) "name"
                  {[ "name" := save_only ]} example_state Ht)).
Defined.

(** X24 on a form with values of every kind. *)
Lemma getFormDataJson_parses_witness :
  exists text,
    getFormDataJson sample_state = (Ok text, sample_state)
    /\ JSON_parse text = Some (JObj (omap prop_image (formData sample_state))).
Proof.
  apply getFormDataJson_parses; by_computation.
Defined.

(** X25 on a cache with one file. *)
Lemma getFileDataJson_parses_witness :
  exists text,
    getFileDataJson with_B = (Ok text, with_B)
    /\ JSON_parse text = Some (JObj (file_summaries with_B)).
Proof.
  apply getFileDataJson_parses.
  apply (bool_decide_unpack _). vm_compute. exact I.
Defined.
